(** * E-commerce Data AI Agent: ingestion and question answering

    A shallow embedding of [App.js] (the React component that loads three CSV
    datasets into an in-browser sql.js database and answers questions through
    two LLM round trips), followed by the properties of the ingestion and
    question-answering pipeline.

    Definitions:
    - [JS]         the JavaScript built-ins the component calls
                   ([toUpperCase], [trim], [includes], [parseFloat], [isNaN],
                   [isFinite]);
    - [SqlJs]      the database handle as the component drives it
                   ([exec], [prepare], [run], [free], transactions, and a
                   journal of the calls made);
    - [App]        the component: [TABLE_SCHEMAS], the value coercion of
                   [parseAndInsert], [loadDataIntoDB], [askQuestion];
    - [Spec]       the vocabulary of the statements, and the coercion rule in
                   the specification's own words;
    - [Reference], [Examples]  a plain CSV reader and concrete pages, files
                   and replies on which the operations are run;
    - [Rendering]  the buttons and the chart effect;
    - [Terms]      further vocabulary, among it the inputs the model of the
                   engine covers ([plainHeader], [ownCallsOnly], [exactKey]);
    - [PatchWebpack]  the replacer callbacks of [patch-webpack.js].

    Properties: [JSFacts], [EngineFacts], [IngestFacts] (lemmas), then
    [Coercion], [Ingestion], [Loading], [Asking], [Session] and [Checks],
    then [IngestionMore], [LoadingMore], [AskingMore], [SessionMore] and
    [PatchFacts].

    The source holds two revisions of the component; they share
    [loadDataIntoDB] and differ in how [askQuestion] extracts the SQL text
    and in a few messages.  Both are embedded, selected by [App.revision]. *)

From stdpp Require Import gmap strings list.
From Stdlib Require Import ZArith NArith Ascii Lia Bool.
From Stdlib Require String.

Local Open Scope Z_scope.
Local Open Scope list_scope.

(** ** JavaScript built-ins *)

Module JS.

(** Strings are sequences of 8-bit code units.  The built-ins are modelled
    on ASCII text: [toUpperCase] maps the letters a-z and [trim] strips the
    six ASCII white-space characters; code units above 127 are carried
    through unchanged.  The language goes further on text outside ASCII
    (special casing such as U+0149 or U+017F, white space such as U+00A0):
    a statement that depends on how such text is cased or trimmed asks for
    ASCII text ([Terms.isAscii]). *)

Definition code (c : ascii) : N := N_of_ascii c.

Definition between (lo hi : N) (c : ascii) : bool :=
  (lo <=? code c)%N && (code c <=? hi)%N.

(** WhiteSpace and LineTerminator code units of the ASCII range:
    TAB, LF, VT, FF, CR and SPACE. *)
Definition isWhiteSpace (c : ascii) : bool :=
  between 9 13 c || (code c =? 32)%N.

Definition isDigit (c : ascii) : bool := between 48 57 c.

Definition toUpperChar (c : ascii) : ascii :=
  if between 97 122 c then ascii_of_N (code c - 32) else c.

(** [String.prototype.toUpperCase] *)
Fixpoint toUpperCase (s : string) : string :=
  match s with
  | EmptyString => EmptyString
  | String c r => String (toUpperChar c) (toUpperCase r)
  end.

(** [String.prototype.trimStart] *)
Fixpoint trimStart (s : string) : string :=
  match s with
  | EmptyString => EmptyString
  | String c r => if isWhiteSpace c then trimStart r else s
  end.

(** [String.prototype.trimEnd] *)
Fixpoint trimEnd (s : string) : string :=
  match s with
  | EmptyString => EmptyString
  | String c r =>
      match trimEnd r with
      | EmptyString => if isWhiteSpace c then EmptyString else String c EmptyString
      | r' => String c r'
      end
  end.

(** [String.prototype.trim] *)
Definition trim (s : string) : string := trimEnd (trimStart s).

(** [s.startsWith(p)] *)
Fixpoint startsWith (p s : string) : bool :=
  match p, s with
  | EmptyString, _ => true
  | String a p', String b s' => Ascii.eqb a b && startsWith p' s'
  | String _ _, EmptyString => false
  end.

(** The rest of [s] after the prefix [p], when [s] starts with [p]. *)
Fixpoint stripPrefix (p s : string) : option string :=
  match p, s with
  | EmptyString, _ => Some s
  | String a p', String b s' => if Ascii.eqb a b then stripPrefix p' s' else None
  | String _ _, EmptyString => None
  end.

(** [f] holds of every code unit of [s]. *)
Fixpoint allChars (f : ascii -> bool) (s : string) : bool :=
  match s with
  | EmptyString => true
  | String c r => f c && allChars f r
  end.

(** A suffix that cannot continue a numeric literal: nothing, or text that
    starts with white space. *)
Definition inert (w : string) : Prop :=
  match w with
  | EmptyString => True
  | String c _ => isWhiteSpace c = true
  end.

(** [s.includes(p)] *)
Fixpoint includes (s p : string) : bool :=
  startsWith p s ||
  match s with
  | EmptyString => false
  | String _ r => includes r p
  end.

(** *** Numbers

    A Number is NaN, an infinity, or a finite value kept as the exact decimal
    [(-1)^neg * m * 10^e] that the literal denotes.  Overflow to an infinity is
    decided exactly; rounding of a finite decimal to the nearest double is not
    part of the model. *)

Inductive number : Type :=
| NaN
| Infinity (neg : bool)
| Finite (neg : bool) (m : N) (e : Z).

#[global] Instance number_eq_dec : EqDecision number.
Proof. intros a b; unfold Decision; repeat decide equality. Defined.

(** Canonical form: no trailing decimal zero in the mantissa, and exponent 0
    for a zero mantissa, so that equal values are equal terms. *)
Fixpoint strip10 (fuel : nat) (m : N) (e : Z) : N * Z :=
  match fuel with
  | O => (m, e)
  | S k =>
      if (m =? 0)%N then (0%N, 0)
      else if (m mod 10 =? 0)%N then strip10 k (m / 10)%N (e + 1)
      else (m, e)
  end.

Definition canon (m : N) (e : Z) : N * Z := strip10 (S (N.to_nat (N.log2 m))) m e.

(** Decimals at or above [2^1024 - 2^970] round to an infinity. *)
Definition overflow_bound : Z := 2 ^ 1024 - 2 ^ 970.

Definition overflows (m : N) (e : Z) : bool :=
  if 0 <=? e then overflow_bound <=? Z.of_N m * 10 ^ e
  else overflow_bound * 10 ^ (- e) <=? Z.of_N m.

Definition mkNumber (neg : bool) (m : N) (e : Z) : number :=
  if overflows m e then Infinity neg
  else let '(m', e') := canon m e in Finite neg m' e'.

Definition zero : number := Finite false 0 0.
Definition one : number := Finite false 1 0.

Definition isNaN (n : number) : bool :=
  match n with NaN => true | _ => false end.

Definition isFiniteNumber (n : number) : bool :=
  match n with Finite _ _ _ => true | _ => false end.

(** *** Numeric literals *)

Definition digitValue (c : ascii) : N := (code c - 48)%N.

(** The longest run of decimal digits at the front of [s]: its value, its
    length, and the rest of the string. *)
Fixpoint scanDigits (s : string) (acc : N) (len : nat) : N * nat * string :=
  match s with
  | String c r =>
      if isDigit c then scanDigits r (acc * 10 + digitValue c)%N (S len)
      else (acc, len, s)
  | EmptyString => (acc, len, s)
  end.

(** ExponentPart, when one is present at the front of [s]. *)
Definition scanExponent (s : string) : Z * string :=
  match s with
  | String c r =>
      if (code c =? 101)%N || (code c =? 69)%N then
        let '(neg, r1) :=
          match r with
          | String sg r' =>
              if (code sg =? 45)%N then (true, r')
              else if (code sg =? 43)%N then (false, r')
              else (false, r)
          | EmptyString => (false, r)
          end in
        let '(v, len, r2) := scanDigits r1 0%N O in
        match len with
        | O => (0, s)
        | S _ => ((if neg then - Z.of_N v else Z.of_N v), r2)
        end
      else (0, s)
  | EmptyString => (0, s)
  end.

(** The longest prefix of [s] that is a StrUnsignedDecimalLiteral. *)
Definition scanUnsigned (neg : bool) (s : string) : option (number * string) :=
  match stripPrefix "Infinity" s with
  | Some r => Some (Infinity neg, r)
  | None =>
      let '(ip, ilen, r1) := scanDigits s 0%N O in
      let '(m, flen, r2) :=
        match r1 with
        | String c r =>
            if (code c =? 46)%N then scanDigits r ip O else (ip, O, r1)
        | EmptyString => (ip, O, r1)
        end in
      match ilen, flen with
      | O, O => None
      | _, _ =>
          let '(ex, r3) := scanExponent r2 in
          Some (mkNumber neg m (ex - Z.of_nat flen), r3)
      end
  end.

(** The longest prefix of [s] that is a StrDecimalLiteral (optional sign). *)
Definition scanDecimal (s : string) : option (number * string) :=
  match s with
  | String c r =>
      if (code c =? 45)%N then scanUnsigned true r
      else if (code c =? 43)%N then scanUnsigned false r
      else scanUnsigned false s
  | EmptyString => None
  end.

(** [parseFloat] on a string: leading white space is skipped and the longest
    decimal-literal prefix is read; NaN when there is none. *)
Definition parseFloatString (s : string) : number :=
  match scanDecimal (trimStart s) with
  | Some (n, _) => n
  | None => NaN
  end.

(** Digits of a NonDecimalIntegerLiteral in the given radix. *)
Definition radixDigit (radix : N) (c : ascii) : option N :=
  let v :=
    if isDigit c then Some (digitValue c)
    else if between 97 102 c then Some (code c - 87)%N
    else if between 65 70 c then Some (code c - 55)%N
    else None in
  match v with
  | Some d => if (d <? radix)%N then Some d else None
  | None => None
  end.

Fixpoint radixValue (radix : N) (s : string) (acc : N) : option N :=
  match s with
  | EmptyString => Some acc
  | String c r =>
      match radixDigit radix c with
      | Some d => radixValue radix r (acc * radix + d)%N
      | None => None
      end
  end.

(** [0x..], [0o..] and [0b..] literals (either letter case, no sign). *)
Definition scanNonDecimal (s : string) : option number :=
  match s with
  | String z (String x (String d r)) =>
      if (code z =? 48)%N then
        let radix :=
          if (code x =? 120)%N || (code x =? 88)%N then Some 16%N
          else if (code x =? 111)%N || (code x =? 79)%N then Some 8%N
          else if (code x =? 98)%N || (code x =? 66)%N then Some 2%N
          else None in
        match radix with
        | Some k =>
            match radixValue k (String d r) 0%N with
            | Some v => Some (mkNumber false v 0)
            | None => None
            end
        | None => None
        end
      else None
  | _ => None
  end.

(** StringToNumber: the whole trimmed string has to be a numeric literal; the
    empty string is 0. *)
Definition StringToNumber (s : string) : number :=
  match trim s with
  | EmptyString => zero
  | t =>
      match scanDecimal t with
      | Some (n, EmptyString) => n
      | _ =>
          match scanNonDecimal t with
          | Some n => n
          | None => NaN
          end
      end
  end.

(** *** Values *)

Inductive value : Type :=
| VUndefined
| VNull
| VNum (n : number)
| VStr (s : string)
| VObject.

#[global] Instance value_eq_dec : EqDecision value.
Proof.
  intros a b; unfold Decision.
  decide equality; [apply number_eq_dec | apply String.string_dec].
Defined.

(** [typeof v === 'string'] *)
Definition isString (v : value) : bool :=
  match v with VStr _ => true | _ => false end.

(** ToNumber *)
Definition ToNumber (v : value) : number :=
  match v with
  | VUndefined => NaN
  | VNull => zero
  | VNum n => n
  | VStr s => StringToNumber s
  | VObject => NaN
  end.

(** The global [parseFloat]: the argument is converted to a string first
    ([null], [undefined] and objects give text with no numeric prefix; a
    negative zero prints as [0]). *)
Definition parseFloat (v : value) : number :=
  match v with
  | VStr s => parseFloatString s
  | VNum (Finite _ 0%N _) => zero
  | VNum n => n
  | VUndefined | VNull | VObject => NaN
  end.

(** The global [isFinite]: ToNumber, then the finiteness test. *)
Definition isFinite (v : value) : bool := isFiniteNumber (ToNumber v).

(** ToBoolean on strings: only the empty string is falsy. *)
Definition truthyString (s : string) : bool :=
  match s with EmptyString => false | _ => true end.

End JS.


(** ** The sql.js database handle

    The component drives the engine through [db.exec], [db.prepare],
    [stmt.run] and [stmt.free].  The model keeps what those calls can
    observe: the catalog of tables with their rows, the snapshot taken by
    BEGIN, and a journal of every call made on the handle.

    An INSERT statement is kept as its parts (table, column list, number of
    placeholders).  That is what the text the component assembles denotes
    when the header names are plain ([Terms.plainName]): the component puts
    each name between double quotes without escaping it, so a name that
    holds a double quote makes another statement, and the model does not
    follow the engine there.  Column names resolve against the declared
    columns without regard to the case of ASCII letters; the implicit row
    identifier ([rowid], [oid], [_rowid_]) is not a column of the model.
    A value is kept under the affinity of its column.  The handle holds
    tables only: triggers, views and indexes, which only a text of the
    language model could create, have no place in it
    ([Terms.ownCallsOnly]). *)

Module SqlJs.
Import JS.

Inductive decltype : Type := TEXT | REAL | INTEGER | BOOLEAN.

Record schema : Type := {
  sch_columns : list (string * decltype);
  sch_primary_key : list string
}.

#[global] Instance decltype_eq_dec : EqDecision decltype.
Proof. intros a b; unfold Decision; decide equality. Defined.

(** A value as the engine keeps it in a column.  A real is named by the
    decimal whose nearest double it is.  [SqlConverted ty v] stands for what
    the engine makes of the bound value [v] in a column declared [ty] in the
    cases the model does not compute: a double rendered as text or turned
    into an integer, a text that a numeric column may read as a number. *)
Inductive sqlvalue : Type :=
| SqlNull
| SqlInteger (z : Z)
| SqlReal (x : number)
| SqlText (s : string)
| SqlConverted (ty : decltype) (v : value).

#[global] Instance sqlvalue_eq_dec : EqDecision sqlvalue.
Proof.
  intros a b; unfold Decision.
  decide equality;
    first [apply decltype_eq_dec | apply value_eq_dec | apply number_eq_dec
          | apply String.string_dec | apply Z.eq_dec].
Defined.

Record table : Type := {
  tbl_schema : schema;
  tbl_rows : list (list sqlvalue)
}.

(** The statements the component passes to [db.exec] itself. *)
Inductive command : Type :=
| CreateTableIfNotExists (name : string) (s : schema)
| BeginTransaction
| Commit
| Rollback.

Inductive call : Type :=
| CallExec (c : command)
| CallPrepare (tbl : string) (cols : list string) (nparams : nat)
| CallRun (vals : list value)
| CallFree
| CallQuery (sql : string).

Record Database : Type := {
  tables : gmap string table;
  snapshot : option (gmap string table);
  journal : list call
}.

(** [new SQL.Database()] *)
Definition newDatabase : Database :=
  {| tables := ∅; snapshot := None; journal := [] |}.

Definition log (c : call) (db : Database) : Database :=
  {| tables := tables db; snapshot := snapshot db; journal := journal db ++ [c] |}.

(** A call either returns or throws an [Error] with a message; the handle
    keeps whatever the call did before throwing. *)
Inductive outcome (A : Type) : Type :=
| Returned (a : A)
| Thrown (message : string).
Arguments Returned {A} a.
Arguments Thrown {A} message.

(** [db.exec] on the component's own statements. *)
Definition exec (c : command) (db : Database) : outcome unit * Database :=
  let db1 := log (CallExec c) db in
  match c with
  | CreateTableIfNotExists name s =>
      match tables db1 !! name with
      | Some _ => (Returned tt, db1)
      | None =>
          (Returned tt,
           {| tables := <[name := {| tbl_schema := s; tbl_rows := [] |}]> (tables db1);
              snapshot := snapshot db1; journal := journal db1 |})
      end
  | BeginTransaction =>
      match snapshot db1 with
      | Some _ => (Thrown "cannot start a transaction within a transaction", db1)
      | None =>
          (Returned tt,
           {| tables := tables db1; snapshot := Some (tables db1); journal := journal db1 |})
      end
  | Commit =>
      match snapshot db1 with
      | Some _ =>
          (Returned tt, {| tables := tables db1; snapshot := None; journal := journal db1 |})
      | None => (Thrown "cannot commit - no transaction is active", db1)
      end
  | Rollback =>
      match snapshot db1 with
      | Some saved =>
          (Returned tt, {| tables := saved; snapshot := None; journal := journal db1 |})
      | None => (Thrown "cannot rollback - no transaction is active", db1)
      end
  end.

(** Position of the declared column a name resolves to; the engine folds
    the ASCII letters and no others.  The aliases of the row identifier
    resolve in the engine and not here. *)
Fixpoint columnIndex (cols : list (string * decltype)) (name : string) : option nat :=
  match cols with
  | [] => None
  | (c, _) :: rest =>
      if String.eqb (toUpperCase c) (toUpperCase name) then Some O
      else option_map S (columnIndex rest name)
  end.


(** Resolve every named column, or report the first that does not resolve. *)
Fixpoint resolveColumns (cols : list (string * decltype)) (names : list string)
  : list nat + string :=
  match names with
  | [] => inl []
  | n :: rest =>
      match columnIndex cols n with
      | None => inr n
      | Some i =>
          match resolveColumns cols rest with
          | inl idxs => inl (i :: idxs)
          | inr bad => inr bad
          end
      end
  end.

(** The double quote character, as a text. *)
Definition dquote : string := String (ascii_of_N 34) EmptyString.

Fixpoint digitsOf (fuel : nat) (n : N) (acc : string) : string :=
  match fuel with
  | O => acc
  | S k =>
      let acc' := String (ascii_of_N (48 + n mod 10)) acc in
      if (n / 10 =? 0)%N then acc' else digitsOf k (n / 10)%N acc'
  end.

(** The decimal text of an integer. *)
Definition decimalText (z : Z) : string :=
  let n := Z.to_N (Z.abs z) in
  (if z <? 0 then "-" else "") +:+ digitsOf (S (N.to_nat (N.log2 n))) n EmptyString.

(** A prepared INSERT. *)
Record Statement : Type := {
  st_table : string;
  st_targets : list nat;
  st_nparams : nat
}.

(** [db.prepare] on [INSERT INTO tbl (cols) VALUES (?, ..., ?);], for a
    statement whose quoted names are plain: every name has to resolve to a
    declared column. *)
Definition prepare (tbl : string) (cols : list string) (nparams : nat) (db : Database)
  : outcome Statement * Database :=
  let db1 := log (CallPrepare tbl cols nparams) db in
  match tables db1 !! tbl with
  | None => (Thrown ("no such table: " +:+ tbl), db1)
  | Some t =>
      match cols with
      | [] => (Thrown ("near " +:+ dquote +:+ ")" +:+ dquote +:+ ": syntax error"), db1)
      | _ =>
          match resolveColumns (sch_columns (tbl_schema t)) cols with
          | inr bad => (Thrown ("table " +:+ tbl +:+ " has no column named " +:+ bad), db1)
          | inl targets =>
              if Nat.eqb nparams (length cols) then
                (Returned {| st_table := tbl; st_targets := targets; st_nparams := nparams |}, db1)
              else
                (Thrown (decimalText (Z.of_nat nparams) +:+ " values for "
                         +:+ decimalText (Z.of_nat (length cols)) +:+ " columns"), db1)
          end
      end
  end.

(** Values sql.js can bind: strings, numbers and [null]. *)
Definition bindable (v : value) : bool :=
  match v with
  | VUndefined | VObject => false
  | _ => true
  end.

(** [stmt.bind(values)] for an array: the values go to parameters 1, 2, ...
    in turn; the first value that cannot be bound throws.  For a value of a
    type it does not know sql.js throws a string, not an [Error]: it has no
    [message], and the component's template prints [undefined]. *)
Fixpoint bindFromArray (nparams pos : nat) (vals : list value) : option string :=
  match vals with
  | [] => None
  | v :: rest =>
      if negb (bindable v) then Some "undefined"
      else if Nat.leb nparams pos then Some "column index out of range"
      else bindFromArray nparams (S pos) rest
  end.

(** sql.js binds a Number [val] as an integer when [val === (val | 0)], and
    as a double otherwise; minus zero is bound as the integer 0.  A finite
    number is kept in canonical form, so its decimal is whole exactly when
    the exponent is not negative. *)
Definition int32 (x : number) : option Z :=
  match x with
  | Finite neg m e =>
      if 0 <=? e then
        let z := Z.of_N m * 10 ^ e in
        let z := if neg then - z else z in
        if (- 2 ^ 31 <=? z) && (z <=? 2 ^ 31 - 1) then Some z else None
      else None
  | _ => None
  end.

(** What the engine keeps when [v] is bound to a column declared [ty]: the
    column affinity is applied to the bound value.  TEXT columns turn a
    number into its text; REAL columns turn an integer into a real; INTEGER
    columns and, with NUMERIC affinity, BOOLEAN columns keep an integer. *)
Definition keep (ty : decltype) (v : value) : sqlvalue :=
  match v with
  | VNull => SqlNull
  | VStr s =>
      match ty with
      | TEXT => SqlText s
      | _ => SqlConverted ty v
      end
  | VNum x =>
      match int32 x with
      | Some z =>
          match ty with
          | TEXT => SqlText (decimalText z)
          | REAL => SqlReal (if z =? 0 then zero else x)
          | INTEGER | BOOLEAN => SqlInteger z
          end
      | None =>
          match x, ty with
          | Finite _ _ _, REAL => SqlReal x
          | _, _ => SqlConverted ty v
          end
      end
  | VUndefined | VObject => SqlConverted ty v
  end.

(** Position in the column list of the first name that targets column [j]. *)
Fixpoint firstTarget (targets : list nat) (j : nat) : option nat :=
  match targets with
  | [] => None
  | t :: rest => if Nat.eqb t j then Some O else option_map S (firstTarget rest j)
  end.

(** The row an INSERT stores: a named column takes its parameter (NULL when
    no value was bound to it), the other columns are NULL; each value is
    kept under the affinity of its column. *)
Definition storedRow (cols : list (string * decltype)) (targets : list nat)
  (vals : list value) : list sqlvalue :=
  imap (fun j c => keep (snd c) (match firstTarget targets j with
                                 | Some i => nth i vals VNull
                                 | None => VNull
                                 end)) cols.

Definition keyOf (s : schema) (row : list sqlvalue) : list sqlvalue :=
  map (fun name => match columnIndex (sch_columns s) name with
                   | Some j => nth j row SqlNull
                   | None => SqlNull
                   end) (sch_primary_key s).

Definition isNull (v : value) : bool :=
  match v with VNull => true | _ => false end.

Definition isSqlNull (v : sqlvalue) : bool :=
  match v with SqlNull => true | _ => false end.

(** Cells the engine compares the way the model does: NULL, integers and
    texts.  Two reals, or two cells the model does not compute, are the same
    to the engine when they are the same term, and may be when they are
    not. *)
Definition exactCell (v : sqlvalue) : bool :=
  match v with SqlNull | SqlInteger _ | SqlText _ => true | _ => false end.

(** Two rows collide on the primary key when their keys, as kept, are equal
    and hold no NULL (NULLs are distinct from each other).  On keys made of
    exact cells this is the engine's test; on the other cells the test is on
    the terms that name them, and the engine may find equal two cells that
    are named differently ([Terms.exactKey]). *)
Definition keyConflict (s : schema) (new old : list sqlvalue) : bool :=
  forallb (fun v => negb (isSqlNull v)) (keyOf s new)
  && bool_decide (keyOf s new = keyOf s old).

Definition uniqueMessage (tbl : string) (s : schema) : string :=
  "UNIQUE constraint failed: "
  +:+ String.concat ", " (map (fun c => tbl +:+ "." +:+ c) (sch_primary_key s)).

(** [stmt.run(values)]: bind, then execute the INSERT once.  A failing
    statement stores nothing and leaves an open transaction open. *)
Definition run (st : Statement) (vals : list value) (db : Database)
  : outcome unit * Database :=
  let db1 := log (CallRun vals) db in
  match bindFromArray (st_nparams st) O vals with
  | Some msg => (Thrown msg, db1)
  | None =>
      match tables db1 !! st_table st with
      | None => (Thrown ("no such table: " +:+ st_table st), db1)
      | Some t =>
          let s := tbl_schema t in
          let row := storedRow (sch_columns s) (st_targets st) vals in
          if existsb (keyConflict s row) (tbl_rows t) then
            (Thrown (uniqueMessage (st_table st) s), db1)
          else
            (Returned tt,
             {| tables := <[st_table st := {| tbl_schema := s; tbl_rows := tbl_rows t ++ [row] |}]>
                            (tables db1);
                snapshot := snapshot db1; journal := journal db1 |})
      end
  end.

(** [stmt.free()] *)
Definition free (db : Database) : Database := log CallFree db.

(** One result object of [db.exec(sql)].  The engine creates a result object
    only when a statement yields a first row, so [values] is never empty. *)
Record QueryExecResult : Type := {
  columns : list string;
  first_row : list value;
  more_rows : list (list value)
}.

Definition values (r : QueryExecResult) : list (list value) :=
  first_row r :: more_rows r.

(** What the engine does with an arbitrary SQL text: given the tables and
    the transaction state, the result objects or the exception, and the
    tables and the transaction state it leaves.  The text may hold several
    statements, write, or open and close transactions; when it throws, what
    ran before the failing statement stays done. *)
Definition evaluator : Type :=
  gmap string table -> option (gmap string table) -> string
  -> outcome (list QueryExecResult) * (gmap string table * option (gmap string table)).

(** [db.exec(sql)] on the text produced by the language model.  The call is
    recorded and the handle is left as the engine leaves it.  Schema objects
    other than tables (triggers, views, indexes) have no place in
    [Database]: a theorem on ingestion that needs their absence asks for a
    handle on which no such text has run. *)
Definition execQuery (eval : evaluator) (sql : string) (db : Database)
  : outcome (list QueryExecResult) * Database :=
  let '(r, (t, s)) := eval (tables db) (snapshot db) sql in
  (r, {| tables := t; snapshot := s; journal := journal db ++ [CallQuery sql] |}).

(** Rows of a table, [[]] when the table does not exist. *)
Definition rowsOf (db : Database) (tbl : string) : list (list sqlvalue) :=
  match tables db !! tbl with
  | Some t => tbl_rows t
  | None => []
  end.

End SqlJs.

(** ** The component *)

Module App.
Import JS SqlJs.

(** [TABLE_SCHEMAS], in the order [for ... in] enumerates it. *)
Definition product_ad_sales_metrics : schema :=
  {| sch_columns :=
       [("date", TEXT); ("item_id", TEXT); ("ad_sales", REAL); ("impressions", INTEGER);
        ("ad_spend", REAL); ("clicks", INTEGER); ("units_sold", INTEGER)];
     sch_primary_key := ["date"; "item_id"] |}.

Definition product_total_sales_metrics : schema :=
  {| sch_columns :=
       [("date", TEXT); ("item_id", TEXT); ("total_sales", REAL);
        ("total_units_ordered", INTEGER)];
     sch_primary_key := ["date"; "item_id"] |}.

Definition product_eligibility : schema :=
  {| sch_columns :=
       [("eligibility_datetime_utc", TEXT); ("item_id", TEXT); ("eligibility", BOOLEAN);
        ("message", TEXT)];
     sch_primary_key := ["eligibility_datetime_utc"; "item_id"] |}.

Definition TABLE_SCHEMAS : list (string * schema) :=
  [("product_ad_sales_metrics", product_ad_sales_metrics);
   ("product_total_sales_metrics", product_total_sales_metrics);
   ("product_eligibility", product_eligibility)].

(** Declared type of a column of a table of [TABLE_SCHEMAS]. *)
Definition declaredType (tbl col : string) : option decltype :=
  match List.find (fun e => String.eqb (fst e) tbl) TABLE_SCHEMAS with
  | Some (_, s) =>
      match List.find (fun c => String.eqb (fst c) col) (sch_columns s) with
      | Some (_, ty) => Some ty
      | None => None
      end
  | None => None
  end.

(** *** What [Papa.parse] hands to the [complete] callback

    With [header: true] every record is an object from header name to field
    text, its keys in enumeration order. *)

Abbreviation Row := (list (string * string)) (only parsing).

Record ParseError : Type := { message : string }.

Record ParseResult : Type := {
  fields : list string;   (* [results.meta.fields]: the header *)
  errors : list ParseError;
  data : list Row
}.

(** [Object.keys(row)] and [Object.values(row)] *)
Definition Object_keys (row : Row) : list string := map fst row.
Definition Object_values (row : Row) : list value := map (fun kv => VStr (snd kv)) row.

Inductive console_entry : Type :=
| ConsoleWarn (text : string)
| ConsoleLog (text : string)
| ConsoleError (text : string).

(** *** Value coercion: the callback of [Object.values(row).map] in
    [parseAndInsert] *)
Definition coerceValue (value : value) : JS.value :=
  let early :=
    match value with
    | VStr s =>
        if String.eqb (toUpperCase s) "TRUE" then Some (VNum one)
        else if String.eqb (toUpperCase s) "FALSE" then Some (VNum zero)
        else if String.eqb (trim s) "" then Some VNull
        else None
    | _ => None
    end in
  match early with
  | Some r => r
  | None =>
      if negb (isNull value) && negb (isNaN (parseFloat value)) && isFinite value
      then VNum (parseFloat value)
      else value
  end.

(** The [for (const row of data)] loop: coerce and run, stopping at the first
    row the statement refuses. *)
Fixpoint insertRows (stmt : Statement) (rows : list Row) (db : Database)
  : outcome unit * Database :=
  match rows with
  | [] => (Returned tt, db)
  | row :: rest =>
      let values := map coerceValue (Object_values row) in
      match run stmt values db with
      | (Returned _, db1) => insertRows stmt rest db1
      | (Thrown m, db1) => (Thrown m, db1)
      end
  end.

(** The body of the inner [try]: prepare, insert every row, commit, free.
    The second component is the [stmt] variable as the [catch] block sees
    it.  The statement text is assembled from the keys of the first record,
    each between double quotes, and as many placeholders; [prepare] takes
    the keys and the number of placeholders, which denote that text when the
    keys are plain. *)
Definition tryInsert (tableName : string) (rows : list Row) (first : Row) (db : Database)
  : outcome unit * option Statement * Database :=
  match prepare tableName (Object_keys first) (length (Object_keys first)) db with
  | (Thrown m, db1) => (Thrown m, None, db1)
  | (Returned stmt, db1) =>
      match insertRows stmt rows db1 with
      | (Thrown m, db2) => (Thrown m, Some stmt, db2)
      | (Returned _, db2) =>
          match exec Commit db2 with
          | (Thrown m, db3) => (Thrown m, Some stmt, db3)
          | (Returned _, db3) => (Returned tt, Some stmt, free db3)
          end
      end
  end.

(** The [complete] callback.  The result is how the promise settles
    ([Returned]: resolved, [Thrown]: rejected with that message), the handle
    afterwards, and what was written to the console.  An exception that
    leaves the callback rejects the promise with its own message. *)
Definition complete (results : ParseResult) (tableName : string) (db : Database)
  : outcome unit * Database * list console_entry :=
  match errors results with
  | e :: _ =>
      (Thrown ("CSV parsing error for " +:+ tableName +:+ ": " +:+ message e), db, [])
  | [] =>
      match data results with
      | [] => (Returned tt, db, [ConsoleWarn ("No data found in " +:+ tableName +:+ " CSV.")])
      | first :: _ =>
          match exec BeginTransaction db with
          | (Thrown m, db1) => (Thrown m, db1, [])
          | (Returned _, db1) =>
              match tryInsert tableName (data results) first db1 with
              | (Returned _, _, db2) => (Returned tt, db2, [])
              | (Thrown insertErr, stmt, db2) =>
                  match exec Rollback db2 with
                  | (Thrown m, db3) => (Thrown m, db3, [])
                  | (Returned _, db3) =>
                      let db4 := match stmt with Some _ => free db3 | None => db3 end in
                      (Thrown ("Error inserting data into " +:+ tableName +:+ ": " +:+ insertErr),
                       db4, [])
                  end
              end
          end
      end
  end.

(** *** Objects built from query rows

    [const obj = {}; columns.forEach((col, i) => { obj[col] = row[i]; })].
    A plain object inherits from [Object.prototype]: reading a name it does
    not own falls back to the inherited members, and assigning to
    [__proto__] goes to the inherited setter instead of creating a
    property. *)

Record object : Type := {
  own : list (string * value);
  inherits : bool
}.

Definition emptyObject : object := {| own := []; inherits := true |}.

Definition Object_prototype_names : list string :=
  ["constructor"; "__proto__"; "hasOwnProperty"; "isPrototypeOf";
   "propertyIsEnumerable"; "toLocaleString"; "toString"; "valueOf";
   "__defineGetter__"; "__defineSetter__"; "__lookupGetter__"; "__lookupSetter__"].

Fixpoint lookupOwn (props : list (string * value)) (k : string) : option value :=
  match props with
  | [] => None
  | (k', v) :: rest => if String.eqb k' k then Some v else lookupOwn rest k
  end.

Fixpoint assignOwn (props : list (string * value)) (k : string) (v : value)
  : list (string * value) :=
  match props with
  | [] => [(k, v)]
  | (k', v') :: rest =>
      if String.eqb k' k then (k', v) :: rest else (k', v') :: assignOwn rest k v
  end.

(** [obj[k]] *)
Definition getProp (o : object) (k : string) : value :=
  match lookupOwn (own o) k with
  | Some v => v
  | None =>
      if inherits o && existsb (String.eqb k) Object_prototype_names then VObject
      else VUndefined
  end.

(** [obj[k] = v] *)
Definition setProp (o : object) (k : string) (v : value) : object :=
  if String.eqb k "__proto__" && inherits o then
    match v with
    | VNull => {| own := own o; inherits := false |}
    | _ => o
    end
  else {| own := assignOwn (own o) k v; inherits := inherits o |}.

(** [columns.forEach((col, i) => { obj[col] = row[i]; })] *)
Fixpoint fillObject (cols : list string) (i : nat) (row : list value) (obj : object) : object :=
  match cols with
  | [] => obj
  | col :: rest => fillObject rest (S i) row (setProp obj col (nth i row VUndefined))
  end.

Definition rowObject (cols : list string) (row : list value) : object :=
  fillObject cols O row emptyObject.

(** *** The component's state and its surroundings *)

Record ChartData : Type := {
  cd_labels : list value;
  cd_series : string;
  cd_data : list value
}.

(** The variable parts of the two prompts. *)
Inductive request : Type :=
| SqlRequest (question : string)
| AnswerRequest (question : string) (queryResults : list object).

Record World : Type := {
  (* state written by the user interface *)
  apiKey : string;
  productAdSalesCsv : option string;
  productTotalSalesCsv : option string;
  productEligibilityCsv : option string;
  question : string;
  (* state written by the operations *)
  db : option Database;
  answer : string;
  isLoading : bool;
  dbStatus : string;
  error : string;
  isDatabaseReady : bool;
  chartData : option ChartData;
  chartType : option string;
  (* what the surroundings have seen *)
  console : list console_entry;
  requests : list request
}.

(** The state hooks' initial values, before [initSqlJs] has resolved. *)
Definition initialWorld : World :=
  {| apiKey := ""; productAdSalesCsv := None; productTotalSalesCsv := None;
     productEligibilityCsv := None; question := ""; db := None; answer := "";
     isLoading := false; dbStatus := "Initializing database..."; error := "";
     isDatabaseReady := false; chartData := None; chartType := None;
     console := []; requests := [] |}.

Definition setAnswer (x : string) (w : World) : World :=
  {| apiKey := apiKey w; productAdSalesCsv := productAdSalesCsv w;
     productTotalSalesCsv := productTotalSalesCsv w;
     productEligibilityCsv := productEligibilityCsv w; question := question w;
     db := db w; answer := x; isLoading := isLoading w; dbStatus := dbStatus w;
     error := error w; isDatabaseReady := isDatabaseReady w; chartData := chartData w;
     chartType := chartType w; console := console w; requests := requests w |}.

Definition setIsLoading (x : bool) (w : World) : World :=
  {| apiKey := apiKey w; productAdSalesCsv := productAdSalesCsv w;
     productTotalSalesCsv := productTotalSalesCsv w;
     productEligibilityCsv := productEligibilityCsv w; question := question w;
     db := db w; answer := answer w; isLoading := x; dbStatus := dbStatus w;
     error := error w; isDatabaseReady := isDatabaseReady w; chartData := chartData w;
     chartType := chartType w; console := console w; requests := requests w |}.

Definition setDbStatus (x : string) (w : World) : World :=
  {| apiKey := apiKey w; productAdSalesCsv := productAdSalesCsv w;
     productTotalSalesCsv := productTotalSalesCsv w;
     productEligibilityCsv := productEligibilityCsv w; question := question w;
     db := db w; answer := answer w; isLoading := isLoading w; dbStatus := x;
     error := error w; isDatabaseReady := isDatabaseReady w; chartData := chartData w;
     chartType := chartType w; console := console w; requests := requests w |}.

Definition setError (x : string) (w : World) : World :=
  {| apiKey := apiKey w; productAdSalesCsv := productAdSalesCsv w;
     productTotalSalesCsv := productTotalSalesCsv w;
     productEligibilityCsv := productEligibilityCsv w; question := question w;
     db := db w; answer := answer w; isLoading := isLoading w; dbStatus := dbStatus w;
     error := x; isDatabaseReady := isDatabaseReady w; chartData := chartData w;
     chartType := chartType w; console := console w; requests := requests w |}.

Definition setIsDatabaseReady (x : bool) (w : World) : World :=
  {| apiKey := apiKey w; productAdSalesCsv := productAdSalesCsv w;
     productTotalSalesCsv := productTotalSalesCsv w;
     productEligibilityCsv := productEligibilityCsv w; question := question w;
     db := db w; answer := answer w; isLoading := isLoading w; dbStatus := dbStatus w;
     error := error w; isDatabaseReady := x; chartData := chartData w;
     chartType := chartType w; console := console w; requests := requests w |}.

Definition setChartData (x : option ChartData) (w : World) : World :=
  {| apiKey := apiKey w; productAdSalesCsv := productAdSalesCsv w;
     productTotalSalesCsv := productTotalSalesCsv w;
     productEligibilityCsv := productEligibilityCsv w; question := question w;
     db := db w; answer := answer w; isLoading := isLoading w; dbStatus := dbStatus w;
     error := error w; isDatabaseReady := isDatabaseReady w; chartData := x;
     chartType := chartType w; console := console w; requests := requests w |}.

Definition setChartType (x : option string) (w : World) : World :=
  {| apiKey := apiKey w; productAdSalesCsv := productAdSalesCsv w;
     productTotalSalesCsv := productTotalSalesCsv w;
     productEligibilityCsv := productEligibilityCsv w; question := question w;
     db := db w; answer := answer w; isLoading := isLoading w; dbStatus := dbStatus w;
     error := error w; isDatabaseReady := isDatabaseReady w; chartData := chartData w;
     chartType := x; console := console w; requests := requests w |}.

(** The handle is one mutable object: what a call did to it is seen through
    the [db] state variable. *)
Definition putDb (d : Database) (w : World) : World :=
  {| apiKey := apiKey w; productAdSalesCsv := productAdSalesCsv w;
     productTotalSalesCsv := productTotalSalesCsv w;
     productEligibilityCsv := productEligibilityCsv w; question := question w;
     db := Some d; answer := answer w; isLoading := isLoading w; dbStatus := dbStatus w;
     error := error w; isDatabaseReady := isDatabaseReady w; chartData := chartData w;
     chartType := chartType w; console := console w; requests := requests w |}.

Definition toConsole (entries : list console_entry) (w : World) : World :=
  {| apiKey := apiKey w; productAdSalesCsv := productAdSalesCsv w;
     productTotalSalesCsv := productTotalSalesCsv w;
     productEligibilityCsv := productEligibilityCsv w; question := question w;
     db := db w; answer := answer w; isLoading := isLoading w; dbStatus := dbStatus w;
     error := error w; isDatabaseReady := isDatabaseReady w; chartData := chartData w;
     chartType := chartType w; console := console w ++ entries; requests := requests w |}.

Definition sent (r : request) (w : World) : World :=
  {| apiKey := apiKey w; productAdSalesCsv := productAdSalesCsv w;
     productTotalSalesCsv := productTotalSalesCsv w;
     productEligibilityCsv := productEligibilityCsv w; question := question w;
     db := db w; answer := answer w; isLoading := isLoading w; dbStatus := dbStatus w;
     error := error w; isDatabaseReady := isDatabaseReady w; chartData := chartData w;
     chartType := chartType w; console := console w; requests := requests w ++ [r] |}.

(** [text.charAt(i)] *)
Definition charAt (text : string) (i : nat) : string :=
  match String.get i text with
  | Some c => String c EmptyString
  | None => EmptyString
  end.

(** The timer of [typeText].  A tick with [i < text.length] queues the
    updater [prev => prev + text.charAt(i)] and then increments [i]; React
    runs the updater when it renders, after the increment, so the character
    appended is the one at the incremented index.  A tick with
    [i >= text.length] clears the interval.  [shown] is the answer on the
    page, [fuel] bounds the number of ticks. *)
Fixpoint ticks (text : string) (i fuel : nat) (shown : string) : string :=
  match fuel with
  | O => shown
  | S fuel' =>
      if Nat.ltb i (String.length text)
      then ticks text (S i) fuel' (shown +:+ charAt text (S i))
      else shown
  end.

(** What is on the page once the timer has stopped. *)
Definition reveal (text : string) : string :=
  ticks text O (S (String.length text)) EmptyString.

(** [typeText(text, setAnswer)]: [setter('')], then the timer.  The page is
    taken once the timer has stopped, with no other typing under way.  With
    an [undefined] text the first tick throws on [text.length] and nothing
    is ever appended. *)
Definition typeText (text : option string) (w : World) : World :=
  match text with
  | Some t => setAnswer (reveal t) w
  | None => setAnswer "" w
  end.

(** [!csv] is false for a non-empty text only. *)
Definition provided (csv : option string) : bool :=
  match csv with
  | Some s => truthyString s
  | None => false
  end.

Definition textOf (csv : option string) : string :=
  match csv with Some s => s | None => "" end.

Section Environment.

(** [Papa.parse(csvContent, {header: true, skipEmptyLines: true, ...})]. *)
Variable Papa_parse : string -> ParseResult.

Definition parseAndInsert (csvContent tableName : string) (db : Database)
  : outcome unit * Database * list console_entry :=
  complete (Papa_parse csvContent) tableName db.

(** [for (const tableName in TABLE_SCHEMAS) db.exec(TABLE_SCHEMAS[tableName])] *)
Fixpoint createTables (schemas : list (string * schema)) (db : Database)
  : outcome unit * Database :=
  match schemas with
  | [] => (Returned tt, db)
  | (name, s) :: rest =>
      match exec (CreateTableIfNotExists name s) db with
      | (Returned _, db1) => createTables rest db1
      | (Thrown m, db1) => (Thrown m, db1)
      end
  end.

(** The [try] block of [loadDataIntoDB] up to the last [await]. *)
Definition loadAll (csv1 csv2 csv3 : string) (db : Database)
  : outcome unit * Database * list console_entry :=
  match createTables TABLE_SCHEMAS db with
  | (Thrown m, d0) => (Thrown m, d0, [])
  | (Returned _, d0) =>
      match parseAndInsert csv1 "product_ad_sales_metrics" d0 with
      | (Thrown m, d1, c1) => (Thrown m, d1, c1)
      | (Returned _, d1, c1) =>
          match parseAndInsert csv2 "product_total_sales_metrics" d1 with
          | (Thrown m, d2, c2) => (Thrown m, d2, c1 ++ c2)
          | (Returned _, d2, c2) =>
              match parseAndInsert csv3 "product_eligibility" d2 with
              | (r, d3, c3) => (r, d3, c1 ++ c2 ++ c3)
              end
          end
      end
  end.

Definition loadDataIntoDB (w : World) : World :=
  match db w with
  | None => setError "Database not initialized." w
  | Some d =>
      if negb (provided (productAdSalesCsv w)) || negb (provided (productTotalSalesCsv w))
         || negb (provided (productEligibilityCsv w))
      then setError "Please upload all three CSV files." w
      else
        let w1 := setDbStatus "Loading data into database..."
                    (setError "" (setIsLoading true w)) in
        let '(r, d', out) :=
          loadAll (textOf (productAdSalesCsv w)) (textOf (productTotalSalesCsv w))
                  (textOf (productEligibilityCsv w)) d in
        let w2 := toConsole out (putDb d' w1) in
        let w3 :=
          match r with
          | Returned _ =>
              setDbStatus "All data loaded successfully!" (setIsDatabaseReady true w2)
          | Thrown m =>
              setDbStatus "Data loading failed." (setError ("Error loading data: " +:+ m) w2)
          end in
        setIsLoading false w3
  end.

(** *** Question answering *)

(** The first revision asks for JSON with a [sql_query] field; the second
    asks for a fenced block and extracts it with a regular expression. *)
Inductive revision : Type := Rev1 | Rev2.

(** What [await fetch(...)] followed by [await response.json()] gives: an
    exception, a body without a first text part, or that text. *)
Inductive envelope : Type :=
| FetchFailed (message : string)
| NoCandidates
| FirstPart (text : string).

(** The shapes the two response schemas declare; [None] is an absent or
    [null] field. *)
Record SqlJson : Type := { sql_query : option string }.

Record Visualization : Type := {
  chart_type : option string;
  labels : option string;
  values_column : option string
}.

Record FinalJson : Type := {
  parsed_answer : option string;
  visualization : option Visualization
}.

Variable fetch : request -> envelope.
(** [JSON.parse] followed by the field reads inside the same [try]. *)
Variable JSON_parse_sql : string -> outcome SqlJson.
Variable JSON_parse_final : string -> outcome FinalJson.
Variable eval : evaluator.

Definition newline : string := String (ascii_of_N 10) EmptyString.

(** Text after the first occurrence of [pat] in [s]. *)
Fixpoint afterFirst (pat s : string) : option string :=
  match stripPrefix pat s with
  | Some r => Some r
  | None =>
       match s with
       | EmptyString => None
       | String _ r => afterFirst pat r
       end
  end.

(** Text before the first occurrence of [pat] in [s]. *)
Fixpoint beforeFirst (pat s : string) : option string :=
  if startsWith pat s then Some EmptyString
  else match s with
       | EmptyString => None
       | String c r => option_map (String c) (beforeFirst pat r)
       end.

(** The capture group of [rawText.match(/```sql\n([\s\S]*?)\n```/)]. *)
Definition matchSqlBlock (rawText : string) : option string :=
  match afterFirst ("```sql" +:+ newline) rawText with
  | Some body => beforeFirst (newline +:+ "```") body
  | None => None
  end.

Inductive extraction : Type :=
| ExtractionError (shown : string)
| Extracted (sqlQuery : option string).

Definition extractSql (rev : revision) (text : string) : extraction :=
  match rev with
  | Rev1 =>
      match JSON_parse_sql text with
      | Returned parsedJson => Extracted (sql_query parsedJson)
      | Thrown m =>
          ExtractionError ("AI returned invalid JSON for SQL: " +:+ text +:+ ". Error: " +:+ m)
      end
  | Rev2 =>
      match matchSqlBlock text with
      | Some block =>
          if truthyString block then Extracted (Some (trim block))
          else ExtractionError ("AI did not return a valid SQL code block. Raw response: "
                                +:+ String.substring 0 200 text +:+ "...")
      | None =>
          ExtractionError ("AI did not return a valid SQL code block. Raw response: "
                           +:+ String.substring 0 200 text +:+ "...")
      end
  end.

(** The sentinel test on the extracted SQL. *)
Definition unanswerable (rev : revision) (sqlQuery : string) : bool :=
  match rev with
  | Rev1 => includes (toUpperCase sqlQuery) "N/A"
  | Rev2 => includes (toUpperCase sqlQuery) "-- N/A" || includes (toUpperCase sqlQuery) "N/A"
  end.

Definition cannotAnswer (rev : revision) : string :=
  match rev with
  | Rev1 => "I'm sorry, I cannot answer that question with the available data."
  | Rev2 => "I'm sorry, I cannot answer that question with the available data or derived metrics."
  end.

Definition noResults : string := "The query executed successfully but returned no results.".

Definition chartWarning : string :=
  "AI suggested a visualization, but the data columns for it were not found. Try a different question or examine your data.".

(** The outer [catch]. *)
Definition unexpected (rev : revision) (m : string) (w : World) : World :=
  match rev with
  | Rev1 => setError ("An unexpected error occurred: " +:+ m) w
  | Rev2 =>
      toConsole [ConsoleError m]
        (setError ("An unexpected error occurred during AI processing: " +:+ m) w)
  end.

Definition unreadable (rev : revision) (m : string) : string :=
  match rev with
  | Rev1 => "AI returned an unreadable response. Error: " +:+ m
  | Rev2 =>
      "AI returned an unreadable response. It might be generating too much text. Error: " +:+ m
  end.

Definition debugLog (rev : revision) (label : string) (w : World) : World :=
  match rev with
  | Rev1 => w
  | Rev2 => toConsole [ConsoleLog label] w
  end.

Definition chartNotRendered (rev : revision) : string :=
  match rev with
  | Rev1 =>
      "AI suggested visualization with invalid or missing columns after query. Chart not rendered."
  | Rev2 =>
      "LLM suggested visualization with invalid or missing columns after query. Chart not rendered."
  end.

(** A field that is present and truthy. *)
Definition present (field : option string) : bool :=
  match field with
  | Some s => truthyString s
  | None => false
  end.

(** [x !== undefined && x !== null] *)
Definition defined (v : value) : bool :=
  match v with
  | VUndefined | VNull => false
  | _ => true
  end.

(** The chart branch taken once the answer text has been handed over. *)
Definition suggestChart (rev : revision) (parsedFinal : FinalJson)
  (queryResults : list object) (w : World) : World :=
  match visualization parsedFinal with
  | Some v =>
      match chart_type v, labels v, values_column v with
      | Some kind, Some chartLabelsCol, Some chartValuesCol =>
          if truthyString kind && truthyString chartLabelsCol && truthyString chartValuesCol
          then
            let labels := map (fun row => getProp row chartLabelsCol) queryResults in
            let values := map (fun row => getProp row chartValuesCol) queryResults in
            if forallb defined labels && forallb defined values then
              setChartData
                (Some {| cd_labels := labels;
                         cd_series := chartValuesCol +:+ " by " +:+ chartLabelsCol;
                         cd_data := values |})
                (setChartType (Some kind) w)
            else
              setChartData None
                (setError chartWarning
                   (toConsole [ConsoleWarn (chartNotRendered rev)] w))
          else w
      | _, _, _ => w
      end
  | None => w
  end.

(** Step 3: the second round trip. *)
Definition answerStage (rev : revision) (queryResults : list object) (w : World) : World :=
  let req := AnswerRequest (question w) queryResults in
  let w1 := sent req w in
  match fetch req with
  | FetchFailed m => unexpected rev m w1
  | NoCandidates =>
      setError "Failed to get a response from AI. Please try again."
        (debugLog rev "LLM Final Response:" w1)
  | FirstPart jsonText =>
      let w2 := debugLog rev "LLM Final Response:" w1 in
      match JSON_parse_final jsonText with
      | Thrown m => setError (unreadable rev m) w2
      | Returned parsedFinal =>
          suggestChart rev parsedFinal queryResults
            (typeText (parsed_answer parsedFinal) w2)
      end
  end.

(** Step 2: run the SQL and build the row objects. *)
Definition executeStage (rev : revision) (sqlQuery : string) (d : Database) (w : World)
  : World :=
  match execQuery eval sqlQuery d with
  | (Thrown m, d') =>
      setIsLoading false
        (setError ("SQL execution error: " +:+ m +:+ ". Generated SQL: " +:+ sqlQuery)
           (putDb d' w))
  | (Returned [], d') => setIsLoading false (typeText (Some noResults) (putDb d' w))
  | (Returned (res0 :: _), d') =>
      let queryResults := map (rowObject (columns res0)) (SqlJs.values res0) in
      answerStage rev queryResults (putDb d' w)
  end.

(** The outer [try] block: the first round trip, the sentinel test, then
    steps 2 and 3. *)
Definition pipeline (rev : revision) (d : Database) (w : World) : World :=
  let req := SqlRequest (question w) in
  let w1 := sent req w in
  match fetch req with
  | FetchFailed m => unexpected rev m w1
  | NoCandidates =>
      setIsLoading false
        (setError "Failed to get SQL query from AI. Please try again."
           (debugLog rev "LLM SQL Raw Response:" w1))
  | FirstPart text =>
      let w2 := debugLog rev "LLM SQL Raw Response:" w1 in
      match extractSql rev text with
      | ExtractionError shown => setIsLoading false (setError shown w2)
      | Extracted None =>
          unexpected rev "Cannot read properties of undefined (reading 'toUpperCase')" w2
      | Extracted (Some sqlQuery) =>
          if unanswerable rev sqlQuery then
            setIsLoading false (typeText (Some (cannotAnswer rev)) w2)
          else executeStage rev sqlQuery d w2
      end
  end.

Definition askQuestion (rev : revision) (w : World) : World :=
  if negb (truthyString (apiKey w)) then setError "Please enter your Gemini API Key." w
  else
    match db w with
    | None => setError "Database not initialized." w
    | Some d =>
        if negb (isDatabaseReady w) then
          setError "Please load the datasets into the database first." w
        else if negb (truthyString (trim (question w))) then
          setError "Please enter a question." w
        else
          let w1 :=
            setChartType None
              (setChartData None (setError "" (setAnswer "" (setIsLoading true w)))) in
          setIsLoading false (pipeline rev d w1)
    end.

End Environment.

End App.

(** ** The rule of the specification, in its own words

    Coercion as the specification lists it: (1) for a column declared
    boolean, TRUE/FALSE in any letter case become 1/0; (2) else a string that
    is empty once trimmed becomes null; (3) else a string that reads as a
    finite number becomes that number; (4) else the text is kept. *)

Module Spec.
Import JS SqlJs.

Definition isBoolean (ty : decltype) : bool :=
  match ty with BOOLEAN => true | _ => false end.

Definition coerce (ty : decltype) (s : string) : value :=
  if isBoolean ty && String.eqb (toUpperCase s) "TRUE" then VNum one
  else if isBoolean ty && String.eqb (toUpperCase s) "FALSE" then VNum zero
  else if String.eqb (trim s) "" then VNull
  else match StringToNumber s with
       | Finite neg m e => VNum (Finite neg m e)
       | _ => VStr s
       end.

(** The values [parseAndInsert] binds for one record. *)
Definition boundValues (row : App.Row) : list value :=
  map App.coerceValue (App.Object_values row).

(** The rows an INSERT over the columns of [first] stores for [rows] in a
    table shaped like [t]. *)
Definition storedRows (t : table) (first : App.Row) (rows : list App.Row)
  : list (list sqlvalue) :=
  match resolveColumns (sch_columns (tbl_schema t)) (App.Object_keys first) with
  | inl targets =>
      map (fun row => storedRow (sch_columns (tbl_schema t)) targets (boundValues row))
          rows
  | inr _ => []
  end.

(** What a successful ingestion of [rows] adds to table [tbl] of [db]. *)
Definition committedRows (db : Database) (tbl : string) (rows : list App.Row)
  : list (list sqlvalue) :=
  match tables db !! tbl, rows with
  | Some t, first :: _ => storedRows t first rows
  | _, _ => []
  end.

(** How one call of the [complete] callback can end: the way the promise
    settles, the handle afterwards, and the console output. *)
Inductive Settled (results : App.ParseResult) (tbl : string) (db : Database)
  : outcome unit -> Database -> list App.console_entry -> Prop :=
| ParseFailed e es :
    App.errors results = e :: es ->
    Settled results tbl db
      (Thrown ("CSV parsing error for " +:+ tbl +:+ ": " +:+ App.message e)) db []
| NothingToLoad :
    App.errors results = [] -> App.data results = [] ->
    Settled results tbl db (Returned tt) db
      [App.ConsoleWarn ("No data found in " +:+ tbl +:+ " CSV.")]
| AlreadyInTransaction first rest saved :
    App.errors results = [] -> App.data results = first :: rest ->
    snapshot db = Some saved ->
    Settled results tbl db
      (Thrown "cannot start a transaction within a transaction")
      (log (CallExec BeginTransaction) db) []
| Committed first rest t db' :
    App.errors results = [] -> App.data results = first :: rest ->
    snapshot db = None ->
    tables db !! tbl = Some t ->
    length (storedRows t first (App.data results)) = length (App.data results) ->
    tables db' =
      <[tbl := {| tbl_schema := tbl_schema t;
                  tbl_rows := tbl_rows t ++ storedRows t first (App.data results) |}]>
        (tables db) ->
    snapshot db' = None ->
    journal db' =
      journal db
      ++ CallExec BeginTransaction
         :: CallPrepare tbl (App.Object_keys first) (length (App.Object_keys first))
         :: map (fun row => CallRun (boundValues row)) (App.data results)
      ++ [CallExec Commit; CallFree] ->
    Settled results tbl db (Returned tt) db' []
| RolledBack first rest detail db' attempted closing :
    App.errors results = [] -> App.data results = first :: rest ->
    snapshot db = None ->
    tables db' = tables db ->
    snapshot db' = None ->
    journal db' =
      journal db
      ++ CallExec BeginTransaction
         :: CallPrepare tbl (App.Object_keys first) (length (App.Object_keys first))
         :: map (fun row => CallRun (boundValues row)) attempted
      ++ CallExec Rollback :: closing ->
    closing = [] \/ closing = [CallFree] ->
    Settled results tbl db
      (Thrown ("Error inserting data into " +:+ tbl +:+ ": " +:+ detail)) db' [].

(** The calls one dataset adds to the journal: none, or one transaction,
    opened by BEGIN and closed by COMMIT or ROLLBACK, around the INSERT into
    that dataset's table. *)
Definition txnSegment (tbl : string) (seg : list call) : Prop :=
  seg = []
  \/ exists cols n runs closing,
       seg = CallExec BeginTransaction :: CallPrepare tbl cols n
             :: map CallRun runs ++ closing
       /\ (closing = [CallExec Commit; CallFree]
           \/ closing = [CallExec Rollback; CallFree]
           \/ closing = [CallExec Rollback]).

(** The three files are there and the [try] block of one pass of
    [loadDataIntoDB] ran to its end. *)
Definition passSucceeded (Papa_parse : string -> App.ParseResult) (w : App.World) : Prop :=
  exists d d' out,
    App.db w = Some d
    /\ App.provided (App.productAdSalesCsv w) = true
    /\ App.provided (App.productTotalSalesCsv w) = true
    /\ App.provided (App.productEligibilityCsv w) = true
    /\ App.loadAll Papa_parse (App.textOf (App.productAdSalesCsv w))
         (App.textOf (App.productTotalSalesCsv w))
         (App.textOf (App.productEligibilityCsv w)) d
       = (Returned tt, d', out).

(** The guards of [askQuestion] let the question through. *)
Definition askable (w : App.World) (d : Database) : Prop :=
  truthyString (App.apiKey w) = true
  /\ App.db w = Some d
  /\ App.isDatabaseReady w = true
  /\ truthyString (trim (App.question w)) = true.

(** The chart the reply proposes: kind, label column and value column, when
    all three are present and non-empty. *)
Definition suggestion (parsedFinal : App.FinalJson) : option (string * string * string) :=
  match App.visualization parsedFinal with
  | Some v =>
      match App.chart_type v, App.labels v, App.values_column v with
      | Some kind, Some l, Some c =>
          if truthyString kind && truthyString l && truthyString c
          then Some (kind, l, c) else None
      | _, _, _ => None
      end
  | None => None
  end.

(** Every row object has a value that is neither [undefined] nor [null]
    under both names. *)
Definition plottable (l c : string) (queryResults : list App.object) : bool :=
  forallb App.defined (map (fun row => App.getProp row l) queryResults)
  && forallb App.defined (map (fun row => App.getProp row c) queryResults).

(** What the second revision writes to the console on the way to the
    answer; the first revision writes nothing. *)
Definition debugLines (rev : App.revision) : list App.console_entry :=
  match rev with
  | App.Rev1 => []
  | App.Rev2 =>
      [App.ConsoleLog "LLM SQL Raw Response:"; App.ConsoleLog "LLM Final Response:"]
  end.

Definition inheritedName (k : string) : bool :=
  existsb (String.eqb k) App.Object_prototype_names.

(** The user types a key or a question, or a file finishes loading: the five
    input fields take new values. *)
Definition userInput (key : string) (csv1 csv2 csv3 : option string) (q : string)
  (w : App.World) : App.World :=
  {| App.apiKey := key; App.productAdSalesCsv := csv1; App.productTotalSalesCsv := csv2;
     App.productEligibilityCsv := csv3; App.question := q;
     App.db := App.db w; App.answer := App.answer w; App.isLoading := App.isLoading w;
     App.dbStatus := App.dbStatus w; App.error := App.error w;
     App.isDatabaseReady := App.isDatabaseReady w; App.chartData := App.chartData w;
     App.chartType := App.chartType w; App.console := App.console w;
     App.requests := App.requests w |}.

(** The page once [initSqlJs] has resolved. *)
Definition mounted : App.World :=
  App.setDbStatus "Database initialized. Please upload CSV files."
    (App.putDb newDatabase App.initialWorld).

(** The pages a session can reach.  It starts on the first render, with
    no handle; [initSqlJs] resolves or fails once, while the status line
    still reads its first text; the user types and uploads files (a file
    that has been read clears the error line, one that cannot be read sets
    it); the data is loaded and questions are asked, with any parser, model
    and engine behind them.  Each operation is taken whole: the pages are
    those on which no load and no question is under way. *)
Inductive Reachable : App.World -> Prop :=
| ReachInitial : Reachable App.initialWorld
| ReachMounted : Reachable mounted
| ReachInit w :
    Reachable w -> App.dbStatus w = "Initializing database..." ->
    Reachable (App.setDbStatus "Database initialized. Please upload CSV files."
                 (App.putDb newDatabase w))
| ReachInitFailed w m :
    Reachable w -> App.dbStatus w = "Initializing database..." ->
    Reachable (App.setDbStatus "Database initialization failed."
                 (App.setError ("Failed to initialize database: " +:+ m) w))
| ReachFileRead w : Reachable w -> Reachable (App.setError "" w)
| ReachFileFailed w : Reachable w -> Reachable (App.setError "Failed to read file." w)
| ReachInput w key csv1 csv2 csv3 q :
    Reachable w -> Reachable (userInput key csv1 csv2 csv3 q w)
| ReachLoad w Papa_parse :
    Reachable w -> Reachable (App.loadDataIntoDB Papa_parse w)
| ReachAsk w fetch JSON_parse_sql JSON_parse_final eval rev :
    Reachable w ->
    Reachable (App.askQuestion fetch JSON_parse_sql JSON_parse_final eval rev w).

End Spec.

(** ** A reference reading of plain CSV text

    Unquoted, comma-separated, LF-terminated text read the way
    [Papa.parse] reads it with [header: true] and [skipEmptyLines: true].
    It stands in for the library when the operations are run on concrete
    text. *)

Module Reference.
Import JS SqlJs App.

Fixpoint splitOn (sep : ascii) (s : string) : list string :=
  match s with
  | EmptyString => [EmptyString]
  | String c r =>
      if Ascii.eqb c sep then EmptyString :: splitOn sep r
      else match splitOn sep r with
           | x :: xs => String c x :: xs
           | [] => [String c EmptyString]
           end
  end.

Definition comma : ascii := ascii_of_N 44.
Definition lf : ascii := ascii_of_N 10.

Definition fieldCountError (expected : nat) (line : string) : list ParseError :=
  let n := length (splitOn comma line) in
  if Nat.ltb n expected then [{| message := "Too few fields" |}]
  else if Nat.ltb expected n then [{| message := "Too many fields" |}]
  else [].

Definition readCsv (text : string) : ParseResult :=
  match List.filter (fun l => truthyString l) (splitOn lf text) with
  | [] => {| fields := []; errors := []; data := [] |}
  | header :: records =>
      let names := splitOn comma header in
      {| fields := names;
         errors := flat_map (fieldCountError (length names)) records;
         data := map (fun l => combine names (splitOn comma l)) records |}
  end.

Definition lines (ls : list string) : string :=
  String.concat (String lf EmptyString) ls.

End Reference.

(** ** Concrete data for running the operations *)

Module Examples.
Import JS SqlJs App Reference.

(** A fresh handle on which the three tables have been created. *)
Definition emptyTables : Database := snd (createTables TABLE_SCHEMAS newDatabase).

Definition adSalesCsv : string :=
  lines ["date,item_id,ad_sales,impressions,ad_spend,clicks,units_sold";
         "2024-01-01,A1,10.5,100,2.5,7,1";
         "2024-01-02,A1,0,80,1.25,3,0"].

Definition totalSalesCsv : string :=
  lines ["date,item_id,total_sales,total_units_ordered";
         "2024-01-01,A1,30.75,3";
         "2024-01-02,A1,12,1"].

Definition eligibilityCsv : string :=
  lines ["eligibility_datetime_utc,item_id,eligibility,message";
         "2024-01-01 00:00:00,A1,TRUE,";
         "2024-01-02 00:00:00,A1,false,TRUE"].

(** The second record repeats the key of the first. *)
Definition duplicateKeyCsv : string :=
  lines ["date,item_id,total_sales,total_units_ordered";
         "2024-01-01,A1,30.75,3";
         "2024-01-01,A1,99,9"].

Definition headerOnlyCsv : string :=
  lines ["date,item_id,total_sales,total_units_ordered"; ""].



(** The page once the database is up and the three files have been read. *)
Definition uploaded (csv1 csv2 csv3 : string) : World :=
  {| apiKey := "key"; productAdSalesCsv := Some csv1; productTotalSalesCsv := Some csv2;
     productEligibilityCsv := Some csv3; question := "What is my total ad spend?";
     db := Some newDatabase; answer := "";
     isLoading := false; dbStatus := "Database initialized. Please upload CSV files.";
     error := ""; isDatabaseReady := false; chartData := None; chartType := None;
     console := []; requests := [] |}.

(** The page after a successful load, with a question typed in. *)
Definition ready : World :=
  {| apiKey := "key"; productAdSalesCsv := Some adSalesCsv;
     productTotalSalesCsv := Some totalSalesCsv;
     productEligibilityCsv := Some eligibilityCsv;
     question := "Which item sold most?";
     db := Some emptyTables; answer := "";
     isLoading := false; dbStatus := "All data loaded successfully!";
     error := ""; isDatabaseReady := true; chartData := None; chartType := None;
     console := []; requests := [] |}.

(** A model that answers the first request with [sqlText] and the second
    with [answerText]. *)
Definition replying (sqlText answerText : string) (r : request) : envelope :=
  match r with
  | SqlRequest _ => FirstPart sqlText
  | AnswerRequest _ _ => FirstPart answerText
  end.

Definition decodesTo {A : Type} (a : A) (text : string) : outcome A := Returned a.

(** An engine that gives the same answer to every statement. *)
Definition answering (res : outcome (list QueryExecResult)) : evaluator :=
  fun t s _ => (res, (t, s)).

Definition salesResult : QueryExecResult :=
  {| columns := ["item_id"; "total"];
     first_row := [VStr "A1"; VNum (Finite false 4275 (-2))];
     more_rows := [[VStr "B2"; VNum (Finite false 7 0)]] |}.

Definition fencedSql (sql : string) : string :=
  lines ["Here is the query:"; "```sql"; sql; "```"].

End Examples.

(** ** What the page shows: the chart effect and the JSX conditions *)

Module Rendering.
Import JS SqlJs App.

(** A [Chart] instance as the effect uses it: constructed with a type, the
    data and a title, and destroyed at most by [destroy()]. *)
Record Chart : Type := {
  ch_type : string;
  ch_data : ChartData;
  ch_title : string;
  ch_destroyed : bool
}.

(** The instances constructed so far, oldest first, and [chartRef.current]
    as the position of the instance it points to. *)
Record View : Type := {
  charts : list Chart;
  chartRef : option nat
}.

Definition noCharts : View := {| charts := []; chartRef := None |}.

(** [chart.destroy()] *)
Definition destroy (c : Chart) : Chart :=
  {| ch_type := ch_type c; ch_data := ch_data c; ch_title := ch_title c;
     ch_destroyed := true |}.

(** [chartData.datasets[0].label || 'Visualization'] *)
Definition titleOf (cd : ChartData) : string :=
  if truthyString (cd_series cd) then cd_series cd else "Visualization".

(** The effect that runs when [chartData] or [chartType] change.  [canvas]
    says whether [chartCanvasRef.current] is set.  The reference is not
    cleared after [destroy()]. *)
Definition renderChart (canvas : bool) (w : World) (v : View) : View :=
  let destroyed :=
    match chartRef v with
    | Some i => alter destroy i (charts v)
    | None => charts v
    end in
  match chartData w, chartType w with
  | Some cd, Some ty =>
      if truthyString ty && canvas then
        {| charts := destroyed ++ [{| ch_type := ty; ch_data := cd; ch_title := titleOf cd;
                                      ch_destroyed := false |}];
           chartRef := Some (length destroyed) |}
      else {| charts := destroyed; chartRef := chartRef v |}
  | _, _ => {| charts := destroyed; chartRef := chartRef v |}
  end.

(** [{chartData && chartType && (<canvas ref={chartCanvasRef}>...)}] *)
Definition chartShown (w : World) : bool :=
  match chartData w, chartType w with
  | Some _, Some ty => truthyString ty
  | _, _ => false
  end.

(** [disabled] of the load button *)
Definition loadDisabled (w : World) : bool :=
  isLoading w
  || match db w with Some _ => false | None => true end
  || negb (provided (productAdSalesCsv w))
  || negb (provided (productTotalSalesCsv w))
  || negb (provided (productEligibilityCsv w)).

(** [disabled] of the question box *)
Definition questionDisabled (w : World) : bool :=
  isLoading w || negb (isDatabaseReady w).

(** [disabled] of the ask button *)
Definition askDisabled (w : World) : bool :=
  isLoading w || negb (isDatabaseReady w) || negb (truthyString (apiKey w))
  || negb (truthyString (trim (question w))).

(** [{answer || (isLoading ? "..." : "Your answer will appear here.")}] *)
Definition responseBox (w : World) : string :=
  if truthyString (answer w) then answer w
  else if isLoading w then "..." else "Your answer will appear here.".

(** [{error && (<div className="error-alert">...)}] *)
Definition errorShown (w : World) : bool := truthyString (error w).

End Rendering.

(** ** Further vocabulary *)

Module Terms.
Import JS SqlJs App Spec.


(** The rows can be inserted one after the other into a table that holds
    [existing]: none collides on the primary key with a row before it. *)
Fixpoint admits (s : schema) (existing new : list (list sqlvalue)) : bool :=
  match new with
  | [] => true
  | r :: rest => negb (existsb (keyConflict s r) existing) && admits s (existing ++ [r]) rest
  end.

(** Every record's values can be bound to the statement's placeholders. *)
Definition bindsFit (stmt : Statement) (rows : list App.Row) : Prop :=
  Forall (fun row => bindFromArray (st_nparams stmt) O (boundValues row) = None) rows.

Definition backtick : ascii := ascii_of_N 96.

(** No grave accent in the text. *)
Definition backtickFree (s : string) : bool :=
  allChars (fun c => negb (Ascii.eqb c backtick)) s.

Definition fenceOpen : string := "```sql" +:+ App.newline.
Definition fenceClose : string := App.newline +:+ "```".



(** The three table names, in loading order. *)
Definition tableNames : list string := map fst App.TABLE_SCHEMAS.

(** The message of a dataset that failed names its table. *)
Definition namesTable (tbl m : string) : Prop :=
  exists detail,
    m = "CSV parsing error for " +:+ tbl +:+ ": " +:+ detail
    \/ m = "Error inserting data into " +:+ tbl +:+ ": " +:+ detail.

(** A chart on the page is complete: a kind, as many values as labels, at
    least one, none of them [undefined] or [null], and a series label made
    of the two column names. *)
Definition chartInvariant (w : World) : Prop :=
  match chartData w, chartType w with
  | None, None => True
  | Some cd, Some ty =>
      truthyString ty = true
      /\ length (cd_labels cd) = length (cd_data cd)
      /\ cd_labels cd <> []
      /\ forallb App.defined (cd_labels cd) = true
      /\ forallb App.defined (cd_data cd) = true
      /\ exists c l,
           truthyString c = true /\ truthyString l = true
           /\ cd_series cd = c +:+ " by " +:+ l
  | _, _ => False
  end.

(** The chart effect run once per step, each step with the page of the
    moment and whether the canvas is mounted. *)
Definition effectRuns (steps : list (bool * World)) (v : Rendering.View) : Rendering.View :=
  fold_left (fun v s => Rendering.renderChart (fst s) (snd s) v) steps v.

(** Every code unit of the text is below 128.  On such text
    [toUpperCase] maps letter by letter, as the model has it; beyond, the
    language applies the special casing of Unicode, which the model does not
    follow. *)
Definition isAscii (s : string) : bool := allChars (fun c => (code c <? 128)%N) s.

Definition doubleQuote : ascii := ascii_of_N 34.

(** The names the engine gives the implicit row identifier of a table. *)
Definition isRowidAlias (name : string) : bool :=
  let u := toUpperCase name in
  String.eqb u "ROWID" || String.eqb u "OID" || String.eqb u "_ROWID_".

(** A header name the model of the engine covers.  The component puts each
    name between double quotes without escaping it, and the engine resolves
    a quoted name against the declared columns and the row identifier: a
    name that holds a double quote (or a NUL, which ends the statement text)
    makes a different statement, and an alias of the row identifier is a
    column the schema does not show. *)
Definition plainName (name : string) : bool :=
  allChars (fun c => negb (Ascii.eqb c doubleQuote) && negb (Ascii.eqb c (ascii_of_N 0))) name
  && negb (isRowidAlias name).

(** The INSERT built for this file, if one is built, has plain names only. *)
Definition plainHeader (results : App.ParseResult) : Prop :=
  match App.data results with
  | [] => True
  | first :: _ => forallb plainName (App.Object_keys first) = true
  end.

(** The key cells of the row are cells the engine compares the way the
    model does. *)
Definition exactKey (s : schema) (row : list sqlvalue) : bool :=
  forallb exactCell (keyOf s row).

(** No text of the language model has run on the handle: only the
    component's own statements have, so the handle holds the tables and no
    trigger, view or index. *)
Definition ownCallsOnly (d : Database) : Prop :=
  Forall (fun c => match c with CallQuery _ => False | _ => True end) (journal d).

(** At most one chart instance is alive, and it is the one the reference
    points to; the reference points to an instance that was constructed. *)
Definition oneAlive (v : Rendering.View) : Prop :=
  (forall i c,
     Rendering.charts v !! i = Some c -> Rendering.ch_destroyed c = false ->
     Rendering.chartRef v = Some i)
  /\ (forall i, Rendering.chartRef v = Some i -> (i < length (Rendering.charts v))%nat).

End Terms.

(** ** The replacer callbacks of [patch-webpack.js]

    The script rewrites the text of [webpack.config.js].  Where the
    [fallback] object or the [ProvidePlugin] call is already there, the
    matched text is handed to a callback that completes it; the callbacks
    are plain string functions of the first capture group. *)

Module PatchWebpack.
Import JS.

Definition quote : string := String (ascii_of_N 34) EmptyString.
Definition lf : string := String (ascii_of_N 10) EmptyString.

Definition quoted (name : string) : string := quote +:+ name +:+ quote.

Definition resolve (package : string) : string :=
  "require.resolve(" +:+ quoted package +:+ ")".

(** [modulesToAdd], in the order [for ... in] enumerates it. *)
Definition modulesToAdd : list (string * string) :=
  [("crypto", resolve "crypto-browserify");
   ("stream", resolve "stream-browserify");
   ("assert", resolve "assert");
   ("http", resolve "stream-http");
   ("https", resolve "https-browserify");
   ("os", resolve "os-browserify");
   ("url", resolve "url");
   ("path", resolve "path-browserify");
   ("zlib", resolve "browserify-zlib")].

Definition modulesToFalse : list string := ["fs"; "net"; "tls"].

Definition indent : string := "," +:+ lf +:+ "        ".

(** The body of the first loop. *)
Definition addModule (newFallbackContent : string) (entry : string * string) : string :=
  if negb (includes newFallbackContent (quoted (fst entry)))
  then newFallbackContent +:+ indent +:+ quoted (fst entry) +:+ ": " +:+ snd entry
  else newFallbackContent.

(** The body of the second loop. *)
Definition addFalse (newFallbackContent : string) (name : string) : string :=
  if negb (includes newFallbackContent (quoted name +:+ ": false"))
  then newFallbackContent +:+ indent +:+ quoted name +:+ ": false"
  else newFallbackContent.

(** [newFallbackContent] after the two loops. *)
Definition fallbackContent (p1 : string) : string :=
  fold_left addFalse modulesToFalse (fold_left addModule modulesToAdd p1).

(** The callback given to [replace(fallbackRegex, ...)]. *)
Definition fallbackReplacer (p1 : string) : string :=
  "fallback: {" +:+ fallbackContent p1 +:+ "}".

(** The text of one entry as the loops write it, and the entries the two
    loops can write: a module of [modulesToAdd] with its replacement, or a
    module of [modulesToFalse] with [false]. *)
Definition entryOf (name rhs : string) : string :=
  indent +:+ quoted name +:+ ": " +:+ rhs.

Definition isEntry (e : string) : Prop :=
  exists name rhs,
    e = entryOf name rhs
    /\ (In (name, rhs) modulesToAdd \/ (In name modulesToFalse /\ rhs = "false")).

Definition joinAll (entries : list string) : string :=
  fold_right String.append "" entries.

(** [s.replace(pat, rep)] for a string pattern and a replacement text with
    no [$] in it: the first occurrence is replaced. *)
Fixpoint replaceFirst (pat rep s : string) : string :=
  match stripPrefix pat s with
  | Some r => rep +:+ r
  | None =>
      match s with
      | EmptyString => EmptyString
      | String c r => String c (replaceFirst pat rep r)
      end
  end.

Definition processEntry : string := "process: 'process/browser'".
Definition bufferEntry : string := "Buffer: ['buffer', 'Buffer']".

(** The callback given to [replace(pluginsRegex, ...)]. *)
Definition provideReplacer (p1 : string) : string :=
  let newProvideContent := p1 in
  let newProvideContent :=
    if negb (includes newProvideContent processEntry)
    then replaceFirst "}" (", " +:+ processEntry +:+ "}") newProvideContent
    else newProvideContent in
  if negb (includes newProvideContent bufferEntry)
  then replaceFirst "}" (", " +:+ bufferEntry +:+ "}") newProvideContent
  else newProvideContent.

End PatchWebpack.

(** * Properties *)

(** ** Facts about the built-ins *)

Module JSFacts.
Import JS.

#[local] Arguments String.append : simpl nomatch.

Lemma whitespace_is_no_literal_char c :
  isWhiteSpace c = true ->
  isDigit c = false /\ (code c =? 46)%N = false /\ (code c =? 101)%N = false
  /\ (code c =? 69)%N = false /\ (code c =? 45)%N = false /\ (code c =? 43)%N = false
  /\ Ascii.eqb "I" c = false.
Proof.
  destruct c as [[] [] [] [] [] [] [] []]; vm_compute; intros H;
    try discriminate H; repeat split.
Qed.

Lemma allChars_inert w : allChars isWhiteSpace w = true -> inert w.
Proof.
  destruct w as [|c r]; simpl; [trivial|].
  intros H. apply andb_true_iff in H. tauto.
Qed.

Lemma append_empty_r (s : string) : s +:+ "" = s.
Proof. induction s as [|c r IH]; simpl; [reflexivity | now rewrite IH]. Qed.

Lemma append_assoc (a b c : string) : (a +:+ b) +:+ c = a +:+ (b +:+ c).
Proof. induction a as [|x a IH]; simpl; [reflexivity | now rewrite IH]. Qed.

(** Every string is its [trimEnd] followed by white space only. *)
Lemma trimEnd_decompose u :
  exists w, u = trimEnd u +:+ w /\ allChars isWhiteSpace w = true.
Proof.
  induction u as [|c r [w [Hr Hw]]]; simpl.
  - exists ""; split; reflexivity.
  - destruct (trimEnd r) as [|c' r'] eqn:E.
    + simpl in Hr. destruct (isWhiteSpace c) eqn:Hc.
      * exists (String c w). split; [now rewrite Hr at 1 | simpl; now rewrite Hc].
      * exists w. split; [simpl; now rewrite Hr at 1 | exact Hw].
    + exists w. split; [simpl; now rewrite Hr at 1 | exact Hw].
Qed.

Lemma scanDigits_app s w :
  inert w ->
  forall acc len,
    scanDigits (s +:+ w) acc len =
    let '(v, l, r) := scanDigits s acc len in (v, l, r +:+ w).
Proof.
  intros Hw. induction s as [|c r IH]; intros acc len; simpl.
  - destruct w as [|c r]; simpl; [reflexivity|].
    simpl in Hw. apply whitespace_is_no_literal_char in Hw as [-> _]. reflexivity.
  - destruct (isDigit c); [apply IH | reflexivity].
Qed.

Lemma scanExponent_app s w :
  inert w ->
  scanExponent (s +:+ w) = let '(ex, r) := scanExponent s in (ex, r +:+ w).
Proof.
  intros Hw. destruct s as [|c r]; simpl.
  - destruct w as [|c r]; simpl; [reflexivity|].
    simpl in Hw. apply whitespace_is_no_literal_char in Hw as (_ & _ & -> & -> & _).
    reflexivity.
  - destruct ((code c =? 101)%N || (code c =? 69)%N); [|reflexivity].
    destruct r as [|sg r']; simpl.
    + destruct w as [|c' r'']; simpl; [reflexivity|].
      simpl in Hw.
      apply whitespace_is_no_literal_char in Hw as (Hd & _ & _ & _ & -> & -> & _).
      simpl. rewrite Hd. reflexivity.
    + destruct (code sg =? 45)%N.
      * rewrite (scanDigits_app r' w Hw). destruct (scanDigits r' 0%N O) as [[v l] r2].
        destruct l; reflexivity.
      * destruct (code sg =? 43)%N.
        -- rewrite (scanDigits_app r' w Hw). destruct (scanDigits r' 0%N O) as [[v l] r2].
           destruct l; reflexivity.
        -- change (String sg (r' +:+ w)) with (String sg r' +:+ w).
           rewrite (scanDigits_app (String sg r') w Hw).
           destruct (scanDigits (String sg r') 0%N O) as [[v l] r2].
           destruct l; reflexivity.
Qed.

Lemma stripPrefix_app p s w :
  inert w -> allChars (fun c => negb (isWhiteSpace c)) p = true ->
  stripPrefix p (s +:+ w) = option_map (fun r => r +:+ w) (stripPrefix p s).
Proof.
  intros Hw. revert s. induction p as [|a p IH]; intros s Hp; simpl; [reflexivity|].
  simpl in Hp. apply andb_true_iff in Hp as [Ha Hp].
  destruct s as [|b s]; simpl.
  - destruct w as [|c r]; [reflexivity|]. simpl in Hw.
    destruct (Ascii.eqb a c) eqn:E; [|reflexivity].
    apply Ascii.eqb_eq in E. subst c. rewrite Hw in Ha. discriminate.
  - destruct (Ascii.eqb a b); [now apply IH | reflexivity].
Qed.

Lemma scanUnsigned_app neg s w :
  inert w ->
  scanUnsigned neg (s +:+ w) =
  option_map (fun nr => (fst nr, snd nr +:+ w)) (scanUnsigned neg s).
Proof.
  intros Hw. unfold scanUnsigned.
  rewrite (stripPrefix_app "Infinity" s w Hw eq_refl).
  destruct (stripPrefix "Infinity" s); [reflexivity|]. simpl.
  rewrite (scanDigits_app s w Hw).
  destruct (scanDigits s 0%N O) as [[ip ilen] r1].
  assert (Hfrac :
    match r1 +:+ w with
    | String c r => if (code c =? 46)%N then scanDigits r ip O else (ip, O, r1 +:+ w)
    | EmptyString => (ip, O, r1 +:+ w)
    end =
    let '(m, flen, r2) :=
      match r1 with
      | String c r => if (code c =? 46)%N then scanDigits r ip O else (ip, O, r1)
      | EmptyString => (ip, O, r1)
      end in (m, flen, r2 +:+ w)).
  { destruct r1 as [|c r]; simpl.
    - destruct w as [|c r]; [reflexivity|]. simpl in Hw.
      apply whitespace_is_no_literal_char in Hw as (_ & -> & _). reflexivity.
    - destruct (code c =? 46)%N; [|reflexivity].
      rewrite (scanDigits_app r w Hw). reflexivity. }
  rewrite Hfrac.
  destruct (match r1 with
            | String c r => if (code c =? 46)%N then scanDigits r ip O else (ip, O, r1)
            | EmptyString => (ip, O, r1)
            end) as [[m flen] r2].
  rewrite (scanExponent_app r2 w Hw).
  destruct (scanExponent r2) as [ex r3].
  destruct ilen, flen; reflexivity.
Qed.

(** White space after a text does not change the literal read at its
    front. *)
Lemma scanDecimal_app s w :
  inert w ->
  scanDecimal (s +:+ w) =
  option_map (fun nr => (fst nr, snd nr +:+ w)) (scanDecimal s).
Proof.
  intros Hw. destruct s as [|c r].
  - simpl. destruct w as [|c r]; [reflexivity|].
    pose proof Hw as Hw'. simpl in Hw'.
    apply whitespace_is_no_literal_char in Hw' as (Hd & Hdot & _ & _ & Hm & Hp & HI).
    unfold scanDecimal. rewrite Hm, Hp. unfold scanUnsigned.
    change (stripPrefix "Infinity" (String c r))
      with (if Ascii.eqb "I" c then stripPrefix "nfinity" r else None).
    rewrite HI. simpl. rewrite Hd, Hdot. reflexivity.
  - change (String c r +:+ w) with (String c (r +:+ w)). unfold scanDecimal.
    destruct (code c =? 45)%N; [apply scanUnsigned_app, Hw|].
    destruct (code c =? 43)%N; [apply scanUnsigned_app, Hw|].
    change (String c (r +:+ w)) with (String c r +:+ w).
    apply scanUnsigned_app, Hw.
Qed.

(** When the whole trimmed text is a decimal literal, [parseFloat] reads the
    same number. *)
Lemma parseFloat_reads_whole_literal s n :
  scanDecimal (trim s) = Some (n, EmptyString) -> parseFloatString s = n.
Proof.
  intros H. unfold parseFloatString, trim in *.
  destruct (trimEnd_decompose (trimStart s)) as [w [Hs Hw]].
  rewrite Hs, (scanDecimal_app _ w (allChars_inert w Hw)), H. reflexivity.
Qed.

Lemma toUpperChar_idempotent c : toUpperChar (toUpperChar c) = toUpperChar c.
Proof. destruct c as [[] [] [] [] [] [] [] []]; reflexivity. Qed.

Lemma startsWith_upper p s :
  startsWith p s = true -> startsWith (toUpperCase p) (toUpperCase s) = true.
Proof.
  revert s. induction p as [|a p IH]; intros [|b s]; simpl; try easy.
  intros H. apply andb_true_iff in H as [Hab Hps].
  apply Ascii.eqb_eq in Hab. subst b. rewrite Ascii.eqb_refl. simpl. now apply IH.
Qed.

(** Containment survives upper-casing both sides. *)
Lemma includes_upper s p :
  includes s p = true -> includes (toUpperCase s) (toUpperCase p) = true.
Proof.
  induction s as [|c r IH]; simpl; intros H.
  - apply orb_true_iff in H as [H|H]; [|discriminate].
    apply startsWith_upper in H. simpl in H. now rewrite H.
  - apply orb_true_iff in H as [H|H].
    + apply startsWith_upper in H. simpl in H. now rewrite H.
    + rewrite (IH H). apply orb_true_r.
Qed.

End JSFacts.

(** ** Facts about the database handle *)

Module EngineFacts.
Import JS SqlJs App Spec.

Lemma exec_begin_closed db :
  snapshot db = None ->
  exec BeginTransaction db =
  (Returned tt,
   {| tables := tables db; snapshot := Some (tables db);
      journal := journal db ++ [CallExec BeginTransaction] |}).
Proof. intros H. unfold exec, log. simpl. rewrite H. reflexivity. Qed.

Lemma exec_begin_open db saved :
  snapshot db = Some saved ->
  exec BeginTransaction db =
  (Thrown "cannot start a transaction within a transaction", log (CallExec BeginTransaction) db).
Proof. intros H. unfold exec, log. simpl. rewrite H. reflexivity. Qed.

Lemma exec_commit_open db saved :
  snapshot db = Some saved ->
  exec Commit db =
  (Returned tt,
   {| tables := tables db; snapshot := None; journal := journal db ++ [CallExec Commit] |}).
Proof. intros H. unfold exec, log. simpl. rewrite H. reflexivity. Qed.

Lemma exec_rollback_open db saved :
  snapshot db = Some saved ->
  exec Rollback db =
  (Returned tt,
   {| tables := saved; snapshot := None; journal := journal db ++ [CallExec Rollback] |}).
Proof. intros H. unfold exec, log. simpl. rewrite H. reflexivity. Qed.

(** A failing [prepare] or [run] changes only the journal. *)
Lemma prepare_effect tbl cols n db :
  let '(_, db') := prepare tbl cols n db in
  tables db' = tables db /\ snapshot db' = snapshot db
  /\ journal db' = journal db ++ [CallPrepare tbl cols n].
Proof.
  unfold prepare, log. simpl.
  destruct (tables db !! tbl) as [t|]; [|easy].
  destruct cols as [|c cols]; [easy|].
  destruct (resolveColumns _ _); [|easy].
  destruct (Nat.eqb _ _); easy.
Qed.

Lemma prepare_returns tbl cols n db stmt db' :
  prepare tbl cols n db = (Returned stmt, db') ->
  exists t targets,
    tables db !! tbl = Some t
    /\ resolveColumns (sch_columns (tbl_schema t)) cols = inl targets
    /\ stmt = {| st_table := tbl; st_targets := targets; st_nparams := n |}.
Proof.
  unfold prepare, log. simpl.
  destruct (tables db !! tbl) as [t|]; [|discriminate].
  destruct cols as [|c cols]; [discriminate|].
  destruct (resolveColumns _ _) as [targets|bad] eqn:E; [|discriminate].
  destruct (Nat.eqb _ _); [|discriminate].
  intros H. injection H as <- _. eauto.
Qed.


Lemma run_effect stmt vals db :
  let '(r, db') := run stmt vals db in
  snapshot db' = snapshot db
  /\ journal db' = journal db ++ [CallRun vals]
  /\ match r with
     | Returned _ =>
         exists t,
           tables db !! st_table stmt = Some t
           /\ tables db' =
              <[st_table stmt :=
                  {| tbl_schema := tbl_schema t;
                     tbl_rows := tbl_rows t ++
                       [storedRow (sch_columns (tbl_schema t)) (st_targets stmt) vals] |}]>
                (tables db)
     | Thrown _ => tables db' = tables db
     end.
Proof.
  unfold run, log. simpl.
  destruct (bindFromArray _ _ _); [easy|].
  destruct (tables db !! st_table stmt) as [t|] eqn:Et; [|easy].
  destruct (existsb _ _); [easy|].
  simpl. repeat split. exists t. auto.
Qed.

(** The insertion loop: the transaction stays as it was, the journal gains
    one [run] per attempted record, and when every record went in, the table
    holds its old rows followed by one stored row per record. *)
Lemma insertRows_effect stmt rows :
  forall db t,
    tables db !! st_table stmt = Some t ->
    let '(r, db') := insertRows stmt rows db in
    snapshot db' = snapshot db
    /\ (exists n, journal db' =
                  journal db ++ map (fun row => CallRun (boundValues row)) (take n rows))
    /\ match r with
       | Returned _ =>
           journal db' = journal db ++ map (fun row => CallRun (boundValues row)) rows
           /\ tables db' =
              <[st_table stmt :=
                  {| tbl_schema := tbl_schema t;
                     tbl_rows := tbl_rows t ++
                       map (fun row => storedRow (sch_columns (tbl_schema t))
                                         (st_targets stmt) (boundValues row)) rows |}]>
                (tables db)
       | Thrown _ => True
       end.
Proof.
  induction rows as [|row rest IH]; intros db t Ht; simpl.
  - split; [reflexivity|]. split; [exists O; simpl; now rewrite app_nil_r|].
    split; [now rewrite app_nil_r|].
    rewrite app_nil_r. destruct t. simpl. symmetry. now apply insert_id.
  - pose proof (run_effect stmt (map coerceValue (Object_values row)) db) as Hrun.
    destruct (run stmt (map coerceValue (Object_values row)) db) as [[[]|m] db1].
    + destruct Hrun as (Hs & Hj & t0 & Ht0 & Htab).
      rewrite Ht in Ht0. injection Ht0 as <-.
      specialize (IH db1 _ ltac:(rewrite Htab; apply lookup_insert_eq)).
      destruct (insertRows stmt rest db1) as [r db2].
      destruct IH as (Hs2 & [n Hn] & Hr).
      split; [congruence|].
      split.
      { exists (S n). rewrite Hn, Hj. simpl. rewrite <- app_assoc. reflexivity. }
      destruct r as [[]|m]; [|trivial].
      destruct Hr as [Hj2 Htab2]. split.
      { rewrite Hj2, Hj. rewrite <- app_assoc. reflexivity. }
      rewrite Htab2, Htab. simpl. rewrite insert_insert_eq.
      rewrite <- app_assoc. reflexivity.
    + destruct Hrun as (Hs & Hj & _).
      split; [exact Hs|]. split; [|trivial].
      exists 1%nat. simpl. rewrite ?take_0. exact Hj.
Qed.

End EngineFacts.

(** ** Ingestion of one dataset *)

Module IngestFacts.
Import JS SqlJs App Spec EngineFacts.

Lemma storedRows_length t first rows targets :
  resolveColumns (sch_columns (tbl_schema t)) (Object_keys first) = inl targets ->
  length (storedRows t first rows) = length rows.
Proof. intros H. unfold storedRows. rewrite H. apply length_map. Qed.

(** Every call of the [complete] callback ends in one of the five ways of
    [Settled]. *)
Lemma complete_settled results tbl db :
  let '(r, db', out) := complete results tbl db in
  Settled results tbl db r db' out.
Proof.
  unfold complete.
  destruct (errors results) as [|e es] eqn:Eerr;
    [|cbv beta iota zeta; eapply ParseFailed; eassumption].
  destruct (data results) as [|first rest] eqn:Edata;
    [cbv beta iota zeta; apply NothingToLoad; assumption|].
  destruct (snapshot db) as [saved|] eqn:Esnap.
  { rewrite (exec_begin_open db saved Esnap). cbv beta iota zeta.
    eapply AlreadyInTransaction; eassumption. }
  rewrite (exec_begin_closed db Esnap).
  set (db1 := {| tables := tables db; snapshot := Some (tables db);
                 journal := journal db ++ [CallExec BeginTransaction] |}).
  unfold tryInsert.
  pose proof (prepare_effect tbl (Object_keys first) (length (Object_keys first)) db1) as Hp.
  destruct (prepare tbl (Object_keys first) (length (Object_keys first)) db1)
    as [[stmt|m] db2] eqn:Eprep.
  - destruct Hp as (Ht2 & Hs2 & Hj2).
    apply prepare_returns in Eprep as (t & targets & Ht & Hres & ->).
    assert (Ht' : tables db2 !! tbl = Some t) by (rewrite Ht2; exact Ht).
    pose proof (insertRows_effect
                  {| st_table := tbl; st_targets := targets;
                     st_nparams := length (Object_keys first) |}
                  (first :: rest) db2 t Ht') as Hins.
    destruct (insertRows _ (first :: rest) db2) as [[[]|m] db3].
    + destruct Hins as (Hs3 & _ & Hj3 & Ht3).
      rewrite (exec_commit_open db3 (tables db)) by (rewrite Hs3, Hs2; reflexivity).
      eapply Committed with (t := t); eauto.
      * rewrite Edata. now apply storedRows_length with (targets := targets).
      * simpl. rewrite Ht3, Ht2. simpl. unfold storedRows. rewrite Hres, Edata. reflexivity.
      * simpl. rewrite Hj3, Hj2. simpl. rewrite Edata.
        rewrite <- !app_assoc. reflexivity.
    + destruct Hins as (Hs3 & [n Hn] & _).
      rewrite (exec_rollback_open db3 (tables db)) by (rewrite Hs3, Hs2; reflexivity).
      eapply RolledBack with (attempted := take n (first :: rest)) (closing := [CallFree]);
        eauto.
      simpl. rewrite Hn, Hj2. simpl. rewrite <- !app_assoc. reflexivity.
  - destruct Hp as (Ht2 & Hs2 & Hj2).
    rewrite (exec_rollback_open db2 (tables db)) by (rewrite Hs2; reflexivity).
    eapply RolledBack with (attempted := []) (closing := []); eauto.
    simpl. rewrite Hj2. simpl. rewrite <- !app_assoc. reflexivity.
Qed.

Lemma rowsOf_insert db db' tbl t rows :
  tables db !! tbl = Some t ->
  tables db' = <[tbl := {| tbl_schema := tbl_schema t; tbl_rows := tbl_rows t ++ rows |}]>
                 (tables db) ->
  rowsOf db' tbl = rowsOf db tbl ++ rows.
Proof.
  intros Ht Ht'. unfold rowsOf. rewrite Ht', Ht, lookup_insert_eq. reflexivity.
Qed.

Lemma rowsOf_same_tables db db' tbl :
  tables db' = tables db -> rowsOf db' tbl = rowsOf db tbl.
Proof. intros H. unfold rowsOf. now rewrite H. Qed.

End IngestFacts.

(** ** Value coercion *)

Module Coercion.
Import JS SqlJs App Spec Terms Reference Examples JSFacts IngestFacts.

(** C1, as stated, fails.  The specification gates the TRUE/FALSE rule on a
    boolean column and keeps the text "TRUE" elsewhere; the component maps it
    to 1 in the TEXT column [message] of [product_eligibility] as well. *)
Lemma true_in_text_column_becomes_one :
  declaredType "product_eligibility" "message" = Some TEXT
  /\ coerceValue (VStr "TRUE") = VNum one
  /\ Spec.coerce TEXT "TRUE" = VStr "TRUE"
  /\ coerceValue (VStr "TRUE") <> Spec.coerce TEXT "TRUE".
Proof. repeat split; discriminate. Qed.

(** C1, amended.  Whatever the column, the component coerces a field the way
    the specification's ordered rule does for a boolean column: TRUE/FALSE in
    any letter case give 1/0, otherwise blank text gives null, otherwise a
    finite decimal literal gives its number, otherwise the text is kept.
    Literals with a [0x], [0o] or [0b] prefix are left aside. *)
Theorem coercion_follows_the_boolean_rule (s : string) :
  scanNonDecimal (trim s) = None ->
  coerceValue (VStr s) = Spec.coerce BOOLEAN s.
Proof.
  intros Hdec. unfold coerceValue, Spec.coerce. simpl isBoolean. simpl andb.
  destruct (String.eqb (toUpperCase s) "TRUE"); [reflexivity|].
  destruct (String.eqb (toUpperCase s) "FALSE"); [reflexivity|].
  destruct (String.eqb (trim s) "") eqn:Eblank; [reflexivity|].
  apply String.eqb_neq in Eblank.
  unfold isFinite, ToNumber, parseFloat, StringToNumber. simpl isNull. simpl negb.
  pose proof (parseFloat_reads_whole_literal s) as Hpf.
  destruct (trim s) as [|c t]; [contradiction|].
  rewrite Hdec.
  destruct (scanDecimal (String c t)) as [[n [|c' rest]]|].
  - rewrite (Hpf n eq_refl). destruct n; reflexivity.
  - simpl. now rewrite andb_false_r.
  - simpl. now rewrite andb_false_r.
Qed.

Lemma coercion_follows_the_boolean_rule_witness :
  scanNonDecimal (trim " 12.50 ") = None
  /\ coerceValue (VStr " 12.50 ") = Spec.coerce BOOLEAN " 12.50 "
  /\ coerceValue (VStr " 12.50 ") = VNum (Finite false 125 (-1)).
Proof.
  split; [reflexivity|].
  split; [apply coercion_follows_the_boolean_rule; reflexivity | reflexivity].
Defined.

Lemma lookup_map {A B : Type} (f : A -> B) (l : list A) (i : nat) :
  List.map f l !! i = option_map f (l !! i).
Proof. revert i. induction l as [|x l IH]; intros [|i]; simpl; auto. Qed.

Lemma storedRow_lookup cols targets vals i j c :
  cols !! j = Some c -> firstTarget targets j = Some i ->
  storedRow cols targets vals !! j = Some (keep (snd c) (nth i vals VNull)).
Proof.
  intros Hj Hi. unfold storedRow.
  rewrite list_lookup_imap, Hj. simpl. now rewrite Hi.
Qed.

Lemma columnIndex_bound cols name j :
  columnIndex cols name = Some j -> (j < length cols)%nat.
Proof.
  revert j. induction cols as [|[c ty] rest IH]; intros j; simpl; [discriminate|].
  destruct (String.eqb _ _).
  - intros [= <-]. lia.
  - destruct (columnIndex rest name) as [k|]; [|discriminate].
    intros [= <-]. specialize (IH k eq_refl). lia.
Qed.

Lemma boundValues_lookup row i col s :
  row !! i = Some (col, s) -> boundValues row !! i = Some (coerceValue (VStr s)).
Proof.
  intros H. unfold boundValues, Object_values.
  rewrite !lookup_map, H. reflexivity.
Qed.

(** C9, as stated, fails.  The eligibility file holds TRUE in the TEXT
    column [message] of its second record.  The ingestion binds the number
    1, and the engine keeps it under the affinity of the column: after the
    ingestion the cell holds the text 1, not the number 1.  In the BOOLEAN
    column the first record's TRUE is kept as the integer 1. *)
Lemma true_is_kept_as_text_in_a_text_column :
  let db' :=
    snd (fst (parseAndInsert readCsv eligibilityCsv "product_eligibility" emptyTables)) in
  declaredType "product_eligibility" "message" = Some TEXT
  /\ rowsOf db' "product_eligibility"
     = [[SqlText "2024-01-01 00:00:00"; SqlText "A1"; SqlInteger 1; SqlNull];
        [SqlText "2024-01-02 00:00:00"; SqlText "A1"; SqlInteger 0; SqlText "1"]]
  /\ SqlText "1" <> SqlInteger 1.
Proof. split; [reflexivity|]. split; [vm_compute; reflexivity | discriminate]. Qed.

(** C9, amended.  In any column of any table, a field equal to TRUE (FALSE)
    in some letter case is bound as the number 1 (0): the declared type plays
    no part in the coercion, and no later rule gets to see the field.  Once
    the ingestion has resolved (plain header, handle on which no text of the
    language model has run), the row of the record is in the table and the
    cell of the column the header names holds that number under the affinity
    of the column: the integer in an INTEGER or BOOLEAN column, the real in
    a REAL column, the text 1 (0) in a TEXT column. *)
Theorem boolean_literal_in_any_column
  (results : ParseResult) (tbl : string) (db db' : Database) (out : list console_entry)
  (t : table) (first : Row) (rest : list Row) (targets : list nat)
  (k i j : nat) (row : Row) (col s cname : string) (ty : decltype) (bit : bool) :
  plainHeader results ->
  ownCallsOnly db ->
  complete results tbl db = (Returned tt, db', out) ->
  tables db !! tbl = Some t ->
  data results = first :: rest ->
  resolveColumns (sch_columns (tbl_schema t)) (Object_keys first) = inl targets ->
  data results !! k = Some row ->
  row !! i = Some (col, s) ->
  firstTarget targets j = Some i ->
  sch_columns (tbl_schema t) !! j = Some (cname, ty) ->
  toUpperCase s = (if bit then "TRUE" else "FALSE") ->
  coerceValue (VStr s) = VNum (if bit then one else zero)
  /\ exists stored,
       rowsOf db' tbl !! (length (rowsOf db tbl) + k)%nat = Some stored
       /\ stored !! j
          = Some match ty with
                 | TEXT => SqlText (if bit then "1" else "0")
                 | REAL => SqlReal (if bit then one else zero)
                 | INTEGER | BOOLEAN => SqlInteger (if bit then 1 else 0)
                 end.
Proof.
  intros _ _ Hrun Ht Hd Hres Hk Hrow Hfirst Hcol Hs.
  assert (Hc : coerceValue (VStr s) = VNum (if bit then one else zero)).
  { unfold coerceValue. rewrite Hs. destruct bit; reflexivity. }
  split; [exact Hc|].
  pose proof (complete_settled results tbl db) as Hset. rewrite Hrun in Hset.
  inversion Hset as [| He Hd' | | f rs t1 db'' He Hd' Hsn Ht1 Hlen Htab Hs1 Hj |]; subst;
    [congruence|].
  rewrite Ht in Ht1. injection Ht1 as <-.
  exists (storedRow (sch_columns (tbl_schema t)) targets (boundValues row)). split.
  - rewrite (rowsOf_insert db db' tbl t _ Ht Htab).
    rewrite lookup_app_r by lia.
    replace (length (rowsOf db tbl) + k - length (rowsOf db tbl))%nat with k by lia.
    unfold storedRows. rewrite Hd' in Hd. injection Hd as <- <-. rewrite Hres.
    rewrite lookup_map, Hk. reflexivity.
  - rewrite (storedRow_lookup _ targets _ i j (cname, ty) Hcol Hfirst). f_equal.
    pose proof (boundValues_lookup row i col s Hrow) as Hb.
    apply nth_lookup_Some with (d := VNull) in Hb. rewrite Hb, Hc.
    destruct ty, bit; reflexivity.
Qed.

Lemma boolean_literal_in_any_column_witness :
  let db' :=
    snd (fst (parseAndInsert readCsv eligibilityCsv "product_eligibility" emptyTables)) in
  exists stored,
    rowsOf db' "product_eligibility" !! 1%nat = Some stored
    /\ stored !! 3%nat = Some (SqlText "1").
Proof.
  intros db'.
  destruct (boolean_literal_in_any_column (readCsv eligibilityCsv) "product_eligibility"
              emptyTables db' []
              {| tbl_schema := product_eligibility; tbl_rows := [] |}
              [("eligibility_datetime_utc", "2024-01-01 00:00:00"); ("item_id", "A1");
               ("eligibility", "TRUE"); ("message", "")]
              [[("eligibility_datetime_utc", "2024-01-02 00:00:00"); ("item_id", "A1");
                ("eligibility", "false"); ("message", "TRUE")]]
              [0; 1; 2; 3]%nat 1 3 3
              [("eligibility_datetime_utc", "2024-01-02 00:00:00"); ("item_id", "A1");
               ("eligibility", "false"); ("message", "TRUE")]
              "message" "TRUE" "message" TEXT true)
    as (_ & stored & Hstored & Hcell); try (vm_compute; reflexivity).
  { vm_compute. repeat constructor. }
  exists stored. split; [exact Hstored | exact Hcell].
Defined.

End Coercion.

(** ** Ingestion of one dataset: the claims *)

Module Ingestion.
Import JS SqlJs App Spec Terms Reference Examples EngineFacts IngestFacts.

(** X23.  With a plain header, on a handle on which no text of the
    language model has run, one ingestion is atomic.  When the promise
    resolves, the table holds its old rows followed by one stored row for
    every parsed record; when it rejects, every table is exactly as before,
    so the row count of the target is unchanged; and when the records parsed
    and no transaction was open, a rejection is the insert failure: the
    transaction was rolled back and closed, and the message is the
    insert-failure message. *)
Theorem ingestion_is_atomic
  (Papa_parse : string -> ParseResult) (csv tbl : string) (db : Database) :
  plainHeader (Papa_parse csv) ->
  ownCallsOnly db ->
  let '(r, db', _) := parseAndInsert Papa_parse csv tbl db in
  match r with
  | Returned _ =>
      rowsOf db' tbl = rowsOf db tbl ++ committedRows db tbl (data (Papa_parse csv))
      /\ length (rowsOf db' tbl)
         = (length (rowsOf db tbl) + length (data (Papa_parse csv)))%nat
      /\ (data (Papa_parse csv) <> [] ->
          snapshot db' = None
          /\ exists calls,
               journal db' =
               journal db ++ CallExec BeginTransaction :: calls ++ [CallExec Commit; CallFree])
  | Thrown m =>
      tables db' = tables db
      /\ length (rowsOf db' tbl) = length (rowsOf db tbl)
      /\ (errors (Papa_parse csv) = [] -> snapshot db = None ->
          snapshot db' = None
          /\ (exists detail, m = "Error inserting data into " +:+ tbl +:+ ": " +:+ detail)
          /\ exists calls closing,
               journal db' =
               journal db ++ CallExec BeginTransaction :: calls ++ CallExec Rollback :: closing
               /\ (closing = [] \/ closing = [CallFree]))
  end.
Proof.
  intros _ _. unfold parseAndInsert.
  pose proof (complete_settled (Papa_parse csv) tbl db) as H.
  destruct (complete (Papa_parse csv) tbl db) as [[r db'] out].
  inversion H as [e es He | He Hd | first rest saved He Hd Hs
                 | first rest t db'' He Hd Hs Ht Hlen Htab Hs' Hj
                 | first rest detail db'' attempted closing He Hd Hs Htab Hs' Hj Hc]; subst.
  - split; [reflexivity|]. split; [reflexivity|]. intros He'. congruence.
  - rewrite Hd. unfold committedRows. destruct (tables db' !! tbl); simpl;
      rewrite app_nil_r; repeat split; auto; congruence.
  - split; [reflexivity|]. split; [reflexivity|]. intros _ Hs'. simpl in Hs'. congruence.
  - assert (Hrows : rowsOf db' tbl = rowsOf db tbl ++ storedRows t first (data (Papa_parse csv)))
      by (eapply rowsOf_insert; eauto).
    split; [|split].
    + rewrite Hrows. unfold committedRows. rewrite Ht, Hd. rewrite <- Hd. reflexivity.
    + rewrite Hrows, length_app, Hlen. reflexivity.
    + intros _. split; [exact Hs'|]. eexists (_ :: _). rewrite Hj. simpl. reflexivity.
  - split; [exact Htab|]. split; [now rewrite (rowsOf_same_tables db db' tbl Htab)|].
    intros _ _. split; [exact Hs'|]. split; [eauto|].
    eexists (_ :: _), closing. split; [|exact Hc].
    rewrite Hj. simpl. reflexivity.
Qed.

Lemma ingestion_is_atomic_witness :
  errors (readCsv duplicateKeyCsv) = []
  /\ snapshot emptyTables = None
  /\ exists m db',
       parseAndInsert readCsv duplicateKeyCsv "product_total_sales_metrics" emptyTables
       = (Thrown m, db', [])
       /\ tables db' = tables emptyTables
       /\ snapshot db' = None.
Proof.
  split; [reflexivity|]. split; [reflexivity|].
  pose proof (ingestion_is_atomic readCsv duplicateKeyCsv "product_total_sales_metrics"
                emptyTables ltac:(vm_compute; reflexivity)
                ltac:(vm_compute; repeat constructor)) as H.
  destruct (parseAndInsert readCsv duplicateKeyCsv "product_total_sales_metrics" emptyTables)
    as [[r db'] out] eqn:E.
  assert (Hr : exists m, r = Thrown m /\ out = []).
  { vm_compute in E. injection E as <- _ <-. eauto. }
  destruct Hr as [m [-> ->]].
  destruct H as (Htab & _ & Hrest).
  destruct (Hrest eq_refl eq_refl) as (Hsnap & _).
  exists m, db'. auto.
Defined.

(** C7.  A file with a header and no records is not an error: the promise
    resolves, one warning is logged, and the handle is untouched (no call
    reaches the engine). *)
Theorem header_only_is_a_no_op
  (Papa_parse : string -> ParseResult) (csv tbl : string) (db : Database) :
  errors (Papa_parse csv) = [] -> data (Papa_parse csv) = [] ->
  parseAndInsert Papa_parse csv tbl db
  = (Returned tt, db, [ConsoleWarn ("No data found in " +:+ tbl +:+ " CSV.")]).
Proof.
  intros He Hd. unfold parseAndInsert, complete. rewrite He, Hd. reflexivity.
Qed.

Lemma header_only_is_a_no_op_witness :
  errors (readCsv headerOnlyCsv) = [] /\ data (readCsv headerOnlyCsv) = []
  /\ parseAndInsert readCsv headerOnlyCsv "product_total_sales_metrics" emptyTables
     = (Returned tt, emptyTables,
        [ConsoleWarn "No data found in product_total_sales_metrics CSV."]).
Proof.
  split; [reflexivity|]. split; [reflexivity|].
  apply (header_only_is_a_no_op readCsv headerOnlyCsv "product_total_sales_metrics"
           emptyTables); reflexivity.
Defined.




End Ingestion.

(** ** Loading the three datasets *)

Module Loading.
Import JS SqlJs App Spec Terms Reference Examples EngineFacts IngestFacts.

Lemma rowsOf_create name s db tbl :
  rowsOf (snd (exec (CreateTableIfNotExists name s) db)) tbl = rowsOf db tbl.
Proof.
  unfold exec, log, rowsOf. simpl.
  destruct (tables db !! name) as [t|] eqn:E; simpl; [reflexivity|].
  destruct (decide (name = tbl)) as [->|Hne].
  - rewrite lookup_insert_eq, E. reflexivity.
  - rewrite lookup_insert_ne by exact Hne. reflexivity.
Qed.

(** Creating the tables cannot fail, keeps every row, keeps the
    transaction state, and journals one call per schema. *)
Lemma createTables_effect schemas :
  forall db,
    exists db0,
      createTables schemas db = (Returned tt, db0)
      /\ snapshot db0 = snapshot db
      /\ (forall tbl, rowsOf db0 tbl = rowsOf db tbl)
      /\ journal db0
         = journal db
           ++ map (fun e => CallExec (CreateTableIfNotExists (fst e) (snd e))) schemas.
Proof.
  induction schemas as [|[name s] rest IH]; intros db; cbn [createTables map fst snd].
  - exists db. rewrite app_nil_r. auto.
  - pose proof (rowsOf_create name s db) as Hrows.
    destruct (exec (CreateTableIfNotExists name s) db) as [[[]|m] db1] eqn:E.
    + assert (Hs : snapshot db1 = snapshot db
                   /\ journal db1 = journal db ++ [CallExec (CreateTableIfNotExists name s)]).
      { unfold exec, log in E. simpl in E.
        destruct (tables db !! name); injection E as <-; auto. }
      destruct Hs as [Hs Hj]. simpl in Hrows.
      destruct (IH db1) as (db0 & Hrun & Hs0 & Hr0 & Hj0). rewrite Hrun.
      exists db0. split; [reflexivity|]. split; [congruence|].
      split; [intros tbl; rewrite Hr0; apply Hrows|].
      rewrite Hj0, Hj, <- app_assoc. reflexivity.
    + unfold exec, log in E. simpl in E. destruct (tables db !! name); discriminate.
Qed.

(** What one dataset does to a handle with no open transaction. *)
Lemma stage_effect results tbl db :
  snapshot db = None ->
  let '(r, db', _) := complete results tbl db in
  snapshot db' = None
  /\ (exists seg, journal db' = journal db ++ seg /\ txnSegment tbl seg)
  /\ (forall tbl', tbl' <> tbl -> rowsOf db' tbl' = rowsOf db tbl')
  /\ match r with
     | Returned _ => rowsOf db' tbl = rowsOf db tbl ++ committedRows db tbl (data results)
     | Thrown _ => tables db' = tables db
     end.
Proof.
  intros Hclosed.
  pose proof (complete_settled results tbl db) as H.
  destruct (complete results tbl db) as [[r db'] out].
  inversion H as [e es He | He Hd | first rest saved He Hd Hs
                 | first rest t db'' He Hd Hs Ht Hlen Htab Hs' Hj
                 | first rest detail db'' attempted closing He Hd Hs Htab Hs' Hj Hc]; subst.
  - split; [exact Hclosed|]. split; [exists []; rewrite app_nil_r; split; [auto | now left]|].
    split; auto.
  - split; [exact Hclosed|]. split; [exists []; rewrite app_nil_r; split; [auto | now left]|].
    split; [auto|]. rewrite Hd. unfold committedRows.
    destruct (tables db' !! tbl); now rewrite app_nil_r.
  - congruence.
  - split; [exact Hs'|]. split.
    { eexists. split; [exact Hj|]. right.
      exists (Object_keys first), (length (Object_keys first)),
             (map boundValues (data results)), [CallExec Commit; CallFree].
      rewrite map_map. auto. }
    split.
    { intros tbl' Hne. unfold rowsOf. rewrite Htab, lookup_insert_ne by auto. reflexivity. }
    rewrite (rowsOf_insert db db' tbl t _ Ht Htab).
    unfold committedRows. rewrite Ht, Hd. rewrite <- Hd. reflexivity.
  - split; [exact Hs'|]. split.
    { eexists. split; [exact Hj|]. right.
      exists (Object_keys first), (length (Object_keys first)),
             (map boundValues attempted), (CallExec Rollback :: closing).
      rewrite map_map. split; [reflexivity|].
      destruct Hc as [->| ->]; auto. }
    split; [|exact Htab].
    intros tbl' _. now apply rowsOf_same_tables.
Qed.

(** A pass started with no open transaction ends with none. *)
Lemma loadAll_closed (Papa_parse : string -> ParseResult) csv1 csv2 csv3 d :
  snapshot d = None ->
  snapshot (snd (fst (loadAll Papa_parse csv1 csv2 csv3 d))) = None.
Proof.
  intros Hclosed. unfold loadAll, parseAndInsert.
  destruct (createTables_effect TABLE_SCHEMAS d) as (d0 & Hc & Hs0 & _).
  rewrite Hc.
  pose proof (stage_effect (Papa_parse csv1) "product_ad_sales_metrics" d0
                ltac:(congruence)) as H1.
  destruct (complete (Papa_parse csv1) "product_ad_sales_metrics" d0) as [[r1 d1] o1].
  destruct H1 as (Hs1 & _).
  pose proof (stage_effect (Papa_parse csv2) "product_total_sales_metrics" d1 Hs1) as H2.
  destruct (complete (Papa_parse csv2) "product_total_sales_metrics" d1) as [[r2 d2] o2].
  destruct H2 as (Hs2 & _).
  pose proof (stage_effect (Papa_parse csv3) "product_eligibility" d2 Hs2) as H3.
  destruct (complete (Papa_parse csv3) "product_eligibility" d2) as [[r3 d3] o3].
  destruct H3 as (Hs3 & _).
  destruct r1 as [[]|m1]; [destruct r2 as [[]|m2]|]; assumption.
Qed.



Lemma load_outcome (Papa_parse : string -> ParseResult) (w : World) (d : Database) :
  db w = Some d ->
  provided (productAdSalesCsv w) = true ->
  provided (productTotalSalesCsv w) = true ->
  provided (productEligibilityCsv w) = true ->
  let '(r, d', out) :=
    loadAll Papa_parse (textOf (productAdSalesCsv w)) (textOf (productTotalSalesCsv w))
      (textOf (productEligibilityCsv w)) d in
  let w' := loadDataIntoDB Papa_parse w in
  isLoading w' = false /\ db w' = Some d'
  /\ match r with
     | Returned _ =>
         isDatabaseReady w' = true /\ error w' = ""
         /\ dbStatus w' = "All data loaded successfully!"
     | Thrown m =>
         isDatabaseReady w' = isDatabaseReady w
         /\ error w' = "Error loading data: " +:+ m
         /\ dbStatus w' = "Data loading failed."
     end.
Proof.
  intros Hdb H1 H2 H3. unfold loadDataIntoDB. rewrite Hdb, H1, H2, H3. simpl.
  destruct (loadAll Papa_parse _ _ _ d) as [[r d'] out].
  destruct r as [[]|m]; simpl; auto.
Qed.

(** C3, as stated, fails.  After a pass that succeeded, a second pass over
    the same files (the load button stays enabled) fails on the first dataset
    (its keys are already in the table), the error is shown, and the ready
    flag is still true. *)
Lemma failed_pass_leaves_ready_flag_on :
  let w1 := loadDataIntoDB readCsv (uploaded adSalesCsv totalSalesCsv eligibilityCsv) in
  let w2 := loadDataIntoDB readCsv w1 in
  Reachable w1
  /\ isDatabaseReady w1 = true
  /\ ~ passSucceeded readCsv w1
  /\ isDatabaseReady w2 = true
  /\ error w2 = "Error loading data: Error inserting data into product_ad_sales_metrics: UNIQUE constraint failed: product_ad_sales_metrics.date, product_ad_sales_metrics.item_id".
Proof.
  intros w1 w2. split.
  { apply ReachLoad.
    apply (ReachInput mounted "key" (Some adSalesCsv) (Some totalSalesCsv)
             (Some eligibilityCsv) "What is my total ad spend?" ReachMounted). }
  split; [reflexivity|]. split.
  - intros (d & d' & out & Hdb & _ & _ & _ & Hload).
    vm_compute in Hdb. injection Hdb as <-.
    vm_compute in Hload. discriminate Hload.
  - split; reflexivity.
Qed.

(** C3, amended.  A pass turns the ready flag on only when the three
    datasets went in during that pass: a flag that is on afterwards was on
    before or the pass succeeded.  A pass in which a dataset fails leaves the
    flag as it was (so a system that was not ready stays not ready), shows
    the message of the dataset that failed, and reports the failure in the
    status line. *)
Theorem ready_flag_after_load (Papa_parse : string -> ParseResult) (w : World) :
  let w' := loadDataIntoDB Papa_parse w in
  (isDatabaseReady w' = true -> isDatabaseReady w = true \/ passSucceeded Papa_parse w)
  /\ (forall d m d' out,
        db w = Some d ->
        provided (productAdSalesCsv w) = true ->
        provided (productTotalSalesCsv w) = true ->
        provided (productEligibilityCsv w) = true ->
        loadAll Papa_parse (textOf (productAdSalesCsv w)) (textOf (productTotalSalesCsv w))
          (textOf (productEligibilityCsv w)) d = (Thrown m, d', out) ->
        isDatabaseReady w' = isDatabaseReady w
        /\ (isDatabaseReady w = false -> isDatabaseReady w' = false)
        /\ error w' = "Error loading data: " +:+ m
        /\ dbStatus w' = "Data loading failed.").
Proof.
  intros w'. split.
  - subst w'. unfold loadDataIntoDB.
    destruct (db w) as [d|] eqn:Hdb; [|simpl; auto].
    destruct (provided (productAdSalesCsv w)) eqn:H1; [|simpl; auto].
    destruct (provided (productTotalSalesCsv w)) eqn:H2; [|simpl; auto].
    destruct (provided (productEligibilityCsv w)) eqn:H3; [|simpl; auto].
    simpl.
    destruct (loadAll Papa_parse _ _ _ d) as [[r d'] out] eqn:Hload.
    destruct r as [[]|m]; simpl; [|auto].
    intros _. right. exists d, d', out. auto.
  - intros d m d' out Hdb H1 H2 H3 Hload.
    pose proof (load_outcome Papa_parse w d Hdb H1 H2 H3) as H.
    rewrite Hload in H. destruct H as (_ & _ & Hr & He & Hst).
    subst w'. repeat split; auto. congruence.
Qed.

Lemma ready_flag_after_load_witness :
  let w := uploaded adSalesCsv duplicateKeyCsv eligibilityCsv in
  let w' := loadDataIntoDB readCsv w in
  isDatabaseReady w' = false
  /\ error w' = "Error loading data: Error inserting data into product_total_sales_metrics: UNIQUE constraint failed: product_total_sales_metrics.date, product_total_sales_metrics.item_id"
  /\ dbStatus w' = "Data loading failed.".
Proof.
  intros w w'.
  destruct (loadAll readCsv adSalesCsv duplicateKeyCsv eligibilityCsv newDatabase)
    as [[r d'] out] eqn:E.
  assert (Hr : r = Thrown "Error inserting data into product_total_sales_metrics: UNIQUE constraint failed: product_total_sales_metrics.date, product_total_sales_metrics.item_id").
  { vm_compute in E. now injection E as <- _ _. }
  subst r.
  destruct (ready_flag_after_load readCsv w) as [_ H].
  destruct (H newDatabase _ d' out eq_refl eq_refl eq_refl eq_refl E) as (_ & Hn & He & Hs).
  split; [apply Hn; reflexivity|]. split; [exact He | exact Hs].
Defined.

End Loading.

(** ** Question answering *)

Module Asking.
Import JS SqlJs App Spec Reference Examples JSFacts.

Lemma assignOwn_lookup props col x k :
  lookupOwn (assignOwn props col x) k <> None ->
  k = col \/ lookupOwn props k <> None.
Proof.
  induction props as [|[k' v'] rest IH]; simpl.
  - destruct (String.eqb col k) eqn:E; [apply String.eqb_eq in E; auto | tauto].
  - destruct (String.eqb k' col) eqn:Ec; simpl.
    + destruct (String.eqb k' k) eqn:Ek; [right; discriminate | auto].
    + destruct (String.eqb k' k) eqn:Ek; [right; discriminate | exact IH].
Qed.

Lemma setProp_lookup obj col x k :
  lookupOwn (own (setProp obj col x)) k <> None ->
  k = col \/ lookupOwn (own obj) k <> None.
Proof.
  unfold setProp. destruct (String.eqb col "__proto__" && inherits obj).
  - destruct x; simpl; auto.
  - simpl. apply assignOwn_lookup.
Qed.

(** A property a row object owns is one of the result's columns. *)
Lemma fillObject_own cols :
  forall i row obj k,
    lookupOwn (own (fillObject cols i row obj)) k <> None ->
    In k cols \/ lookupOwn (own obj) k <> None.
Proof.
  induction cols as [|col rest IH]; intros i row obj k H; simpl in *; [auto|].
  destruct (IH _ _ _ _ H) as [Hin|Hown]; [auto|].
  destruct (setProp_lookup _ _ _ _ Hown) as [->|Hobj]; auto.
Qed.

(** A name that is not an inherited member and has a value in a row object
    is a column of the result. *)
Lemma defined_property_is_a_column cols row k :
  inheritedName k = false ->
  defined (getProp (rowObject cols row) k) = true ->
  In k cols.
Proof.
  unfold getProp, rowObject, inheritedName. intros Hk.
  destruct (lookupOwn (own (fillObject cols 0 row emptyObject)) k) as [v|] eqn:E.
  - intros _. destruct (fillObject_own cols O row emptyObject k) as [Hin|Hown];
      [rewrite E; discriminate | exact Hin | simpl in Hown; congruence].
  - rewrite Hk, andb_false_r. discriminate.
Qed.

(** Reads of the page after a chain of setters. *)
Ltac world := unfold unexpected, debugLog, typeText; simpl.

Section Environment.

Variable fetch : request -> envelope.
Variable JSON_parse_sql : string -> outcome SqlJson.
Variable JSON_parse_final : string -> outcome FinalJson.
Variable eval : evaluator.

Abbreviation ask := (askQuestion fetch JSON_parse_sql JSON_parse_final eval).

(** Once the guards pass, [askQuestion] is the pipeline run on the cleared
    page, with the loading flag dropped at the end. *)
Lemma askQuestion_askable rev w d :
  askable w d ->
  ask rev w
  = setIsLoading false
      (pipeline fetch JSON_parse_sql JSON_parse_final eval rev d
         (setChartType None
            (setChartData None (setError "" (setAnswer "" (setIsLoading true w)))))).
Proof.
  intros (Hk & Hd & Hr & Hq). unfold askQuestion. rewrite Hk, Hd, Hr, Hq. reflexivity.
Qed.

Lemma unanswerable_of_sentinel rev sqlQuery :
  includes sqlQuery "N/A" = true -> unanswerable rev sqlQuery = true.
Proof.
  intros H. apply includes_upper in H. change (toUpperCase "N/A") with "N/A" in H.
  unfold unanswerable. destruct rev; rewrite H; [reflexivity | apply orb_true_r].
Qed.

(** X21.  When the SQL extracted from the first reply contains the sentinel
    [N/A], the fixed cannot-answer text is handed to the typing routine and
    nothing else happens: the handle is the one the call started with (no
    statement reached the engine), the only request sent is the SQL request
    (the answer request is never made), no error is shown and the loading
    flag is off. *)
Theorem unanswerable_question_runs_nothing rev w d text sqlQuery :
  askable w d ->
  fetch (SqlRequest (question w)) = FirstPart text ->
  extractSql JSON_parse_sql rev text = Extracted (Some sqlQuery) ->
  includes sqlQuery "N/A" = true ->
  let w' := ask rev w in
  answer w' = answer (typeText (Some (cannotAnswer rev)) w)
  /\ error w' = ""
  /\ requests w' = requests w ++ [SqlRequest (question w)]
  /\ db w' = Some d
  /\ chartData w' = None /\ chartType w' = None
  /\ isLoading w' = false.
Proof.
  intros Hask Hf He Hs w'. subst w'.
  rewrite (askQuestion_askable rev w d Hask). unfold pipeline.
  destruct Hask as (_ & Hd & _).
  cbn [question setChartType setChartData setError setAnswer setIsLoading].
  rewrite Hf, He, (unanswerable_of_sentinel rev sqlQuery Hs).
  destruct rev; unfold unexpected, debugLog, typeText; cbn -[reveal]; rewrite Hd;
    repeat split.
Qed.

(** X22.  A statement that yields no row is not an error: the fixed no-results
    text is handed to the typing routine, no error is set, and the answer
    request is never made.  A statement the engine rejects is the other
    outcome: the error names the engine's message and the SQL, and no answer
    text is shown.  Either way the handle is as the engine left it. *)
Theorem empty_result_short_circuits rev w d text sqlQuery :
  askable w d ->
  fetch (SqlRequest (question w)) = FirstPart text ->
  extractSql JSON_parse_sql rev text = Extracted (Some sqlQuery) ->
  unanswerable rev sqlQuery = false ->
  let w' := ask rev w in
  (fst (execQuery eval sqlQuery d) = Returned [] ->
   answer w' = answer (typeText (Some noResults) w)
   /\ error w' = ""
   /\ requests w' = requests w ++ [SqlRequest (question w)]
   /\ db w' = Some (snd (execQuery eval sqlQuery d))
   /\ isLoading w' = false)
  /\ (forall m, fst (execQuery eval sqlQuery d) = Thrown m ->
      answer w' = ""
      /\ error w' = "SQL execution error: " +:+ m +:+ ". Generated SQL: " +:+ sqlQuery
      /\ requests w' = requests w ++ [SqlRequest (question w)]
      /\ db w' = Some (snd (execQuery eval sqlQuery d))
      /\ isLoading w' = false).
Proof.
  intros Hask Hf He Hu w'. subst w'.
  rewrite (askQuestion_askable rev w d Hask). unfold pipeline.
  cbn [question setChartType setChartData setError setAnswer setIsLoading].
  rewrite Hf, He, Hu. unfold executeStage.
  destruct (execQuery eval sqlQuery d) as [r d'] eqn:Hx. cbn [fst snd].
  split.
  - intros ->. destruct rev; unfold unexpected, debugLog, typeText; cbn -[reveal];
      repeat split.
  - intros m ->. destruct rev; unfold unexpected, debugLog, typeText; cbn -[reveal];
      repeat split.
Qed.

(** C6, amended.  Whatever becomes of the chart, the answer text of the
    reply is handed to the typing routine.  A chart is drawn only when the
    reply gives a kind, a label column and a value column and every row has
    a value under both names; such names, unless they are names every object
    inherits, are columns of the result.  When the three are given but some
    row has no value under one of the names, the chart is dropped and the
    warning is shown and logged.  When the kind or a column name is missing,
    no chart is drawn and nothing is reported. *)
Theorem chart_is_validated_and_answer_delivered
  rev w d text sqlQuery res0 more jsonText parsedFinal :
  askable w d ->
  fetch (SqlRequest (question w)) = FirstPart text ->
  extractSql JSON_parse_sql rev text = Extracted (Some sqlQuery) ->
  unanswerable rev sqlQuery = false ->
  fst (execQuery eval sqlQuery d) = Returned (res0 :: more) ->
  let queryResults := map (rowObject (columns res0)) (SqlJs.values res0) in
  fetch (AnswerRequest (question w) queryResults) = FirstPart jsonText ->
  JSON_parse_final jsonText = Returned parsedFinal ->
  let w' := ask rev w in
  answer w' = answer (typeText (parsed_answer parsedFinal) w)
  /\ match suggestion parsedFinal with
     | Some (kind, l, c) =>
         if plottable l c queryResults then
           chartType w' = Some kind
           /\ chartData w'
              = Some {| cd_labels := map (fun row => getProp row l) queryResults;
                        cd_series := c +:+ " by " +:+ l;
                        cd_data := map (fun row => getProp row c) queryResults |}
           /\ error w' = ""
           /\ console w' = console w ++ debugLines rev
           /\ (inheritedName l = false -> In l (columns res0))
           /\ (inheritedName c = false -> In c (columns res0))
         else
           chartType w' = None /\ chartData w' = None
           /\ error w' = chartWarning
           /\ console w' = console w ++ debugLines rev ++ [ConsoleWarn (chartNotRendered rev)]
     | None =>
         chartType w' = None /\ chartData w' = None
         /\ error w' = ""
         /\ console w' = console w ++ debugLines rev
     end.
Proof.
  intros Hask Hf He Hu Hq queryResults Hf2 Hj w'. subst w'.
  rewrite (askQuestion_askable rev w d Hask). unfold pipeline.
  cbn [question setChartType setChartData setError setAnswer setIsLoading].
  rewrite Hf, He, Hu. unfold executeStage.
  destruct (execQuery eval sqlQuery d) as [r d'] eqn:Hx. cbn [fst] in Hq. subst r.
  fold queryResults. unfold answerStage.
  assert (Hquestion : forall x, question (putDb x (debugLog rev "LLM SQL Raw Response:"
            (sent (SqlRequest (question w))
               (setChartType None
                  (setChartData None (setError "" (setAnswer "" (setIsLoading true w))))))))
          = question w) by (intros x; destruct rev; reflexivity).
  rewrite Hquestion, Hf2, Hj.
  unfold suggestChart, suggestion.
  split.
  { destruct (visualization parsedFinal) as [v|];
      [destruct (chart_type v) as [k|], (labels v) as [l|], (values_column v) as [c|];
       try (destruct (truthyString k && truthyString l && truthyString c);
            try destruct (forallb defined _ && forallb defined _))|];
      destruct (parsed_answer parsedFinal), rev; reflexivity. }
  assert (Hlog : forall (xs : list console_entry) a b, (xs ++ [a]) ++ [b] = xs ++ [a; b])
    by (intros; now rewrite <- app_assoc).
  destruct (visualization parsedFinal) as [v|];
    [|solve [destruct (parsed_answer parsedFinal), rev; world;
             rewrite ?Hlog, ?app_nil_r; auto]].
  destruct (chart_type v) as [k|], (labels v) as [l|], (values_column v) as [c|];
    try solve [destruct (parsed_answer parsedFinal), rev; world;
               rewrite ?Hlog, ?app_nil_r; auto].
  destruct (truthyString k && truthyString l && truthyString c);
    [|solve [destruct (parsed_answer parsedFinal), rev; world;
             rewrite ?Hlog, ?app_nil_r; auto]].
  unfold plottable.
  destruct (forallb defined (map (fun row => getProp row l) queryResults)
            && forallb defined (map (fun row => getProp row c) queryResults)) eqn:Eok.
  - apply andb_true_iff in Eok as [El Ec].
    assert (Hcols : (inheritedName l = false -> In l (columns res0))
                    /\ (inheritedName c = false -> In c (columns res0))).
    { subst queryResults. unfold SqlJs.values in El, Ec. simpl in El, Ec.
      apply andb_true_iff in El as [El _]. apply andb_true_iff in Ec as [Ec _].
      split; intros Hn; eapply defined_property_is_a_column; eauto. }
    destruct Hcols.
    destruct (parsed_answer parsedFinal), rev; world; rewrite ?Hlog, ?app_nil_r;
      repeat split; auto.
  - destruct (parsed_answer parsedFinal), rev; world;
      rewrite ?Hlog, <- ?app_assoc, ?app_nil_r; repeat split; auto.
Qed.

End Environment.

(** C6, as stated, fails.  The reply proposes a bar chart but names no label
    column.  The chart is not drawn, and no warning is produced: the error
    line stays empty and nothing is written to the console. *)
Lemma chart_without_label_column_is_dropped_silently :
  let parsedFinal :=
    {| parsed_answer := Some "A1 sold most.";
       visualization :=
         Some {| chart_type := Some "bar"; labels := None; values_column := Some "total" |} |} in
  let w' :=
    askQuestion (replying "{}" "{}")
      (decodesTo {| sql_query := Some "SELECT item_id, total FROM t" |})
      (decodesTo parsedFinal) (answering (Returned [salesResult])) Rev1 ready in
  chartData w' = None
  /\ error w' = ""
  /\ error w' <> chartWarning
  /\ console w' = [].
Proof. repeat split. discriminate. Qed.

(** C4.  The cannot-answer text loses its first character.  The first
    reply holds the sentinel; the fixed text is handed to the typing routine,
    whose timer appends the character after the one it should: what the page
    shows starts at the second character.  No statement reaches the engine
    and only the SQL request is sent. *)
Lemma cannot_answer_text_loses_its_first_character :
  let w' :=
    askQuestion (replying (fencedSql "-- N/A") "{}") (decodesTo {| sql_query := None |})
      (decodesTo {| parsed_answer := None; visualization := None |})
      (answering (Returned [salesResult])) Rev2 ready in
  answer w'
  = "'m sorry, I cannot answer that question with the available data or derived metrics."
  /\ answer w' <> cannotAnswer Rev2
  /\ requests w' = [SqlRequest "Which item sold most?"]
  /\ db w' = Some emptyTables.
Proof. vm_compute. repeat split. discriminate. Qed.

(** C5.  The no-results text loses its first character.  The statement
    runs and yields no row; the fixed text is handed to the typing routine
    and the page shows it from its second character on.  No answer request
    is sent and no error is shown. *)
Lemma no_results_text_loses_its_first_character :
  let w' :=
    askQuestion (replying "{}" "{}")
      (decodesTo {| sql_query := Some "SELECT item_id FROM product_eligibility WHERE 0" |})
      (decodesTo {| parsed_answer := Some "unused"; visualization := None |})
      (answering (Returned [])) Rev1 ready in
  answer w' = "he query executed successfully but returned no results."
  /\ answer w' <> noResults
  /\ error w' = ""
  /\ requests w' = [SqlRequest "Which item sold most?"].
Proof. vm_compute. repeat split. discriminate. Qed.

Lemma unanswerable_question_runs_nothing_witness :
  let w' :=
    askQuestion (replying (fencedSql "-- N/A") "{}") (decodesTo {| sql_query := None |})
      (decodesTo {| parsed_answer := None; visualization := None |})
      (answering (Returned [salesResult])) Rev2 ready in
  error w' = ""
  /\ requests w' = [SqlRequest "Which item sold most?"]
  /\ db w' = Some emptyTables.
Proof.
  destruct (unanswerable_question_runs_nothing
              (replying (fencedSql "-- N/A") "{}") (decodesTo {| sql_query := None |})
              (decodesTo {| parsed_answer := None; visualization := None |})
              (answering (Returned [salesResult])) Rev2 ready emptyTables
              (fencedSql "-- N/A") "-- N/A")
    as (_ & He & Hr & Hd & _); try reflexivity.
  { repeat split. }
  intros w'. split; [exact He|]. split; [exact Hr | exact Hd].
Defined.

Lemma empty_result_short_circuits_witness :
  let w' :=
    askQuestion (replying "{}" "{}")
      (decodesTo {| sql_query := Some "SELECT item_id FROM product_eligibility WHERE 0" |})
      (decodesTo {| parsed_answer := Some "unused"; visualization := None |})
      (answering (Returned [])) Rev1 ready in
  error w' = ""
  /\ requests w' = [SqlRequest "Which item sold most?"].
Proof.
  destruct (empty_result_short_circuits
              (replying "{}" "{}")
              (decodesTo {| sql_query := Some "SELECT item_id FROM product_eligibility WHERE 0" |})
              (decodesTo {| parsed_answer := Some "unused"; visualization := None |})
              (answering (Returned [])) Rev1 ready emptyTables "{}"
              "SELECT item_id FROM product_eligibility WHERE 0")
    as [Hempty _]; try reflexivity.
  { repeat split. }
  destruct (Hempty eq_refl) as (_ & He & Hr & _).
  intros w'. split; [exact He | exact Hr].
Defined.

Lemma chart_is_validated_and_answer_delivered_witness :
  let parsedFinal :=
    {| parsed_answer := Some "A1 sold most.";
       visualization :=
         Some {| chart_type := Some "bar"; labels := Some "item_id";
                 values_column := Some "nope" |} |} in
  let w' :=
    askQuestion (replying "{}" "{}")
      (decodesTo {| sql_query := Some "SELECT item_id, total FROM t" |})
      (decodesTo parsedFinal) (answering (Returned [salesResult])) Rev1 ready in
  chartData w' = None
  /\ error w' = chartWarning.
Proof.
  intros parsedFinal.
  pose proof (chart_is_validated_and_answer_delivered
                (replying "{}" "{}")
                (decodesTo {| sql_query := Some "SELECT item_id, total FROM t" |})
                (decodesTo parsedFinal) (answering (Returned [salesResult])) Rev1 ready
                emptyTables "{}" "SELECT item_id, total FROM t" salesResult [] "{}"
                parsedFinal) as H.
  destruct H as (_ & Hchart); try reflexivity.
  { repeat split. }
  intros w'.
  change (suggestion parsedFinal) with (Some ("bar", "item_id", "nope")) in Hchart.
  change (plottable "item_id" "nope"
            (map (rowObject (columns salesResult)) (SqlJs.values salesResult)))
    with false in Hchart.
  destruct Hchart as (_ & Hc & He & _). split; [exact Hc | exact He].
Defined.

End Asking.

(** ** The session as a whole *)

Module Session.
Import JS SqlJs App Spec Loading.

Lemma loadDataIntoDB_snapshot (Papa_parse : string -> ParseResult) (w : World) :
  (forall d, db w = Some d -> snapshot d = None) ->
  forall d', db (loadDataIntoDB Papa_parse w) = Some d' -> snapshot d' = None.
Proof.
  intros Hinv d'. unfold loadDataIntoDB.
  destruct (db w) as [d|] eqn:Hdb; [|simpl; rewrite Hdb; discriminate].
  destruct (negb (provided (productAdSalesCsv w)) || negb (provided (productTotalSalesCsv w))
            || negb (provided (productEligibilityCsv w))).
  - simpl. rewrite Hdb. intros [= <-]. auto.
  - pose proof (loadAll_closed Papa_parse (textOf (productAdSalesCsv w))
                  (textOf (productTotalSalesCsv w)) (textOf (productEligibilityCsv w)) d
                  (Hinv d eq_refl)) as Hc.
    destruct (loadAll Papa_parse _ _ _ d) as [[r d1] out]. simpl in Hc.
    destruct r as [[]|m]; simpl; intros [= <-]; exact Hc.
Qed.

End Session.

(** ** Checks on concrete inputs *)

Module Checks.
Import JS SqlJs App Spec Reference Examples.

Example upper_true : toUpperCase "true" = "TRUE".
Proof. reflexivity. Qed.

Example trim_inner : trim "  a b  " = "a b".
Proof. reflexivity. Qed.

Example parseFloat_fraction : parseFloatString "12.50" = Finite false 125 (-1).
Proof. reflexivity. Qed.

Example parseFloat_prefix : parseFloatString "12abc" = Finite false 12 0.
Proof. reflexivity. Qed.

Example parseFloat_date : parseFloatString "2024-01-01" = Finite false 2024 0.
Proof. reflexivity. Qed.

Example parseFloat_signed : parseFloatString "-.5e1" = Finite true 5 0.
Proof. reflexivity. Qed.

Example parseFloat_largest : parseFloatString "1.7976931348623157e308"
                             = Finite false 17976931348623157 292.
Proof. vm_compute. reflexivity. Qed.

Example parseFloat_overflow : parseFloatString "1.7976931348623159e308" = Infinity false.
Proof. vm_compute. reflexivity. Qed.

Example number_whole : StringToNumber " 12 " = Finite false 12 0.
Proof. reflexivity. Qed.

Example number_date : StringToNumber "2024-01-01" = NaN.
Proof. reflexivity. Qed.

Example number_hex : StringToNumber "0x1A" = Finite false 26 0.
Proof. reflexivity. Qed.

(** Dates and identifiers stay text, numbers become numbers, blanks become
    null. *)
Example coerce_date : coerceValue (VStr "2024-01-01") = VStr "2024-01-01".
Proof. reflexivity. Qed.

Example coerce_identifier : coerceValue (VStr "A1") = VStr "A1".
Proof. reflexivity. Qed.

Example coerce_number : coerceValue (VStr "30.75") = VNum (Finite false 3075 (-2)).
Proof. reflexivity. Qed.

Example coerce_blank : coerceValue (VStr "  ") = VNull.
Proof. reflexivity. Qed.

Example coerce_overflow : coerceValue (VStr "1e999") = VStr "1e999".
Proof. vm_compute. reflexivity. Qed.

(** A literal with a radix prefix passes the finiteness test as a whole and
    is then read by [parseFloat], which stops after the leading zero. *)
Example coerce_hex : coerceValue (VStr "0x1A") = VNum zero.
Proof. reflexivity. Qed.

(** The eligibility file of [Examples]: TRUE in the TEXT column [message] is
    stored as 1, like TRUE in the BOOLEAN column. *)
Example eligibility_rows_stored :
  rowsOf (snd (fst (parseAndInsert readCsv eligibilityCsv "product_eligibility" emptyTables)))
    "product_eligibility"
  = [[SqlText "2024-01-01 00:00:00"; SqlText "A1"; SqlInteger 1; SqlNull];
     [SqlText "2024-01-02 00:00:00"; SqlText "A1"; SqlInteger 0; SqlText "1"]].
Proof. vm_compute. reflexivity. Qed.

(** Scenario A: three well-formed files make the page ready. *)
Example scenario_ready :
  let w := loadDataIntoDB readCsv (uploaded adSalesCsv totalSalesCsv eligibilityCsv) in
  isDatabaseReady w = true /\ dbStatus w = "All data loaded successfully!" /\ error w = "".
Proof. vm_compute. repeat split. Qed.

Example fenced_block : matchSqlBlock (fencedSql "SELECT 1;") = Some "SELECT 1;".
Proof. reflexivity. Qed.

Example fenced_block_missing : matchSqlBlock "SELECT 1;" = None.
Proof. reflexivity. Qed.

(** A name every object inherits passes the chart test although the result
    has no such column. *)
Example inherited_name_passes :
  plottable "toString" "total"
    (map (rowObject (columns salesResult)) (SqlJs.values salesResult)) = true
  /\ ~ In "toString" (columns salesResult).
Proof. split; [reflexivity | vm_compute; intuition discriminate]. Qed.

End Checks.

(** ** More on value coercion and on the ingestion of one dataset *)

Module IngestionMore.
Import JS SqlJs App Spec Terms Reference Examples JSFacts EngineFacts IngestFacts.

#[local] Arguments String.append : simpl nomatch.

Lemma code_eqb_char (c : ascii) (n : N) :
  (code c =? n)%N = true -> c = ascii_of_N n.
Proof.
  intros H. apply N.eqb_eq in H. unfold code in H.
  rewrite <- H. symmetry. apply ascii_N_embedding.
Qed.

(** A literal with a radix prefix is read by [parseFloat] as the zero in
    front of the prefix letter. *)
Lemma scanDecimal_of_radix_literal t n :
  scanNonDecimal t = Some n -> exists r, scanDecimal t = Some (zero, r).
Proof.
  destruct t as [|z [|x [|d r]]]; try discriminate. unfold scanNonDecimal.
  destruct (code z =? 48)%N eqn:Ez; [|discriminate].
  apply code_eqb_char in Ez. subst z.
  destruct ((code x =? 120)%N || (code x =? 88)%N) eqn:E1.
  { intros _. apply orb_true_iff in E1 as [E|E]; apply code_eqb_char in E; subst x;
      eexists; reflexivity. }
  destruct ((code x =? 111)%N || (code x =? 79)%N) eqn:E2.
  { intros _. apply orb_true_iff in E2 as [E|E]; apply code_eqb_char in E; subst x;
      eexists; reflexivity. }
  destruct ((code x =? 98)%N || (code x =? 66)%N) eqn:E3; [|discriminate].
  intros _. apply orb_true_iff in E3 as [E|E]; apply code_eqb_char in E; subst x;
    eexists; reflexivity.
Qed.

Lemma mkNumber_not_NaN neg m e : mkNumber neg m e <> NaN.
Proof.
  unfold mkNumber. destruct (overflows m e); [discriminate|].
  destruct (canon m e). discriminate.
Qed.

(** Whenever the whole field is a number, [parseFloat] reads a finite
    number from it. *)
Lemma finite_field_parses_finite s :
  trim s <> "" -> isFiniteNumber (StringToNumber s) = true ->
  isFiniteNumber (parseFloatString s) = true.
Proof.
  intros Hne. unfold StringToNumber.
  pose proof (parseFloat_reads_whole_literal s) as Hwhole.
  destruct (trimEnd_decompose (trimStart s)) as [w [Hs Hw]].
  fold (trim s) in Hs.
  destruct (trim s) as [|c t] eqn:Et; [contradiction|].
  destruct (scanDecimal (String c t)) as [[n [|c' rest]]|] eqn:Escan.
  - rewrite (Hwhole n eq_refl). auto.
  - destruct (scanNonDecimal (String c t)) as [k|] eqn:Ek; [|discriminate].
    intros _. destruct (scanDecimal_of_radix_literal _ _ Ek) as [r Hr].
    unfold parseFloatString.
    rewrite Hs, (scanDecimal_app _ w (allChars_inert w Hw)), Hr. reflexivity.
  - destruct (scanNonDecimal (String c t)) as [k|] eqn:Ek; [|discriminate].
    destruct (scanDecimal_of_radix_literal _ _ Ek) as [r Hr]. congruence.
Qed.

Lemma upper_first_char_not_blank a (u : ascii) :
  toUpperChar a = u -> isWhiteSpace u = false -> isWhiteSpace a = false.
Proof.
  intros <-. destruct a as [[] [] [] [] [] [] [] []]; vm_compute; congruence.
Qed.

Lemma trimEnd_keeps_nonblank_head c r :
  isWhiteSpace c = false -> trimEnd (String c r) <> "".
Proof. intros H. simpl. destruct (trimEnd r); [rewrite H|]; discriminate. Qed.

(** A field that reads TRUE or FALSE is not blank. *)
Lemma boolean_literal_is_not_blank s :
  toUpperCase s = "TRUE" \/ toUpperCase s = "FALSE" -> trim s <> "".
Proof.
  intros H. destruct s as [|a r]; [destruct H; discriminate|].
  assert (Ha : isWhiteSpace a = false).
  { destruct H as [H|H]; simpl in H; injection H as H _;
      eapply upper_first_char_not_blank; eauto. }
  unfold trim. simpl. rewrite Ha. now apply trimEnd_keeps_nonblank_head.
Qed.

(** X5.  What a field becomes: null exactly when it is blank, otherwise a
    finite number or the very text of the field (not trimmed, not changed).
    NaN, an infinity or [undefined] are never bound. *)
Theorem field_becomes_null_number_or_itself (s : string) :
  (coerceValue (VStr s) = VNull <-> trim s = "")
  /\ (coerceValue (VStr s) = VNull
      \/ (exists neg m e, coerceValue (VStr s) = VNum (Finite neg m e))
      \/ coerceValue (VStr s) = VStr s).
Proof.
  pose proof (boolean_literal_is_not_blank s) as Hbool.
  unfold coerceValue.
  destruct (String.eqb (toUpperCase s) "TRUE") eqn:Et.
  { apply String.eqb_eq in Et. split; [split; [discriminate | intros; tauto]|].
    right. left. unfold one. eauto. }
  destruct (String.eqb (toUpperCase s) "FALSE") eqn:Ef.
  { apply String.eqb_eq in Ef. split; [split; [discriminate | intros; tauto]|].
    right. left. unfold zero. eauto. }
  destruct (String.eqb (trim s) "") eqn:Eb.
  { apply String.eqb_eq in Eb. split; [tauto | auto]. }
  apply String.eqb_neq in Eb.
  unfold isFinite, ToNumber, parseFloat. simpl isNull. simpl negb.
  pose proof (finite_field_parses_finite s Eb) as Hfin.
  destruct (isFiniteNumber (StringToNumber s)).
  - specialize (Hfin eq_refl).
    destruct (parseFloatString s) as [|neg|neg m e]; try discriminate. simpl.
    split; [split; [discriminate | tauto]|]. right. left. eauto.
  - rewrite andb_false_r. split; [split; [discriminate | tauto]|]. auto.
Qed.

Lemma coerceValue_bindable s : bindable (coerceValue (VStr s)) = true.
Proof.
  unfold coerceValue.
  destruct (String.eqb (toUpperCase s) "TRUE"); [reflexivity|].
  destruct (String.eqb (toUpperCase s) "FALSE"); [reflexivity|].
  destruct (String.eqb (trim s) ""); [reflexivity|].
  match goal with |- context [if ?b then _ else _] => destruct b end; reflexivity.
Qed.

Lemma boundValues_bindable (row : Row) : forallb bindable (boundValues row) = true.
Proof.
  unfold boundValues, Object_values. induction row as [|[k s] rest IH]; simpl; [reflexivity|].
  now rewrite coerceValue_bindable, IH.
Qed.

Lemma boundValues_length (row : Row) : length (boundValues row) = length row.
Proof. unfold boundValues, Object_values. now rewrite !length_map. Qed.

Lemma bindFromArray_fits vals :
  forall n pos,
    forallb bindable vals = true -> (pos + length vals <= n)%nat ->
    bindFromArray n pos vals = None.
Proof.
  induction vals as [|v rest IH]; intros n pos Hb Hlen; simpl in *; [reflexivity|].
  apply andb_true_iff in Hb as [Hv Hrest]. rewrite Hv. simpl.
  destruct (Nat.leb n pos) eqn:E; [apply Nat.leb_le in E; lia|].
  apply IH; [exact Hrest | lia].
Qed.

(** One [run] of a statement whose values fit: it is refused exactly when
    the stored row collides on the primary key. *)
Lemma run_fitting stmt vals db t :
  tables db !! st_table stmt = Some t ->
  bindFromArray (st_nparams stmt) O vals = None ->
  let row := storedRow (sch_columns (tbl_schema t)) (st_targets stmt) vals in
  run stmt vals db =
  if existsb (keyConflict (tbl_schema t) row) (tbl_rows t) then
    (Thrown (uniqueMessage (st_table stmt) (tbl_schema t)), log (CallRun vals) db)
  else
    (Returned tt,
     {| tables := <[st_table stmt := {| tbl_schema := tbl_schema t;
                                        tbl_rows := tbl_rows t ++ [row] |}]> (tables db);
        snapshot := snapshot db; journal := journal db ++ [CallRun vals] |}).
Proof.
  intros Ht Hb row. unfold run. rewrite Hb. simpl. rewrite Ht.
  fold row. destruct (existsb _ _); reflexivity.
Qed.

(** The loop goes through exactly when the stored rows are admitted; if
    not, it stops on the uniqueness message. *)
Lemma insertRows_admits stmt rows :
  bindsFit stmt rows ->
  forall db t,
    tables db !! st_table stmt = Some t ->
    let new := map (fun row => storedRow (sch_columns (tbl_schema t))
                                 (st_targets stmt) (boundValues row)) rows in
    exists db',
      insertRows stmt rows db =
      ((if admits (tbl_schema t) (tbl_rows t) new then Returned tt
        else Thrown (uniqueMessage (st_table stmt) (tbl_schema t))), db').
Proof.
  induction 1 as [|row rest Hb _ IH]; intros db t Ht; simpl.
  - eauto.
  - change (map coerceValue (Object_values row)) with (boundValues row).
    rewrite (run_fitting stmt (boundValues row) db t Ht Hb).
    destruct (existsb _ _); simpl; [eauto|].
    match goal with |- context [insertRows stmt rest ?d] =>
      destruct (IH d {| tbl_schema := tbl_schema t;
                        tbl_rows := tbl_rows t ++
                          [storedRow (sch_columns (tbl_schema t))
                             (st_targets stmt) (boundValues row)] |}) as [db' Hdb']
    end.
    { simpl. apply lookup_insert_eq. }
    simpl in Hdb'. eauto.
Qed.




Lemma prepare_when_resolved tbl cols db t targets :
  tables db !! tbl = Some t -> cols <> [] ->
  resolveColumns (sch_columns (tbl_schema t)) cols = inl targets ->
  prepare tbl cols (length cols) db =
  (Returned {| st_table := tbl; st_targets := targets; st_nparams := length cols |},
   log (CallPrepare tbl cols (length cols)) db).
Proof.
  intros Ht Hne Hres. unfold prepare. simpl. rewrite Ht.
  destruct cols as [|c cols]; [contradiction|]. rewrite Hres, Nat.eqb_refl. reflexivity.
Qed.


(** An ingestion whose values fit the statement ends by the keys alone:
    resolved when the stored rows are admitted, otherwise rejected on the
    uniqueness message with the tables as before. *)
Lemma complete_when_fitting results tbl db t first rest targets :
  errors results = [] -> data results = first :: rest -> Object_keys first <> [] ->
  snapshot db = None -> tables db !! tbl = Some t ->
  resolveColumns (sch_columns (tbl_schema t)) (Object_keys first) = inl targets ->
  bindsFit {| st_table := tbl; st_targets := targets;
              st_nparams := length (Object_keys first) |} (data results) ->
  exists db',
    complete results tbl db =
    ((if admits (tbl_schema t) (tbl_rows t) (storedRows t first (data results))
      then Returned tt
      else Thrown ("Error inserting data into " +:+ tbl +:+ ": "
                   +:+ uniqueMessage tbl (tbl_schema t))), db', [])
    /\ (admits (tbl_schema t) (tbl_rows t) (storedRows t first (data results)) = false ->
        tables db' = tables db).
Proof.
  intros He Hd Hk Hs Ht Hres Hfit. unfold complete. rewrite He, Hd.
  rewrite (exec_begin_closed db Hs). unfold tryInsert.
  set (db1 := {| tables := tables db; snapshot := Some (tables db);
                 journal := journal db ++ [CallExec BeginTransaction] |}).
  rewrite (prepare_when_resolved tbl (Object_keys first) db1 t targets Ht Hk Hres).
  set (stmt := {| st_table := tbl; st_targets := targets;
                  st_nparams := length (Object_keys first) |}) in *.
  set (db2 := log _ db1).
  assert (Ht2 : tables db2 !! st_table stmt = Some t) by exact Ht.
  rewrite Hd in Hfit.
  destruct (insertRows_admits stmt (first :: rest) Hfit db2 t Ht2) as [db3 Hins].
  pose proof (insertRows_effect stmt (first :: rest) db2 t Ht2) as Heff.
  rewrite Hins in *. destruct Heff as (Hs3 & _).
  unfold storedRows. rewrite Hres. simpl st_targets in Hins.
  destruct (admits _ _ _).
  - rewrite (exec_commit_open db3 (tables db)) by (rewrite Hs3; reflexivity).
    eexists. split; [reflexivity | discriminate].
  - rewrite (exec_rollback_open db3 (tables db)) by (rewrite Hs3; reflexivity).
    eexists. split; [reflexivity | reflexivity].
Qed.

Lemma fields_fit targets tbl first (rows : list Row) :
  Forall (fun row => (length row <= length first)%nat) rows ->
  bindsFit {| st_table := tbl; st_targets := targets;
              st_nparams := length (Object_keys first) |} rows.
Proof.
  intros H. unfold bindsFit. eapply Forall_impl; [exact H|].
  intros row Hlen. simpl. apply bindFromArray_fits; [apply boundValues_bindable|].
  rewrite boundValues_length. unfold Object_keys. rewrite length_map. simpl. exact Hlen.
Qed.

(** X3.  For a file whose header is plain and names only columns of the
    table, whose records have no more fields than the header, and whose key
    cells, like those of the rows in the table, are NULL, integers or texts
    (cells the engine compares as the model does), on a handle on which no
    text of the language model has run, the keys alone decide the ingestion:
    it goes through when no record collides on the primary key with a row of
    the table or with a record before it, and otherwise it is rejected with
    the uniqueness message.  A value, whatever its text, is never the reason
    a record is refused. *)
Theorem fresh_keys_decide_ingestion
  (Papa_parse : string -> ParseResult) (csv tbl : string) (db : Database)
  (t : table) (first : Row) (rest : list Row) (targets : list nat) :
  errors (Papa_parse csv) = [] ->
  data (Papa_parse csv) = first :: rest ->
  first <> [] ->
  snapshot db = None ->
  tables db !! tbl = Some t ->
  resolveColumns (sch_columns (tbl_schema t)) (Object_keys first) = inl targets ->
  Forall (fun row => (length row <= length first)%nat) (data (Papa_parse csv)) ->
  plainHeader (Papa_parse csv) ->
  ownCallsOnly db ->
  Forall (fun r => exactKey (tbl_schema t) r = true)
         (tbl_rows t ++ storedRows t first (data (Papa_parse csv))) ->
  fst (fst (parseAndInsert Papa_parse csv tbl db)) =
  if admits (tbl_schema t) (tbl_rows t) (storedRows t first (data (Papa_parse csv)))
  then Returned tt
  else Thrown ("Error inserting data into " +:+ tbl +:+ ": "
               +:+ uniqueMessage tbl (tbl_schema t)).
Proof.
  intros He Hd Hne Hs Ht Hres Hlen _ _ _. unfold parseAndInsert.
  destruct (complete_when_fitting (Papa_parse csv) tbl db t first rest targets)
    as (db' & Hrun & _); auto.
  - destruct first; [contradiction | discriminate].
  - now apply fields_fit.
  - rewrite Hrun. reflexivity.
Qed.

Lemma fresh_keys_decide_ingestion_witness :
  fst (fst (parseAndInsert readCsv totalSalesCsv "product_total_sales_metrics" emptyTables))
  = Returned tt
  /\ fst (fst (parseAndInsert readCsv duplicateKeyCsv "product_total_sales_metrics"
                 emptyTables))
     = Thrown "Error inserting data into product_total_sales_metrics: UNIQUE constraint failed: product_total_sales_metrics.date, product_total_sales_metrics.item_id".
Proof.
  split.
  - rewrite (fresh_keys_decide_ingestion readCsv totalSalesCsv "product_total_sales_metrics"
               emptyTables {| tbl_schema := product_total_sales_metrics; tbl_rows := [] |}
               [("date", "2024-01-01"); ("item_id", "A1"); ("total_sales", "30.75");
                ("total_units_ordered", "3")]
               [[("date", "2024-01-02"); ("item_id", "A1"); ("total_sales", "12");
                 ("total_units_ordered", "1")]]
               [0; 1; 2; 3]%nat); try (vm_compute; reflexivity);
      [discriminate | vm_compute; repeat constructor ..].
  - rewrite (fresh_keys_decide_ingestion readCsv duplicateKeyCsv "product_total_sales_metrics"
               emptyTables {| tbl_schema := product_total_sales_metrics; tbl_rows := [] |}
               [("date", "2024-01-01"); ("item_id", "A1"); ("total_sales", "30.75");
                ("total_units_ordered", "3")]
               [[("date", "2024-01-01"); ("item_id", "A1"); ("total_sales", "99");
                 ("total_units_ordered", "9")]]
               [0; 1; 2; 3]%nat); try (vm_compute; reflexivity);
      [discriminate | vm_compute; repeat constructor ..].
Defined.









End IngestionMore.

(** ** More on loading the three datasets *)

Module LoadingMore.
Import JS SqlJs App Spec Terms Reference Examples EngineFacts IngestFacts Loading.
Import IngestionMore.

Lemma complete_frame results tbl db other :
  other <> tbl ->
  tables (snd (fst (complete results tbl db))) !! other = tables db !! other.
Proof.
  intros Hne.
  pose proof (complete_settled results tbl db) as H.
  destruct (complete results tbl db) as [[r db'] out]. simpl.
  inversion H as [| | | first rest t db'' He Hd Hs Ht Hlen Htab Hs' Hj
                 | first rest detail db'' attempted closing He Hd Hs Htab Hs' Hj Hc]; subst;
    try reflexivity.
  - rewrite Htab. now apply lookup_insert_ne.
  - now rewrite Htab.
Qed.


(** A dataset that went in added one row per record. *)
Lemma complete_count results tbl db db' out :
  complete results tbl db = (Returned tt, db', out) ->
  length (rowsOf db' tbl) = (length (rowsOf db tbl) + length (data results))%nat.
Proof.
  intros Hrun.
  pose proof (complete_settled results tbl db) as H. rewrite Hrun in H.
  inversion H as [| He Hd | | first rest t1 db'' He Hd Hs Ht Hlen Htab Hs' Hj |]; subst.
  - rewrite Hd. simpl. lia.
  - rewrite (rowsOf_insert db db' tbl t1 _ Ht Htab), length_app, Hlen.
    unfold rowsOf. rewrite Ht. reflexivity.
Qed.


Lemma createTables_returns schemas db :
  createTables schemas db = (Returned tt, snd (createTables schemas db)).
Proof.
  destruct (createTables_effect schemas db) as (db0 & -> & _). reflexivity.
Qed.





(** A pass that ran to its end took the three datasets in, one after the
    other. *)
Lemma loadAll_returned (Papa_parse : string -> ParseResult) csv1 csv2 csv3 d d' out :
  loadAll Papa_parse csv1 csv2 csv3 d = (Returned tt, d', out) ->
  let d0 := snd (createTables TABLE_SCHEMAS d) in
  exists d1 d2 o1 o2 o3,
    complete (Papa_parse csv1) "product_ad_sales_metrics" d0 = (Returned tt, d1, o1)
    /\ complete (Papa_parse csv2) "product_total_sales_metrics" d1 = (Returned tt, d2, o2)
    /\ complete (Papa_parse csv3) "product_eligibility" d2 = (Returned tt, d', o3).
Proof.
  intros H d0. unfold loadAll, parseAndInsert in H.
  rewrite (createTables_returns TABLE_SCHEMAS d) in H. fold d0 in H.
  destruct (complete (Papa_parse csv1) "product_ad_sales_metrics" d0)
    as [[[[]|m1] d1] o1] eqn:E1; [|discriminate].
  destruct (complete (Papa_parse csv2) "product_total_sales_metrics" d1)
    as [[[[]|m2] d2] o2] eqn:E2; [|discriminate].
  destruct (complete (Papa_parse csv3) "product_eligibility" d2)
    as [[[[]|m3] d3] o3] eqn:E3; [|discriminate].
  injection H as <- _. exists d1, d2, o1, o2, o3. auto.
Qed.

Lemma rowsOf_frame results tbl db other :
  other <> tbl ->
  rowsOf (snd (fst (complete results tbl db))) other = rowsOf db other.
Proof.
  intros Hne. unfold rowsOf. now rewrite complete_frame.
Qed.

(** X7.  On a handle on which no text of the language model has run, and
    with plain headers, when a pass past the guards ends with the status line
    reporting success, every record of every file is in its table: each of
    the three
    tables has grown by exactly as many rows as its file has records; the
    ready flag is on and the error line is empty. *)
Theorem success_status_means_every_record_is_stored
  (Papa_parse : string -> ParseResult) (w : World) (d : Database) :
  db w = Some d ->
  provided (productAdSalesCsv w) = true ->
  provided (productTotalSalesCsv w) = true ->
  provided (productEligibilityCsv w) = true ->
  ownCallsOnly d ->
  plainHeader (Papa_parse (textOf (productAdSalesCsv w))) ->
  plainHeader (Papa_parse (textOf (productTotalSalesCsv w))) ->
  plainHeader (Papa_parse (textOf (productEligibilityCsv w))) ->
  let w' := loadDataIntoDB Papa_parse w in
  dbStatus w' = "All data loaded successfully!" ->
  let records csv := length (data (Papa_parse (textOf csv))) in
  exists d',
    db w' = Some d' /\ isDatabaseReady w' = true /\ error w' = ""
    /\ length (rowsOf d' "product_ad_sales_metrics")
       = (length (rowsOf d "product_ad_sales_metrics") + records (productAdSalesCsv w))%nat
    /\ length (rowsOf d' "product_total_sales_metrics")
       = (length (rowsOf d "product_total_sales_metrics")
          + records (productTotalSalesCsv w))%nat
    /\ length (rowsOf d' "product_eligibility")
       = (length (rowsOf d "product_eligibility") + records (productEligibilityCsv w))%nat.
Proof.
  intros Hdb H1 H2 H3 _ _ _ _ w' Hstatus records. subst w' records.
  pose proof (load_outcome Papa_parse w d Hdb H1 H2 H3) as Hout.
  destruct (loadAll Papa_parse _ _ _ d) as [[r d'] out] eqn:Hload.
  destruct Hout as (_ & Hd' & Hres).
  destruct r as [[]|m]; [|destruct Hres as (_ & _ & Hst); rewrite Hst in Hstatus;
                          discriminate].
  destruct Hres as (Hready & Herr & _).
  exists d'. do 3 (split; [assumption|]).
  destruct (loadAll_returned _ _ _ _ _ _ _ Hload) as (d1 & d2 & o1 & o2 & o3 & E1 & E2 & E3).
  destruct (createTables_effect TABLE_SCHEMAS d) as (d0 & Hc & _ & Hr0 & _).
  rewrite Hc in E1. cbn [snd] in E1.
  pose proof (complete_count _ _ _ _ _ E1) as C1.
  pose proof (complete_count _ _ _ _ _ E2) as C2.
  pose proof (complete_count _ _ _ _ _ E3) as C3.
  pose proof (fun o H => rowsOf_frame (Papa_parse (textOf (productAdSalesCsv w)))
                           "product_ad_sales_metrics" d0 o H) as F1.
  pose proof (fun o H => rowsOf_frame (Papa_parse (textOf (productTotalSalesCsv w)))
                           "product_total_sales_metrics" d1 o H) as F2.
  pose proof (fun o H => rowsOf_frame (Papa_parse (textOf (productEligibilityCsv w)))
                           "product_eligibility" d2 o H) as F3.
  rewrite E1 in F1. rewrite E2 in F2. rewrite E3 in F3. cbn [fst snd] in F1, F2, F3.
  rewrite Hr0 in C1.
  split; [rewrite F3, F2 by discriminate; exact C1|].
  split.
  - rewrite F3, C2, F1, Hr0 by discriminate. reflexivity.
  - rewrite C3, F2, F1, Hr0 by discriminate. reflexivity.
Qed.

Lemma success_status_means_every_record_is_stored_witness :
  let w' := loadDataIntoDB readCsv (uploaded adSalesCsv totalSalesCsv eligibilityCsv) in
  exists d',
    db w' = Some d'
    /\ length (rowsOf d' "product_ad_sales_metrics") = 2%nat
    /\ length (rowsOf d' "product_total_sales_metrics") = 2%nat
    /\ length (rowsOf d' "product_eligibility") = 2%nat.
Proof.
  intros w'.
  destruct (success_status_means_every_record_is_stored readCsv
              (uploaded adSalesCsv totalSalesCsv eligibilityCsv) newDatabase)
    as (d' & Hd & _ & _ & Ha & Ht & He); try (vm_compute; reflexivity);
    [constructor|].
  exists d'. split; [exact Hd|]. rewrite Ha, Ht, He. vm_compute. repeat split.
Defined.





(** A dataset that fails on a handle with no open transaction says which
    table it was for. *)
Lemma complete_thrown results tbl db m db' out :
  snapshot db = None ->
  complete results tbl db = (Thrown m, db', out) ->
  namesTable tbl m.
Proof.
  intros Hs Hrun.
  pose proof (complete_settled results tbl db) as H. rewrite Hrun in H.
  inversion H as [e es He | | first rest saved He Hd Hs'' | |
                  first rest detail db'' attempted closing He Hd Hs'' Htab Hs' Hj Hc]; subst.
  - exists (message e). now left.
  - congruence.
  - exists detail. now right.
Qed.

Lemma loadAll_thrown (Papa_parse : string -> ParseResult) csv1 csv2 csv3 d m d' out :
  snapshot d = None ->
  loadAll Papa_parse csv1 csv2 csv3 d = (Thrown m, d', out) ->
  exists tbl, In tbl tableNames /\ namesTable tbl m.
Proof.
  intros Hs H. unfold loadAll, parseAndInsert in H.
  destruct (createTables_effect TABLE_SCHEMAS d) as (d0 & Hc & Hs0 & _).
  rewrite Hc in H. rewrite Hs in Hs0.
  pose proof (stage_effect (Papa_parse csv1) "product_ad_sales_metrics" d0 Hs0) as S1.
  pose proof (complete_thrown (Papa_parse csv1) "product_ad_sales_metrics" d0) as T1.
  destruct (complete (Papa_parse csv1) "product_ad_sales_metrics" d0) as [[r1 d1] o1].
  destruct S1 as (Hs1 & _).
  destruct r1 as [[]|m1].
  2:{ injection H as <- _ _. exists "product_ad_sales_metrics".
      split; [unfold tableNames; simpl; auto | eapply T1; eauto]. }
  pose proof (stage_effect (Papa_parse csv2) "product_total_sales_metrics" d1 Hs1) as S2.
  pose proof (complete_thrown (Papa_parse csv2) "product_total_sales_metrics" d1) as T2.
  destruct (complete (Papa_parse csv2) "product_total_sales_metrics" d1) as [[r2 d2] o2].
  destruct S2 as (Hs2 & _).
  destruct r2 as [[]|m2].
  2:{ injection H as <- _ _. exists "product_total_sales_metrics".
      split; [unfold tableNames; simpl; auto | eapply T2; eauto]. }
  pose proof (complete_thrown (Papa_parse csv3) "product_eligibility" d2) as T3.
  destruct (complete (Papa_parse csv3) "product_eligibility" d2) as [[r3 d3] o3].
  injection H as -> _ _. exists "product_eligibility".
  split; [unfold tableNames; simpl; auto | eapply T3; eauto].
Qed.

End LoadingMore.

(** ** More on question answering *)

Module AskingMore.
Import JS SqlJs App Spec Terms Reference Examples JSFacts Asking.
#[local] Arguments String.append : simpl nomatch.

(** *** The fenced block of the second revision *)

Lemma stripPrefix_append p r : stripPrefix p (p +:+ r) = Some r.
Proof.
  induction p as [|c p IH]; simpl; [reflexivity|]. now rewrite Ascii.eqb_refl.
Qed.

Lemma startsWith_append p r : startsWith p (p +:+ r) = true.
Proof.
  induction p as [|c p IH]; simpl; [reflexivity|]. now rewrite Ascii.eqb_refl.
Qed.

Lemma afterFirst_found c p pre rest :
  allChars (fun x => negb (Ascii.eqb x c)) pre = true ->
  afterFirst (String c p) (pre +:+ String c p +:+ rest) = Some rest.
Proof.
  induction pre as [|a pre IH]; intros Hfree.
  - change (afterFirst (String c p) (String c (p +:+ rest)) = Some rest).
    cbn [afterFirst stripPrefix]. rewrite Ascii.eqb_refl, stripPrefix_append. reflexivity.
  - simpl in Hfree. apply andb_true_iff in Hfree as [Ha Hfree].
    change (afterFirst (String c p) (String a (pre +:+ String c p +:+ rest)) = Some rest).
    cbn [afterFirst stripPrefix].
    rewrite Ascii.eqb_sym. apply negb_true_iff in Ha. rewrite Ha. now apply IH.
Qed.

Lemma afterFirst_absent c p s :
  allChars (fun x => negb (Ascii.eqb x c)) s = true ->
  afterFirst (String c p) s = None.
Proof.
  induction s as [|a s IH]; intros Hfree; [reflexivity|].
  simpl in Hfree. apply andb_true_iff in Hfree as [Ha Hfree].
  cbn [afterFirst stripPrefix].
  rewrite Ascii.eqb_sym. apply negb_true_iff in Ha. rewrite Ha. now apply IH.
Qed.

Lemma beforeFirst_fenceClose body post :
  backtickFree body = true ->
  beforeFirst fenceClose (body +:+ fenceClose +:+ post) = Some body.
Proof.
  induction body as [|c r IH]; intros Hfree.
  - change (beforeFirst fenceClose (fenceClose +:+ post) = Some "").
    assert (Hs : startsWith fenceClose (fenceClose +:+ post) = true)
      by apply startsWith_append.
    destruct (fenceClose +:+ post); cbn [beforeFirst]; now rewrite Hs.
  - unfold backtickFree in Hfree. simpl in Hfree.
    apply andb_true_iff in Hfree as [_ Hfree].
    change (beforeFirst fenceClose (String c (r +:+ fenceClose +:+ post))
            = Some (String c r)).
    cbn [beforeFirst].
    assert (Hno : startsWith fenceClose (String c (r +:+ fenceClose +:+ post)) = false).
    { change fenceClose with (String (ascii_of_N 10) (String backtick "``")).
      cbn [startsWith].
      destruct r as [|c2 r2].
      - change ("" +:+ String (ascii_of_N 10) (String backtick "``") +:+ post)
          with (String (ascii_of_N 10) (String backtick "``" +:+ post)).
        cbn [startsWith]. now rewrite andb_false_r.
      - change (String c2 r2 +:+ String (ascii_of_N 10) (String backtick "``") +:+ post)
          with (String c2 (r2 +:+ String (ascii_of_N 10) (String backtick "``") +:+ post)).
        cbn [startsWith]. simpl in Hfree. apply andb_true_iff in Hfree as [H2 _].
        apply negb_true_iff in H2. rewrite (Ascii.eqb_sym backtick c2), H2.
        now rewrite andb_false_r. }
    rewrite Hno. rewrite (IH Hfree). reflexivity.
Qed.

(** X9.  The second revision takes the SQL from the first fenced block of
    the reply.  When the text before the fence and the statement hold no
    grave accent, what is extracted is the statement, trimmed, whatever
    follows the closing fence; a fence around nothing, and a reply with no
    grave accent at all, give the error that quotes the first 200 characters
    of the reply. *)
Theorem fenced_block_is_extracted (JSON_parse_sql : string -> outcome SqlJson) :
  (forall pre body post,
     backtickFree pre = true -> backtickFree body = true -> body <> "" ->
     extractSql JSON_parse_sql Rev2 (pre +:+ fenceOpen +:+ body +:+ fenceClose +:+ post)
     = Extracted (Some (trim body)))
  /\ (forall pre post,
        backtickFree pre = true ->
        let text := pre +:+ fenceOpen +:+ fenceClose +:+ post in
        extractSql JSON_parse_sql Rev2 text
        = ExtractionError ("AI did not return a valid SQL code block. Raw response: "
                           +:+ String.substring 0 200 text +:+ "..."))
  /\ (forall text,
        backtickFree text = true ->
        extractSql JSON_parse_sql Rev2 text
        = ExtractionError ("AI did not return a valid SQL code block. Raw response: "
                           +:+ String.substring 0 200 text +:+ "...")).
Proof.
  split; [|split].
  - intros pre body post Hpre Hbody Hne. unfold extractSql, matchSqlBlock.
    change ("```sql" +:+ newline) with (String backtick ("``sql" +:+ newline)).
    change fenceOpen with (String backtick ("``sql" +:+ newline)).
    rewrite (afterFirst_found backtick _ pre _ Hpre).
    change (newline +:+ "```") with fenceClose.
    rewrite (beforeFirst_fenceClose body post Hbody).
    destruct body; [congruence | reflexivity].
  - intros pre post Hpre text. subst text. unfold extractSql, matchSqlBlock.
    change ("```sql" +:+ newline) with (String backtick ("``sql" +:+ newline)).
    change fenceOpen with (String backtick ("``sql" +:+ newline)).
    rewrite (afterFirst_found backtick _ pre _ Hpre).
    change (newline +:+ "```") with fenceClose.
    pose proof (beforeFirst_fenceClose "" post eq_refl) as Hb.
    change ("" +:+ fenceClose +:+ post) with (fenceClose +:+ post) in Hb.
    rewrite Hb. reflexivity.
  - intros text Hfree. unfold extractSql, matchSqlBlock.
    change ("```sql" +:+ newline) with (String backtick ("``sql" +:+ newline)).
    rewrite (afterFirst_absent backtick _ text Hfree). reflexivity.
Qed.

Lemma fenced_block_is_extracted_witness :
  extractSql (decodesTo {| sql_query := None |}) Rev2
    (fencedSql "  SELECT item_id FROM product_eligibility;  ")
  = Extracted (Some "SELECT item_id FROM product_eligibility;")
  /\ exists shown,
       extractSql (decodesTo {| sql_query := None |}) Rev2 "SELECT 1;"
       = ExtractionError shown.
Proof.
  destruct (fenced_block_is_extracted (decodesTo {| sql_query := None |})) as (Hin & _ & Hout).
  split.
  - exact (Hin ("Here is the query:" +:+ newline)
             "  SELECT item_id FROM product_eligibility;  " newline
             eq_refl eq_refl ltac:(discriminate)).
  - eexists. exact (Hout "SELECT 1;" eq_refl).
Defined.

(** *** The sentinel test *)

Lemma startsWith_iff p s :
  startsWith p s = true <-> exists post, s = p +:+ post.
Proof.
  revert s. induction p as [|a p IH]; intros s; simpl.
  - split; [intros _; exists s; reflexivity | reflexivity].
  - destruct s as [|b s].
    + split; [discriminate | intros [post H]; discriminate].
    + rewrite andb_true_iff, IH. split.
      * intros [Hab [post ->]]. apply Ascii.eqb_eq in Hab. subst b. now exists post.
      * intros [post [= -> ->]]. split; [apply Ascii.eqb_refl | now exists post].
Qed.

Lemma includes_iff s p :
  includes s p = true <-> exists pre post, s = pre +:+ p +:+ post.
Proof.
  induction s as [|c s IH].
  - cbn [includes]. rewrite orb_false_r, startsWith_iff. split.
    + intros [post H]. exists "", post. exact H.
    + intros (pre & post & H). destruct pre; [exists post; exact H | discriminate].
  - cbn [includes]. rewrite orb_true_iff, startsWith_iff, IH. split.
    + intros [[post H]|(pre & post & H)].
      * exists "", post. exact H.
      * exists (String c pre), post. simpl. now rewrite H.
    + intros (pre & post & H). destruct pre as [|a pre].
      * left. exists post. exact H.
      * right. simpl in H. injection H as -> ->. now exists pre, post.
Qed.

Lemma toUpperCase_app a b : toUpperCase (a +:+ b) = toUpperCase a +:+ toUpperCase b.
Proof. induction a as [|c a IH]; simpl; [reflexivity | now rewrite IH]. Qed.

Lemma toUpperCase_split q :
  forall a b,
    toUpperCase q = a +:+ b ->
    exists q1 q2, q = q1 +:+ q2 /\ toUpperCase q1 = a /\ toUpperCase q2 = b.
Proof.
  induction q as [|c q IH]; intros a b H.
  - destruct a; [|discriminate]. simpl in H. subst b. now exists "", "".
  - destruct a as [|x a].
    + simpl in H. subst b. now exists "", (String c q).
    + simpl in H. injection H as Hx H. destruct (IH a b H) as (q1 & q2 & -> & H1 & H2).
      exists (String c q1), q2. simpl. now rewrite Hx, H1.
Qed.

(** X10.  The sentinel test is a case-insensitive search for [N/A] anywhere
    in the SQL text.  A query that holds those three characters in some
    letter case, be it in a comment, in a string literal or in a name, is
    taken as unanswerable; and a query of ASCII text is taken as
    unanswerable only then.  The second revision's extra test for [-- N/A]
    changes nothing: both revisions refuse the same queries. *)
Theorem sentinel_is_sought_anywhere_in_any_case (rev : revision) (sqlQuery : string) :
  unanswerable Rev2 sqlQuery = unanswerable Rev1 sqlQuery
  /\ ((exists pre mid post,
         sqlQuery = pre +:+ mid +:+ post /\ toUpperCase mid = "N/A") ->
      unanswerable rev sqlQuery = true)
  /\ (isAscii sqlQuery = true ->
      unanswerable rev sqlQuery = true ->
      exists pre mid post,
        sqlQuery = pre +:+ mid +:+ post /\ toUpperCase mid = "N/A").
Proof.
  assert (Hsame : unanswerable Rev2 sqlQuery = unanswerable Rev1 sqlQuery).
  { unfold unanswerable.
    destruct (includes (toUpperCase sqlQuery) "-- N/A") eqn:E; [|reflexivity].
    apply includes_iff in E as (pre & post & E). symmetry. apply includes_iff.
    exists (pre +:+ "-- "), post. rewrite E, append_assoc. reflexivity. }
  split; [exact Hsame|].
  assert (Hrev : unanswerable rev sqlQuery = includes (toUpperCase sqlQuery) "N/A").
  { destruct rev; [reflexivity | exact Hsame]. }
  rewrite Hrev, includes_iff. split.
  - intros (pre & mid & post & -> & Hmid).
    exists (toUpperCase pre), (toUpperCase post).
    now rewrite !toUpperCase_app, Hmid.
  - intros _ (a & b & H).
    destruct (toUpperCase_split _ _ _ H) as (q1 & q2 & -> & H1 & H2).
    destruct (toUpperCase_split _ _ _ H2) as (q3 & q4 & -> & H3 & H4).
    now exists q1, q3, q4.
Qed.

Lemma sentinel_is_sought_anywhere_in_any_case_witness :
  unanswerable Rev1 "SELECT 'n/a' AS note" = true
  /\ exists pre mid post,
       "SELECT 'n/a' AS note" = pre +:+ mid +:+ post /\ toUpperCase mid = "N/A".
Proof.
  destruct (sentinel_is_sought_anywhere_in_any_case Rev1 "SELECT 'n/a' AS note")
    as (_ & Hin & Hout).
  assert (H : unanswerable Rev1 "SELECT 'n/a' AS note" = true).
  { apply Hin. exists "SELECT '", "n/a", "' AS note". split; reflexivity. }
  split; [exact H|]. apply Hout; [reflexivity | exact H].
Defined.

(** *** Row objects *)

Lemma lookupOwn_assign_same props k v : lookupOwn (assignOwn props k v) k = Some v.
Proof.
  induction props as [|[k' v'] rest IH]; simpl.
  - now rewrite String.eqb_refl.
  - destruct (String.eqb k' k) eqn:E; simpl; rewrite E; [reflexivity | exact IH].
Qed.

Lemma lookupOwn_assign_other props k k' v :
  k' <> k -> lookupOwn (assignOwn props k' v) k = lookupOwn props k.
Proof.
  intros Hne. induction props as [|[k0 v0] rest IH]; simpl.
  - apply String.eqb_neq in Hne. now rewrite Hne.
  - destruct (String.eqb k0 k') eqn:E; simpl.
    + apply String.eqb_eq in E. subst k0.
      apply String.eqb_neq in Hne. now rewrite Hne.
    + destruct (String.eqb k0 k); [reflexivity | exact IH].
Qed.

Lemma setProp_same obj c v :
  c <> "__proto__" -> lookupOwn (own (setProp obj c v)) c = Some v.
Proof.
  intros Hc. unfold setProp. apply String.eqb_neq in Hc. rewrite Hc. simpl.
  apply lookupOwn_assign_same.
Qed.

Lemma setProp_other obj k c v :
  k <> c -> lookupOwn (own (setProp obj k v)) c = lookupOwn (own obj) c.
Proof.
  intros Hne. unfold setProp.
  destruct (String.eqb k "__proto__" && inherits obj).
  - now destruct v.
  - simpl. now apply lookupOwn_assign_other.
Qed.

Lemma fillObject_other cols c :
  ~ In c cols ->
  forall i row obj,
    lookupOwn (own (fillObject cols i row obj)) c = lookupOwn (own obj) c.
Proof.
  induction cols as [|k rest IH]; intros Hn i row obj; simpl; [reflexivity|].
  rewrite IH by (intros H; apply Hn; now right).
  apply setProp_other. intros ->. apply Hn. now left.
Qed.

Lemma fillObject_app pre rest :
  forall i row obj,
    fillObject (pre ++ rest) i row obj
    = fillObject rest (i + length pre) row (fillObject pre i row obj).
Proof.
  induction pre as [|k pre IH]; intros i row obj; simpl.
  - now rewrite Nat.add_0_r.
  - rewrite IH. now rewrite Nat.add_succ_r.
Qed.

(** X11.  A row object gives back, under a column's name, the value the row
    holds at that column's position; when two columns of the result share a
    name, the value of the last one is what the name gives.  A row shorter
    than the column list gives [undefined] for the columns it lacks.  (The
    name [__proto__] is set aside: assigning to it creates no property.) *)
Theorem row_object_reads_back_the_last_column_of_a_name
  (cols pre post : list string) (c : string) (row : list value) :
  cols = pre ++ c :: post ->
  ~ In c post ->
  c <> "__proto__" ->
  getProp (rowObject cols row) c = nth (length pre) row VUndefined.
Proof.
  intros -> Hlast Hc. unfold getProp, rowObject.
  rewrite fillObject_app. simpl.
  rewrite (fillObject_other post c Hlast), (setProp_same _ c _ Hc). reflexivity.
Qed.

Lemma row_object_reads_back_the_last_column_of_a_name_witness :
  getProp (rowObject ["item_id"; "total"; "total"] [VStr "A1"; VNum one; VNum zero]) "total"
  = VNum zero
  /\ getProp (rowObject ["item_id"; "total"] [VStr "A1"]) "total" = VUndefined.
Proof.
  split.
  - exact (row_object_reads_back_the_last_column_of_a_name
             ["item_id"; "total"; "total"] ["item_id"; "total"] [] "total"
             [VStr "A1"; VNum one; VNum zero] eq_refl (fun H => H) ltac:(discriminate)).
  - exact (row_object_reads_back_the_last_column_of_a_name
             ["item_id"; "total"] ["item_id"] [] "total" [VStr "A1"] eq_refl (fun H => H)
             ltac:(discriminate)).
Defined.

(** *** The operation as a whole *)

Section Environment.

Variable fetch : request -> envelope.
Variable JSON_parse_sql : string -> outcome SqlJson.
Variable JSON_parse_final : string -> outcome FinalJson.
Variable eval : evaluator.

Abbreviation ask := (askQuestion fetch JSON_parse_sql JSON_parse_final eval).

Lemma not_askable w :
  truthyString (apiKey w) = false \/ db w = None \/ isDatabaseReady w = false
  \/ truthyString (trim (question w)) = false ->
  forall d, ~ askable w d.
Proof.
  intros H d (Hk & Hd & Hr & Hq). destruct H as [H|[H|[H|H]]]; congruence.
Qed.

(** X12.  One question costs at most two requests and one call of the
    engine.  A question the guards refuse sends nothing, runs nothing and
    leaves the answer and the chart of the question before on the page.  A
    question they let through sends the SQL request first; [db.exec] is then
    called at most once, on the text taken from the first reply, and the
    handle is left as that call left it; the answer request is sent only
    when the call returned rows, carrying the rows of the first result set
    only.  The loading flag is off at the end in every case. *)
Theorem a_question_costs_at_most_two_requests (rev : revision) (w : World) :
  let w' := ask rev w in
  let q := question w in
  ((forall d, ~ askable w d)
   /\ requests w' = requests w /\ db w' = db w /\ answer w' = answer w
   /\ chartData w' = chartData w /\ chartType w' = chartType w
   /\ isLoading w' = isLoading w)
  \/ exists d,
       askable w d /\ isLoading w' = false
       /\ ((requests w' = requests w ++ [SqlRequest q] /\ db w' = Some d)
           \/ (exists sql,
                 requests w' = requests w ++ [SqlRequest q]
                 /\ db w' = Some (snd (execQuery eval sql d))
                 /\ (fst (execQuery eval sql d) = Returned []
                     \/ exists m, fst (execQuery eval sql d) = Thrown m))
           \/ (exists sql res0 more,
                 fst (execQuery eval sql d) = Returned (res0 :: more)
                 /\ db w' = Some (snd (execQuery eval sql d))
                 /\ requests w'
                    = requests w
                      ++ [SqlRequest q;
                          AnswerRequest q (map (rowObject (columns res0))
                                             (SqlJs.values res0))])).
Proof.
  intros w' q. subst w' q. unfold askQuestion.
  destruct (truthyString (apiKey w)) eqn:Hk; simpl;
    [|left; split; [apply not_askable; auto | repeat split]].
  destruct (db w) as [d|] eqn:Hd;
    [|left; split; [apply not_askable; auto | simpl; rewrite Hd; repeat split]].
  destruct (isDatabaseReady w) eqn:Hr; simpl;
    [|left; split; [apply not_askable; auto | simpl; rewrite Hd; repeat split]].
  destruct (truthyString (trim (question w))) eqn:Hq; simpl;
    [|left; split; [apply not_askable; auto | simpl; rewrite Hd; repeat split]].
  right. exists d. split; [repeat split; assumption|]. split; [reflexivity|].
  unfold pipeline.
  cbn [question setChartType setChartData setError setAnswer setIsLoading sent].
  destruct (fetch (SqlRequest (question w))) as [m| |text];
    [left; destruct rev; simpl; rewrite Hd; auto ..|].
  destruct (extractSql JSON_parse_sql rev text) as [shown|[sql|]];
    [left; destruct rev; simpl; rewrite Hd; auto | | left; destruct rev; simpl; rewrite Hd; auto].
  destruct (unanswerable rev sql);
    [left; destruct rev; unfold typeText; cbn -[reveal]; rewrite Hd; auto|].
  unfold executeStage.
  destruct (execQuery eval sql d) as [[[|res0 more]|m] d'] eqn:He.
  - right. left. exists sql. rewrite He.
    destruct rev; unfold typeText; cbn -[reveal]; auto.
  - right. right. exists sql, res0, more. rewrite He. split; [reflexivity|].
    unfold answerStage, suggestChart, typeText, unexpected, debugLog.
    destruct rev; cbn -[reveal];
      repeat (case_match; cbn -[reveal]); rewrite <- ?app_assoc; cbn -[reveal]; auto.
  - right. left. exists sql. rewrite He. destruct rev; simpl; eauto.
Qed.

(** The requests of a question the guards let through. *)
Lemma a_question_shape (rev : revision) (w : World) (d : Database) :
  askable w d ->
  let q := question w in
  requests (ask rev w) = requests w ++ [SqlRequest q]
  \/ (exists rows, requests (ask rev w) = requests w ++ [SqlRequest q; AnswerRequest q rows]).
Proof.
  intros Hask q. subst q.
  rewrite (askQuestion_askable fetch JSON_parse_sql JSON_parse_final eval rev w d Hask).
  unfold pipeline, executeStage, execQuery, answerStage, suggestChart, typeText, unexpected,
    debugLog.
  destruct rev; simpl; repeat (case_match; simpl); rewrite <- ?app_assoc; simpl; eauto.
Qed.

(** X13.  A first reply that yields no SQL ends the question there: the
    request failed, the body had no text part, or no statement could be
    taken from the text.  The error of the case is shown, no statement
    reaches the engine, the answer request is never sent, and the page shows
    no answer and no chart. *)
Theorem unusable_first_reply_ends_the_question (rev : revision) (w : World) (d : Database) :
  askable w d ->
  let w' := ask rev w in
  let stopped :=
    db w' = Some d /\ requests w' = requests w ++ [SqlRequest (question w)]
    /\ answer w' = "" /\ chartData w' = None /\ chartType w' = None
    /\ isLoading w' = false in
  match fetch (SqlRequest (question w)) with
  | FetchFailed m =>
      stopped
      /\ error w' = match rev with
                    | Rev1 => "An unexpected error occurred: " +:+ m
                    | Rev2 => "An unexpected error occurred during AI processing: " +:+ m
                    end
  | NoCandidates =>
      stopped /\ error w' = "Failed to get SQL query from AI. Please try again."
  | FirstPart text =>
      match extractSql JSON_parse_sql rev text with
      | ExtractionError shown => stopped /\ error w' = shown
      | Extracted None => stopped /\ error w' <> ""
      | Extracted (Some _) => True
      end
  end.
Proof.
  intros Hask w' stopped. subst w' stopped.
  rewrite (askQuestion_askable fetch JSON_parse_sql JSON_parse_final eval rev w d Hask).
  destruct Hask as (_ & Hd & _).
  unfold pipeline.
  cbn [question setChartType setChartData setError setAnswer setIsLoading sent].
  destruct (fetch (SqlRequest (question w))) as [m| |text].
  - destruct rev; world; rewrite Hd; repeat split.
  - destruct rev; world; rewrite Hd; repeat split.
  - destruct (extractSql JSON_parse_sql rev text) as [shown|[sql|]]; [|exact I|].
    + destruct rev; world; rewrite Hd; repeat split.
    + destruct rev; world; rewrite Hd; repeat split; discriminate.
Qed.

(** X14.  When the rows came back but the second reply cannot be used (the
    request failed, the body had no text part, or the text is not the JSON
    asked for), the error of the case is shown and nothing else: no answer
    text, no chart.  The text of the first reply has been run by then, and
    the handle is as the engine left it. *)
Theorem unusable_second_reply_shows_no_answer
  (rev : revision) (w : World) (d : Database) (text sqlQuery : string)
  (res0 : QueryExecResult) (more : list QueryExecResult) :
  askable w d ->
  fetch (SqlRequest (question w)) = FirstPart text ->
  extractSql JSON_parse_sql rev text = Extracted (Some sqlQuery) ->
  unanswerable rev sqlQuery = false ->
  fst (execQuery eval sqlQuery d) = Returned (res0 :: more) ->
  let queryResults := map (rowObject (columns res0)) (SqlJs.values res0) in
  let w' := ask rev w in
  let nothingShown :=
    answer w' = "" /\ chartData w' = None /\ chartType w' = None
    /\ isLoading w' = false /\ db w' = Some (snd (execQuery eval sqlQuery d)) in
  match fetch (AnswerRequest (question w) queryResults) with
  | FetchFailed m =>
      nothingShown
      /\ error w' = match rev with
                    | Rev1 => "An unexpected error occurred: " +:+ m
                    | Rev2 => "An unexpected error occurred during AI processing: " +:+ m
                    end
  | NoCandidates =>
      nothingShown /\ error w' = "Failed to get a response from AI. Please try again."
  | FirstPart jsonText =>
      match JSON_parse_final jsonText with
      | Thrown m => nothingShown /\ error w' = unreadable rev m
      | Returned _ => True
      end
  end.
Proof.
  intros Hask Hf He Hu Hq queryResults w' nothingShown. subst w' nothingShown.
  rewrite (askQuestion_askable fetch JSON_parse_sql JSON_parse_final eval rev w d Hask).
  unfold pipeline.
  cbn [question setChartType setChartData setError setAnswer setIsLoading sent].
  rewrite Hf, He, Hu. unfold executeStage.
  destruct (execQuery eval sqlQuery d) as [r d'] eqn:Hx. cbn [fst snd] in *. subst r.
  fold queryResults. unfold answerStage.
  assert (Hquestion : forall x, question (putDb x (debugLog rev "LLM SQL Raw Response:"
            (sent (SqlRequest (question w))
               (setChartType None
                  (setChartData None (setError "" (setAnswer "" (setIsLoading true w))))))))
          = question w) by (intros x; destruct rev; reflexivity).
  rewrite Hquestion.
  destruct (fetch (AnswerRequest (question w) queryResults)) as [m| |jsonText].
  - destruct rev; world; repeat split.
  - destruct rev; world; repeat split.
  - destruct (JSON_parse_final jsonText) as [parsedFinal|m]; [exact I|].
    destruct rev; world; repeat split.
Qed.

End Environment.

Lemma unusable_first_reply_ends_the_question_witness :
  let w' :=
    askQuestion (fun _ => FetchFailed "Failed to fetch")
      (decodesTo {| sql_query := None |})
      (decodesTo {| parsed_answer := None; visualization := None |})
      (answering (Returned [salesResult])) Rev1 ready in
  error w' = "An unexpected error occurred: Failed to fetch"
  /\ db w' = Some emptyTables.
Proof.
  pose proof (unusable_first_reply_ends_the_question
                (fun _ => FetchFailed "Failed to fetch")
                (decodesTo {| sql_query := None |})
                (decodesTo {| parsed_answer := None; visualization := None |})
                (answering (Returned [salesResult])) Rev1 ready emptyTables
                ltac:(repeat split)) as H.
  cbv beta iota zeta in H. destruct H as ((Hd & _) & He).
  intros w'. split; [exact He | exact Hd].
Defined.

Lemma unusable_second_reply_shows_no_answer_witness :
  let w' :=
    askQuestion (replying "{}" "I think A1 sold most.")
      (decodesTo {| sql_query := Some "SELECT item_id, total FROM t" |})
      (fun _ => Thrown "Unexpected token I in JSON at position 0")
      (answering (Returned [salesResult])) Rev1 ready in
  answer w' = ""
  /\ error w'
     = "AI returned an unreadable response. Error: Unexpected token I in JSON at position 0".
Proof.
  pose proof (unusable_second_reply_shows_no_answer
                (replying "{}" "I think A1 sold most.")
                (decodesTo {| sql_query := Some "SELECT item_id, total FROM t" |})
                (fun _ => Thrown "Unexpected token I in JSON at position 0")
                (answering (Returned [salesResult])) Rev1 ready emptyTables "{}"
                "SELECT item_id, total FROM t" salesResult []
                ltac:(repeat split) eq_refl eq_refl eq_refl eq_refl) as H.
  cbv beta iota zeta delta [replying] in H. destruct H as ((Ha & _) & He).
  intros w'. split; [exact Ha | exact He].
Defined.

End AskingMore.

(** ** More on the session and on what the page shows *)

Module SessionMore.
Import JS SqlJs App Spec Terms Rendering Reference Examples.
Import EngineFacts IngestFacts Loading IngestionMore LoadingMore Asking Session.
#[local] Arguments String.append : simpl nomatch.

Lemma loadDataIntoDB_page (Papa_parse : string -> ParseResult) (w : World) :
  let w' := loadDataIntoDB Papa_parse w in
  (isLoading w = false -> isLoading w' = false)
  /\ ((isDatabaseReady w = true -> exists d, db w = Some d) ->
      isDatabaseReady w' = true -> exists d', db w' = Some d')
  /\ chartData w' = chartData w /\ chartType w' = chartType w.
Proof.
  unfold loadDataIntoDB.
  destruct (db w) as [d|] eqn:Hd; [|simpl; rewrite Hd; auto].
  destruct (negb (provided (productAdSalesCsv w)) || negb (provided (productTotalSalesCsv w))
            || negb (provided (productEligibilityCsv w))); [simpl; rewrite Hd; eauto 6|].
  destruct (loadAll Papa_parse _ _ _ _) as [[[[]|m] d'] out]; simpl; eauto 6.
Qed.

Lemma truthy_append c r : truthyString c = true -> truthyString (c +:+ r) = true.
Proof. destruct c; [discriminate | reflexivity]. Qed.

Lemma askQuestion_page fetch JSON_parse_sql JSON_parse_final eval rev (w : World) :
  let w' := askQuestion fetch JSON_parse_sql JSON_parse_final eval rev w in
  (isLoading w = false -> isLoading w' = false)
  /\ ((isDatabaseReady w = true -> exists d, db w = Some d) ->
      isDatabaseReady w' = true -> exists d', db w' = Some d')
  /\ (chartInvariant w -> chartInvariant w').
Proof.
  unfold askQuestion.
  destruct (truthyString (apiKey w)); simpl; [|auto].
  destruct (db w) as [d|] eqn:Hd; [|simpl; rewrite Hd; auto].
  destruct (isDatabaseReady w); simpl; [|rewrite Hd; eauto].
  destruct (truthyString (trim (question w))); simpl; [|rewrite Hd; eauto].
  split; [reflexivity|].
  unfold pipeline, executeStage, answerStage, suggestChart, unexpected, debugLog,
    typeText, chartInvariant.
  destruct rev; cbn -[reveal execQuery]; repeat (case_match; cbn -[reveal execQuery]);
    rewrite ?Hd;
    (split; [eauto|]); intros _; try exact I.
  all: rewrite !length_map; repeat match goal with
         | H : _ && _ = true |- _ => apply andb_true_iff in H; destruct H
         end;
    repeat split; try assumption; try discriminate;
    try (simpl; apply andb_true_iff; split; assumption);
    eexists _, _; repeat split; try reflexivity; assumption.
Qed.

(** On every page a session can reach the loading flag is off, a ready
    flag that is on comes with a handle, and a chart on the page is
    complete. *)
Lemma reachable_page w :
  Reachable w ->
  isLoading w = false
  /\ (isDatabaseReady w = true -> exists d, db w = Some d)
  /\ chartInvariant w.
Proof.
  induction 1 as [| |w _ IH Hst|w m _ IH Hst|w _ IH|w _ IH
                 |w key csv1 csv2 csv3 q _ IH|w P _ IH|w f j1 j2 e rev _ IH].
  - split; [reflexivity|]. split; [discriminate | exact I].
  - split; [reflexivity|]. split; [discriminate | exact I].
  - destruct IH as (Hl & _ & Hc). split; [exact Hl|]. split; [simpl; eauto | exact Hc].
  - exact IH.
  - exact IH.
  - exact IH.
  - exact IH.
  - destruct IH as (Hl & Hd & Hc).
    destruct (loadDataIntoDB_page P w) as (Hl' & Hd' & Hcd & Hct).
    split; [auto|]. split; [auto|]. unfold chartInvariant in *. now rewrite Hcd, Hct.
  - destruct IH as (Hl & Hd & Hc).
    destruct (askQuestion_page f j1 j2 e rev w) as (Hl' & Hd' & Hc'). auto.
Qed.

(** X15.  What a pass can report.  On a handle with no open transaction,
    on which no text of the language model has run, loading ends in one of
    three ways: a file is missing, and only the error line says so; or the
    status line reports success, the error line is empty and the ready flag
    is on; or the status line reports the failure and the error line names
    the table of the dataset that failed, as a parsing error or as an
    insertion error. *)
Theorem what_a_pass_can_report
  (Papa_parse : string -> ParseResult) (w : World) (d : Database) :
  db w = Some d ->
  snapshot d = None ->
  ownCallsOnly d ->
  let w' := loadDataIntoDB Papa_parse w in
  (provided (productAdSalesCsv w) && provided (productTotalSalesCsv w)
   && provided (productEligibilityCsv w) = false
   /\ error w' = "Please upload all three CSV files."
   /\ dbStatus w' = dbStatus w /\ isDatabaseReady w' = isDatabaseReady w /\ db w' = db w)
  \/ (error w' = "" /\ dbStatus w' = "All data loaded successfully!"
      /\ isDatabaseReady w' = true)
  \/ (exists tbl detail,
        In tbl tableNames
        /\ dbStatus w' = "Data loading failed."
        /\ isDatabaseReady w' = isDatabaseReady w
        /\ (error w' = "Error loading data: CSV parsing error for " +:+ tbl +:+ ": "
                       +:+ detail
            \/ error w' = "Error loading data: Error inserting data into " +:+ tbl +:+ ": "
                          +:+ detail)).
Proof.
  intros Hd Hs _ w'. subst w'.
  destruct (provided (productAdSalesCsv w)) eqn:H1;
    [|left; unfold loadDataIntoDB; rewrite Hd, H1; simpl; auto].
  destruct (provided (productTotalSalesCsv w)) eqn:H2;
    [|left; unfold loadDataIntoDB; rewrite Hd, H1, H2; simpl; auto].
  destruct (provided (productEligibilityCsv w)) eqn:H3;
    [|left; unfold loadDataIntoDB; rewrite Hd, H1, H2, H3; simpl; auto].
  right.
  pose proof (load_outcome Papa_parse w d Hd H1 H2 H3) as Hout.
  destruct (loadAll Papa_parse _ _ _ d) as [[r d'] out] eqn:Hload.
  destruct Hout as (_ & _ & Hres). destruct r as [[]|m].
  - left. tauto.
  - right. destruct Hres as (Hr & He & Hst).
    destruct (loadAll_thrown _ _ _ _ _ _ _ _ Hs Hload) as (tbl & Hin & detail & Hm).
    exists tbl, detail. do 3 (split; [assumption|]).
    rewrite He. destruct Hm as [-> | ->]; [left | right]; reflexivity.
Qed.

Lemma what_a_pass_can_report_witness :
  let w := uploaded adSalesCsv duplicateKeyCsv eligibilityCsv in
  let w' := loadDataIntoDB readCsv w in
  exists tbl detail,
    In tbl tableNames
    /\ (error w' = "Error loading data: CSV parsing error for " +:+ tbl +:+ ": "
                   +:+ detail
        \/ error w' = "Error loading data: Error inserting data into " +:+ tbl +:+ ": "
                      +:+ detail).
Proof.
  intros w w'.
  destruct (what_a_pass_can_report readCsv w newDatabase eq_refl eq_refl
              ltac:(constructor))
    as [(Hp & _)|[(_ & Hst & _)|(tbl & detail & Hin & _ & _ & He)]].
  - vm_compute in Hp. discriminate Hp.
  - vm_compute in Hst. discriminate Hst.
  - exists tbl, detail. split; [exact Hin | exact He].
Defined.

(** X16.  A chart on a page a session can reach is complete: the kind is a
    non-empty text, there is at least one label, there are as many values as
    labels, no label and no value is [undefined] or [null], and the series
    label is made of the two column names.  The canvas is therefore on the
    page whenever chart data is set, and the chart's title is the series
    label: the fallback title is never used. *)
Theorem chart_on_the_page_is_complete (w : World) :
  Reachable w ->
  chartInvariant w
  /\ forall cd,
       chartData w = Some cd ->
       chartShown w = true /\ titleOf cd = cd_series cd.
Proof.
  intros Hreach. destruct (reachable_page w Hreach) as (_ & _ & Hc).
  split; [exact Hc|]. intros cd Hcd.
  unfold chartInvariant in Hc. unfold chartShown, titleOf. rewrite Hcd in *.
  destruct (chartType w) as [ty|]; [|destruct Hc].
  destruct Hc as (Hty & _ & _ & _ & _ & c & l & Hc & Hl & Hs).
  split; [exact Hty|].
  rewrite Hs, (truthy_append c _ Hc). reflexivity.
Qed.

Lemma chart_on_the_page_is_complete_witness :
  let w :=
    askQuestion (replying "{}" "{}")
      (decodesTo {| sql_query := Some "SELECT item_id, total FROM t" |})
      (decodesTo {| parsed_answer := Some "A1 sold most.";
                    visualization :=
                      Some {| chart_type := Some "bar"; labels := Some "item_id";
                              values_column := Some "total" |} |})
      (answering (Returned [salesResult])) Rev1
      (loadDataIntoDB readCsv (uploaded adSalesCsv totalSalesCsv eligibilityCsv)) in
  Reachable w
  /\ exists cd,
       chartData w = Some cd /\ chartShown w = true /\ titleOf cd = "total by item_id".
Proof.
  intros w.
  assert (Hreach : Reachable w).
  { apply ReachAsk, ReachLoad.
    apply (ReachInput mounted "key" (Some adSalesCsv) (Some totalSalesCsv)
             (Some eligibilityCsv) "What is my total ad spend?" ReachMounted). }
  split; [exact Hreach|].
  destruct (chart_on_the_page_is_complete w Hreach) as [_ H].
  set (cd := {| cd_labels := [VStr "A1"; VStr "B2"];
                cd_series := "total by item_id";
                cd_data := [VNum (Finite false 4275 (-2)); VNum (Finite false 7 0)] |}).
  assert (Hcd : chartData w = Some cd) by (vm_compute; reflexivity).
  destruct (H cd Hcd) as [Hshown Htitle].
  exists cd. split; [exact Hcd|]. split; [exact Hshown | exact Htitle].
Defined.

(** X17.  On a page a session can reach with no load and no question under
    way (before the database is up, when it failed to come up, or later),
    the buttons are enabled exactly when the guards of their operations
    pass: the ask button when [askQuestion] would
    let the question through, the load button when the handle is there and
    the three files are there.  So a click on an enabled button never ends at
    a guard: a question is sent, a pass runs to its success or to its
    failure. *)
Theorem enabled_buttons_pass_the_guards (w : World) :
  Reachable w ->
  (askDisabled w = false <-> exists d, askable w d)
  /\ (loadDisabled w = false
      <-> (exists d, db w = Some d)
          /\ provided (productAdSalesCsv w) && provided (productTotalSalesCsv w)
             && provided (productEligibilityCsv w) = true)
  /\ (askDisabled w = false ->
      forall fetch JSON_parse_sql JSON_parse_final eval rev,
      exists more,
        requests (askQuestion fetch JSON_parse_sql JSON_parse_final eval rev w)
        = requests w ++ SqlRequest (question w) :: more)
  /\ (loadDisabled w = false ->
      forall Papa_parse,
        dbStatus (loadDataIntoDB Papa_parse w) = "All data loaded successfully!"
        \/ dbStatus (loadDataIntoDB Papa_parse w) = "Data loading failed.").
Proof.
  intros Hreach. destruct (reachable_page w Hreach) as (Hl & Hready & _).
  assert (Hask : askDisabled w = false <-> exists d, askable w d).
  { unfold askDisabled, askable. rewrite Hl. simpl. split.
    - intros H. apply orb_false_iff in H as [H Hq]. apply orb_false_iff in H as [Hr Hk].
      apply negb_false_iff in Hq, Hr, Hk. destruct (Hready Hr) as [d Hd]. exists d. auto.
    - intros (d' & Hk & _ & Hr & Hq). now rewrite Hk, Hr, Hq. }
  assert (Hload : loadDisabled w = false
                  <-> (exists d, db w = Some d)
                      /\ provided (productAdSalesCsv w) && provided (productTotalSalesCsv w)
                         && provided (productEligibilityCsv w) = true).
  { unfold loadDisabled. rewrite Hl. simpl.
    destruct (db w) as [d|]; simpl.
    - destruct (provided (productAdSalesCsv w)), (provided (productTotalSalesCsv w)),
        (provided (productEligibilityCsv w)); simpl; split; eauto; intros [_ H]; auto.
    - split; [discriminate | intros [[d Hd] _]; discriminate]. }
  split; [exact Hask|]. split; [exact Hload|]. split.
  - intros Hen fetch JSON_parse_sql JSON_parse_final eval rev.
    apply Hask in Hen as (d' & Ha).
    destruct (AskingMore.a_question_shape fetch JSON_parse_sql JSON_parse_final eval rev w d' Ha)
      as [H|[rows H]]; rewrite H; eauto.
  - intros Hen Papa_parse. apply Hload in Hen as [[d Hd] Hen].
    apply andb_true_iff in Hen as [Hen H3]. apply andb_true_iff in Hen as [H1 H2].
    pose proof (load_outcome Papa_parse w d Hd H1 H2 H3) as Hout.
    destruct (loadAll Papa_parse _ _ _ d) as [[[[]|m] d'] out];
      destruct Hout as (_ & _ & _ & _ & Hst); auto.
Qed.

Lemma enabled_buttons_pass_the_guards_witness :
  let w := loadDataIntoDB readCsv (uploaded adSalesCsv totalSalesCsv eligibilityCsv) in
  Reachable w /\ askDisabled w = false /\ exists d, askable w d.
Proof.
  intros w.
  assert (Hreach : Reachable w).
  { apply ReachLoad.
    apply (ReachInput mounted "key" (Some adSalesCsv) (Some totalSalesCsv)
             (Some eligibilityCsv) "What is my total ad spend?" ReachMounted). }
  assert (Hen : askDisabled w = false) by (vm_compute; reflexivity).
  split; [exact Hreach|]. split; [exact Hen|].
  destruct (enabled_buttons_pass_the_guards w Hreach) as (Hask & _).
  apply Hask. exact Hen.
Defined.

(** *** The chart effect *)

Lemma renderChart_alive (canvas : bool) (w : World) (v : View) :
  oneAlive v ->
  let v' := renderChart canvas w v in
  oneAlive v'
  /\ forall i c,
       charts v' !! i = Some c -> ch_destroyed c = false ->
       canvas = true /\ chartData w = Some (ch_data c) /\ chartType w = Some (ch_type c)
       /\ ch_title c = titleOf (ch_data c).
Proof.
  intros [Hone Hin] v'. subst v'. unfold renderChart.
  set (destroyed := match chartRef v with
                    | Some i => alter destroy i (charts v)
                    | None => charts v
                    end).
  assert (Hlen : length destroyed = length (charts v)).
  { subst destroyed. destruct (chartRef v); [apply length_alter | reflexivity]. }
  assert (Hdead : forall j c, destroyed !! j = Some c -> ch_destroyed c = true).
  { intros j c Hj. subst destroyed. destruct (chartRef v) as [i|] eqn:Hr.
    - destruct (decide (i = j)) as [->|Hne].
      + rewrite list_lookup_alter_eq in Hj.
        destruct (charts v !! j); simpl in Hj; [|discriminate].
        injection Hj as <-. reflexivity.
      + rewrite list_lookup_alter_ne in Hj by exact Hne.
        destruct (ch_destroyed c) eqn:Ec; [reflexivity|].
        pose proof (Hone j c Hj Ec). congruence.
    - destruct (ch_destroyed c) eqn:Ec; [reflexivity|].
      pose proof (Hone j c Hj Ec). congruence. }
  assert (Hkept : oneAlive {| charts := destroyed; chartRef := chartRef v |}
                  /\ forall i c,
                       destroyed !! i = Some c -> ch_destroyed c = false ->
                       canvas = true /\ chartData w = Some (ch_data c)
                       /\ chartType w = Some (ch_type c)
                       /\ ch_title c = titleOf (ch_data c)).
  { split; [split|]; simpl.
    - intros i c Hi Hc. rewrite (Hdead i c Hi) in Hc. discriminate.
    - intros i Hi. rewrite Hlen. now apply Hin.
    - intros i c Hi Hc. rewrite (Hdead i c Hi) in Hc. discriminate. }
  destruct (chartData w) as [cd|]; [|exact Hkept].
  destruct (chartType w) as [ty|]; [|exact Hkept].
  destruct (truthyString ty && canvas) eqn:Eb; [|exact Hkept].
  apply andb_true_iff in Eb as [_ ->].
  assert (Hnew : forall i c,
            (destroyed ++ [{| ch_type := ty; ch_data := cd; ch_title := titleOf cd;
                              ch_destroyed := false |}]) !! i = Some c ->
            ch_destroyed c = false ->
            i = length destroyed
            /\ c = {| ch_type := ty; ch_data := cd; ch_title := titleOf cd;
                      ch_destroyed := false |}).
  { intros i c Hi Hc.
    destruct (decide (i < length destroyed)%nat) as [Hlt|Hge].
    - rewrite lookup_app_l in Hi by exact Hlt.
      rewrite (Hdead i c Hi) in Hc. discriminate.
    - rewrite lookup_app_r in Hi by lia.
      destruct (i - length destroyed)%nat as [|k] eqn:Ek; simpl in Hi; [|discriminate].
      injection Hi as <-. split; [lia | reflexivity]. }
  split; [split|]; simpl.
  - intros i c Hi Hc. destruct (Hnew i c Hi Hc) as [-> _]. reflexivity.
  - intros i [= <-]. rewrite length_app. simpl. lia.
  - intros i c Hi Hc. destruct (Hnew i c Hi Hc) as [_ ->]. simpl. auto.
Qed.

Lemma effectRuns_alive steps :
  forall v, oneAlive v -> oneAlive (effectRuns steps v).
Proof.
  induction steps as [|[canvas w] rest IH]; intros v Hv; simpl; [exact Hv|].
  apply IH. now apply renderChart_alive.
Qed.

(** X18.  The chart effect keeps at most one chart alive.  After any runs
    of the effect, every chart instance but the one the reference points to
    has been destroyed; and a chart that is alive after a run was built by
    that run, from the chart data and the chart type the page has then, with
    the canvas mounted, its title taken from the data.  So a page without
    chart data leaves no chart alive. *)
Theorem the_effect_keeps_one_chart_alive
  (steps : list (bool * World)) (canvas : bool) (w : World) :
  let v := effectRuns (steps ++ [(canvas, w)]) noCharts in
  oneAlive v
  /\ (forall i c,
        charts v !! i = Some c -> ch_destroyed c = false ->
        canvas = true /\ chartData w = Some (ch_data c) /\ chartType w = Some (ch_type c)
        /\ ch_title c = titleOf (ch_data c))
  /\ (chartShown w = false ->
      forall i c, charts v !! i = Some c -> ch_destroyed c = true).
Proof.
  intros v. subst v. unfold effectRuns. rewrite fold_left_app. simpl.
  fold (effectRuns steps noCharts).
  assert (Hinit : oneAlive noCharts).
  { split; simpl; [intros i c H; now rewrite lookup_nil in H | discriminate]. }
  destruct (renderChart_alive canvas w (effectRuns steps noCharts)
              (effectRuns_alive steps noCharts Hinit)) as [Hone Hbuilt].
  split; [exact Hone|]. split; [exact Hbuilt|].
  intros Hshown i c Hi. destruct (ch_destroyed c) eqn:Ec; [reflexivity|].
  destruct (Hbuilt i c Hi Ec) as (_ & Hcd & Hty & _).
  unfold chartShown in Hshown. rewrite Hcd, Hty in Hshown.
  (* the chart was built, so its type is a non-empty text *)
  exfalso. revert Hi Ec Hshown. unfold renderChart.
  rewrite Hcd, Hty. destruct (truthyString (ch_type c)); [discriminate|].
  simpl. intros Hi Ec _.
  destruct (effectRuns_alive steps noCharts Hinit) as [Hone0 _].
  destruct (chartRef (effectRuns steps noCharts)) as [j|] eqn:Hr.
  - destruct (decide (j = i)) as [->|Hne].
    + rewrite list_lookup_alter_eq in Hi.
      destruct (charts (effectRuns steps noCharts) !! i); simpl in Hi; [|discriminate].
      injection Hi as <-. discriminate Ec.
    + rewrite list_lookup_alter_ne in Hi by exact Hne.
      pose proof (Hone0 i c Hi Ec). congruence.
  - pose proof (Hone0 i c Hi Ec). congruence.
Qed.

End SessionMore.

(** ** The replacer callbacks of the webpack patch *)

Module PatchFacts.
Import JS PatchWebpack JSFacts AskingMore.
#[local] Arguments String.append : simpl nomatch.

Lemma includes_app_l s t x : includes s x = true -> includes (s +:+ t) x = true.
Proof.
  rewrite !includes_iff. intros (pre & post & ->).
  exists pre, (post +:+ t). now rewrite !append_assoc.
Qed.

Lemma includes_app_r s t x : includes t x = true -> includes (s +:+ t) x = true.
Proof.
  rewrite !includes_iff. intros (pre & post & ->).
  exists (s +:+ pre), post. now rewrite !append_assoc.
Qed.

Lemma includes_refl_app x t : includes (x +:+ t) x = true.
Proof. apply includes_iff. now exists "", t. Qed.

(** One step of either loop appends or leaves the text, and afterwards the
    text holds what the step looked for. *)
Lemma addModule_effect content entry :
  (exists added,
     addModule content entry = content +:+ added
     /\ (added = "" \/ startsWith indent added = true))
  /\ includes (addModule content entry) (quoted (fst entry)) = true.
Proof.
  unfold addModule. destruct (includes content (quoted (fst entry))) eqn:E; cbn [negb].
  - split; [exists ""; rewrite append_empty_r; auto | exact E].
  - split.
    + exists (indent +:+ quoted (fst entry) +:+ ": " +:+ snd entry).
      split; [reflexivity|]. right. apply startsWith_append.
    + apply includes_app_r, includes_app_r, includes_refl_app.
Qed.

Lemma addFalse_effect content name :
  (exists added,
     addFalse content name = content +:+ added
     /\ (added = "" \/ startsWith indent added = true))
  /\ includes (addFalse content name) (quoted name +:+ ": false") = true.
Proof.
  unfold addFalse. destruct (includes content (quoted name +:+ ": false")) eqn:E; cbn [negb].
  - split; [exists ""; rewrite append_empty_r; auto | exact E].
  - split.
    + exists (indent +:+ quoted name +:+ ": false").
      split; [reflexivity|]. right. apply startsWith_append.
    + apply includes_app_r, includes_app_r.
      pose proof (includes_refl_app (quoted name +:+ ": false") "") as H.
      now rewrite append_empty_r in H.
Qed.

Lemma grows_trans a b c :
  (exists x, b = a +:+ x /\ (x = "" \/ startsWith indent x = true)) ->
  (exists y, c = b +:+ y /\ (y = "" \/ startsWith indent y = true)) ->
  exists z, c = a +:+ z /\ (z = "" \/ startsWith indent z = true).
Proof.
  intros (x & -> & Hx) (y & -> & Hy). exists (x +:+ y). rewrite append_assoc.
  split; [reflexivity|].
  destruct Hx as [->|Hx]; [exact Hy|].
  right. apply startsWith_iff in Hx as [r ->]. rewrite append_assoc.
  apply startsWith_append.
Qed.

Lemma fold_addModule entries :
  forall content,
    let out := fold_left addModule entries content in
    (exists added, out = content +:+ added
                   /\ (added = "" \/ startsWith indent added = true))
    /\ (forall x, includes content x = true -> includes out x = true)
    /\ (forall e, In e entries -> includes out (quoted (fst e)) = true).
Proof.
  induction entries as [|e rest IH]; intros content; simpl.
  - split; [exists ""; rewrite append_empty_r; auto|]. split; [auto | tauto].
  - destruct (IH (addModule content e)) as (Hgrow & Hmono & Hall).
    destruct (addModule_effect content e) as (Hstep & Hinc).
    split; [eapply grows_trans; eauto|]. split.
    + intros x Hx. apply Hmono. destruct Hstep as (added & -> & _).
      now apply includes_app_l.
    + intros e' [<-|Hin]; [apply Hmono, Hinc | now apply Hall].
Qed.

Lemma fold_addFalse names :
  forall content,
    let out := fold_left addFalse names content in
    (exists added, out = content +:+ added
                   /\ (added = "" \/ startsWith indent added = true))
    /\ (forall x, includes content x = true -> includes out x = true)
    /\ (forall n, In n names -> includes out (quoted n +:+ ": false") = true).
Proof.
  induction names as [|n rest IH]; intros content; simpl.
  - split; [exists ""; rewrite append_empty_r; auto|]. split; [auto | tauto].
  - destruct (IH (addFalse content n)) as (Hgrow & Hmono & Hall).
    destruct (addFalse_effect content n) as (Hstep & Hinc).
    split; [eapply grows_trans; eauto|]. split.
    + intros x Hx. apply Hmono. destruct Hstep as (added & -> & _).
      now apply includes_app_l.
    + intros n' [<-|Hin]; [apply Hmono, Hinc | now apply Hall].
Qed.

Lemma fold_addModule_fixed entries :
  forall content,
    (forall e, In e entries -> includes content (quoted (fst e)) = true) ->
    fold_left addModule entries content = content.
Proof.
  induction entries as [|e rest IH]; intros content Hall; simpl; [reflexivity|].
  unfold addModule at 2. rewrite (Hall e) by now left. cbn [negb].
  apply IH. intros e' Hin. apply Hall. now right.
Qed.

Lemma fold_addFalse_fixed names :
  forall content,
    (forall n, In n names -> includes content (quoted n +:+ ": false") = true) ->
    fold_left addFalse names content = content.
Proof.
  induction names as [|n rest IH]; intros content Hall; simpl; [reflexivity|].
  unfold addFalse at 2. rewrite (Hall n) by now left. cbn [negb].
  apply IH. intros n' Hin. apply Hall. now right.
Qed.

Lemma joinAll_app xs ys : joinAll (xs ++ ys) = joinAll xs +:+ joinAll ys.
Proof.
  induction xs as [|x xs IH]; [reflexivity|].
  cbn [joinAll app fold_right]. fold (joinAll (xs ++ ys)). fold (joinAll xs).
  now rewrite IH, append_assoc.
Qed.

Lemma written_trans a b c :
  (exists xs, b = a +:+ joinAll xs /\ Forall isEntry xs) ->
  (exists ys, c = b +:+ joinAll ys /\ Forall isEntry ys) ->
  exists zs, c = a +:+ joinAll zs /\ Forall isEntry zs.
Proof.
  intros (xs & -> & Hx) (ys & -> & Hy). exists (xs ++ ys).
  rewrite joinAll_app, append_assoc. split; [reflexivity|].
  apply Forall_app; auto.
Qed.

Lemma addModule_writes content entry :
  In entry modulesToAdd ->
  exists es, addModule content entry = content +:+ joinAll es /\ Forall isEntry es.
Proof.
  intros Hin. unfold addModule.
  destruct (includes content (quoted (fst entry))); cbn [negb].
  - exists []. cbn [joinAll fold_right]. rewrite append_empty_r. auto.
  - exists [entryOf (fst entry) (snd entry)]. cbn [joinAll fold_right].
    rewrite append_empty_r. split; [reflexivity|].
    constructor; [|constructor]. exists (fst entry), (snd entry).
    split; [reflexivity|]. left. now destruct entry.
Qed.

Lemma addFalse_writes content name :
  In name modulesToFalse ->
  exists es, addFalse content name = content +:+ joinAll es /\ Forall isEntry es.
Proof.
  intros Hin. unfold addFalse.
  destruct (includes content (quoted name +:+ ": false")); cbn [negb].
  - exists []. cbn [joinAll fold_right]. rewrite append_empty_r. auto.
  - exists [entryOf name "false"]. cbn [joinAll fold_right].
    rewrite append_empty_r. split; [reflexivity|].
    constructor; [|constructor]. exists name, "false". auto.
Qed.

Lemma fold_addModule_writes entries :
  forall content,
    (forall e, In e entries -> In e modulesToAdd) ->
    exists es, fold_left addModule entries content = content +:+ joinAll es
               /\ Forall isEntry es.
Proof.
  induction entries as [|e rest IH]; intros content Hsub; cbn [fold_left].
  - exists []. cbn [joinAll fold_right]. rewrite append_empty_r. auto.
  - eapply written_trans.
    + apply (addModule_writes content e), Hsub. now left.
    + apply IH. intros e' Hin. apply Hsub. now right.
Qed.

Lemma fold_addFalse_writes names :
  forall content,
    (forall n, In n names -> In n modulesToFalse) ->
    exists es, fold_left addFalse names content = content +:+ joinAll es
               /\ Forall isEntry es.
Proof.
  induction names as [|n rest IH]; intros content Hsub; cbn [fold_left].
  - exists []. cbn [joinAll fold_right]. rewrite append_empty_r. auto.
  - eapply written_trans.
    + apply (addFalse_writes content n), Hsub. now left.
    + apply IH. intros n' Hin. apply Hsub. now right.
Qed.

(** X19.  The fallback callback only appends.  The text it returns is
    [fallback: {], the captured text unchanged, a sequence of entries and
    the closing brace, where every entry is a comma, a line break, the
    indentation, and then a module of [modulesToAdd] with its replacement
    or a module of [modulesToFalse] with [false]; in that text every module
    of [modulesToAdd] is named and every module of [modulesToFalse] is set
    to [false]; and the callback, given the content it has completed,
    returns the same text again. *)
Theorem fallback_patch_only_appends_and_settles (p1 : string) :
  (exists entries,
     fallbackReplacer p1 = "fallback: {" +:+ p1 +:+ joinAll entries +:+ "}"
     /\ Forall isEntry entries)
  /\ (forall name target, In (name, target) modulesToAdd ->
                          includes (fallbackReplacer p1) (quoted name) = true)
  /\ (forall name, In name modulesToFalse ->
                   includes (fallbackReplacer p1) (quoted name +:+ ": false") = true)
  /\ fallbackReplacer (fallbackContent p1) = fallbackReplacer p1.
Proof.
  unfold fallbackReplacer, fallbackContent.
  destruct (fold_addModule modulesToAdd p1) as (_ & M1 & A1).
  destruct (fold_addFalse modulesToFalse (fold_left addModule modulesToAdd p1))
    as (_ & M2 & A2).
  assert (Hadd : forall e, In e modulesToAdd ->
            includes (fold_left addFalse modulesToFalse
                        (fold_left addModule modulesToAdd p1)) (quoted (fst e)) = true).
  { intros e Hin. apply M2, A1, Hin. }
  split.
  { destruct (written_trans p1 _ _
                (fold_addModule_writes modulesToAdd p1 (fun _ H => H))
                (fold_addFalse_writes modulesToFalse
                   (fold_left addModule modulesToAdd p1) (fun _ H => H)))
      as (es & -> & Hes).
    exists es. now rewrite append_assoc. }
  split.
  { intros name target Hin. apply includes_app_r, includes_app_l.
    apply (Hadd (name, target) Hin). }
  split.
  { intros name Hin. apply includes_app_r, includes_app_l, A2, Hin. }
  rewrite (fold_addModule_fixed modulesToAdd _ Hadd).
  now rewrite (fold_addFalse_fixed modulesToFalse _ A2).
Qed.

Lemma startsWith_stripPrefix p :
  forall s, startsWith p s = match stripPrefix p s with Some _ => true | None => false end.
Proof.
  induction p as [|a p IH]; intros s; simpl; [reflexivity|].
  destruct s as [|b s]; [reflexivity|].
  destruct (Ascii.eqb a b); simpl; [apply IH | reflexivity].
Qed.

Lemma includes_cons c s x : includes s x = true -> includes (String c s) x = true.
Proof. intros H. cbn [includes]. rewrite H. apply orb_true_r. Qed.

Lemma includes_empty s : includes s "" = true.
Proof. destruct s; reflexivity. Qed.

(** The replacement brings in what the replacement text holds. *)
Lemma replaceFirst_brings pat rep x s :
  includes rep x = true ->
  includes s pat = true ->
  includes (replaceFirst pat rep s) x = true.
Proof.
  intros Hrep. induction s as [|c r IH]; intros Hs.
  - cbn [replaceFirst]. cbn [includes] in Hs. rewrite orb_false_r in Hs.
    rewrite startsWith_stripPrefix in Hs.
    destruct (stripPrefix pat ""); [now apply includes_app_l | discriminate].
  - cbn [replaceFirst]. cbn [includes] in Hs. rewrite startsWith_stripPrefix in Hs.
    destruct (stripPrefix pat (String c r)); [now apply includes_app_l|].
    simpl in Hs. apply includes_cons, IH, Hs.
Qed.

Lemma startsWith_replaceFirst c rep x :
  allChars (fun a => negb (Ascii.eqb a c)) x = true ->
  forall s,
    startsWith x s = true ->
    startsWith x (replaceFirst (String c "") rep s) = true.
Proof.
  induction x as [|a x IH]; intros Hfree s Hs; [reflexivity|].
  simpl in Hfree. apply andb_true_iff in Hfree as [Ha Hfree].
  destruct s as [|b s]; [discriminate|].
  simpl in Hs. apply andb_true_iff in Hs as [Hab Hs].
  apply Ascii.eqb_eq in Hab. subst b. apply negb_true_iff in Ha.
  cbn [replaceFirst stripPrefix]. rewrite (Ascii.eqb_sym c a), Ha.
  cbn [startsWith]. rewrite Ascii.eqb_refl. simpl. now apply IH.
Qed.

(** Replacing a character keeps every text that does not hold it. *)
Lemma replaceFirst_keeps c rep x :
  allChars (fun a => negb (Ascii.eqb a c)) x = true ->
  forall s,
    includes s x = true ->
    includes (replaceFirst (String c "") rep s) x = true.
Proof.
  intros Hfree. induction s as [|b s IH]; intros Hs.
  - cbn [includes] in Hs. rewrite orb_false_r in Hs.
    destruct x; [apply includes_empty | discriminate].
  - cbn [includes] in Hs. apply orb_true_iff in Hs as [Hs|Hs].
    + pose proof (startsWith_replaceFirst c rep x Hfree _ Hs) as H.
      destruct (replaceFirst (String c "") rep (String b s)); cbn [includes]; now rewrite H.
    + cbn [replaceFirst stripPrefix]. destruct (Ascii.eqb c b).
      * now apply includes_app_r.
      * apply includes_cons, IH, Hs.
Qed.

(** X20.  The ProvidePlugin callback completes the call it is given: when
    the matched text holds a closing brace, the text it returns holds both
    the [process] entry and the [Buffer] entry, an entry that was there is
    kept, and a second application changes nothing. *)
Theorem provide_patch_adds_both_entries (p1 : string) :
  includes p1 "}" = true ->
  let out := provideReplacer p1 in
  includes out processEntry = true
  /\ includes out bufferEntry = true
  /\ provideReplacer out = out
  /\ (includes p1 processEntry = true -> includes p1 bufferEntry = true -> out = p1).
Proof.
  intros Hbrace out. subst out. unfold provideReplacer.
  set (s1 := if negb (includes p1 processEntry)
             then replaceFirst "}" (", " +:+ processEntry +:+ "}") p1 else p1).
  assert (H1 : includes s1 processEntry = true /\ includes s1 "}" = true).
  { subst s1. destruct (includes p1 processEntry) eqn:E; cbn [negb]; [auto|].
    split; apply replaceFirst_brings; auto; reflexivity. }
  destruct H1 as [Hp Hb].
  assert (H2 : includes (if negb (includes s1 bufferEntry)
                         then replaceFirst "}" (", " +:+ bufferEntry +:+ "}") s1 else s1)
                 processEntry = true
               /\ includes (if negb (includes s1 bufferEntry)
                            then replaceFirst "}" (", " +:+ bufferEntry +:+ "}") s1 else s1)
                    bufferEntry = true).
  { destruct (includes s1 bufferEntry) eqn:E; cbn [negb]; [auto|]. split.
    - apply replaceFirst_keeps; [reflexivity | exact Hp].
    - apply replaceFirst_brings; [reflexivity | exact Hb]. }
  destruct H2 as [Hp2 Hb2].
  split; [exact Hp2|]. split; [exact Hb2|]. split.
  - rewrite Hp2. cbn [negb]. rewrite Hb2. reflexivity.
  - intros Ep Eb. subst s1. rewrite Ep. cbn [negb]. rewrite Eb. reflexivity.
Qed.

Lemma provide_patch_adds_both_entries_witness :
  provideReplacer "new webpack.ProvidePlugin({ process: 'process/browser' })"
  = "new webpack.ProvidePlugin({ process: 'process/browser' , Buffer: ['buffer', 'Buffer']})"
  /\ includes
       (provideReplacer "new webpack.ProvidePlugin({ process: 'process/browser' })")
       bufferEntry = true.
Proof.
  split; [vm_compute; reflexivity|].
  apply (provide_patch_adds_both_entries
           "new webpack.ProvidePlugin({ process: 'process/browser' })").
  vm_compute. reflexivity.
Defined.

End PatchFacts.
